(** * sampleApp: a shallow embedding of the assistant's message pipeline

    The development follows the TypeScript sources:
    - [src/app/app.ts]: [detectIntent], [processAttachments],
      [extractTextFromAttachment], [parseCsv] and the head of the message hook;
    - [src/services/moderation.ts]: [moderateText];
    - [src/services/codeAnalysis.ts]: [parseCodeReviewResponse];
    - [src/services/projectManager.ts]: [getGitStatus], [commitChanges],
      [createBranch];
    - [src/services/search.ts]: [formatCitedResponse].

    A JavaScript string is a sequence of UTF-16 code units.  Here a string is
    a [string] whose characters stand for the code units 0..255 (the Latin-1
    range); [toLowerCase], the regular-expression classes and the [/i] flag are
    the ECMAScript ones restricted to that range.  Two places go beyond it:
    the signs of the replies, kept abstract in [Symbols], and the query of a
    search, taken as code units in [Uri]. *)

From Stdlib Require Import Bool Arith NArith ZArith List Lia.
From Stdlib Require Import Ascii String DecimalString DecimalNat.
Import ListNotations.

Local Open Scope list_scope.
Local Open Scope string_scope.

(** ** JavaScript string primitives *)

Module Js.

Definition code (a : ascii) : N := N_of_ascii a.

Definition between (lo hi n : N) : bool := ((lo <=? n) && (n <=? hi))%N.

(** [\d] *)
Definition is_digit (a : ascii) : bool := between 48 57 (code a).

(** [\w]: letters, digits and the underscore. *)
Definition is_word (a : ascii) : bool :=
  between 97 122 (code a) || between 65 90 (code a)
  || between 48 57 (code a) || (code a =? 95)%N.

(** [\s], which is also what [trim] strips: TAB, LF, VT, FF, CR, space and
    the no-break space. *)
Definition is_space (a : ascii) : bool :=
  between 9 13 (code a) || (code a =? 32)%N || (code a =? 160)%N.

(** One code unit of [String.prototype.toLowerCase]: A-Z and the Latin-1
    capitals U+00C0..U+00DE (but the multiplication sign U+00D7) move up by 32. *)
Definition lower_char (a : ascii) : ascii :=
  let n := code a in
  if between 65 90 n || (between 192 222 n && negb (n =? 215)%N)
  then ascii_of_N (n + 32) else a.

Fixpoint toLowerCase (s : string) : string :=
  match s with
  | EmptyString => EmptyString
  | String a s' => String (lower_char a) (toLowerCase s')
  end.

(** [s.startsWith(p)] *)
Fixpoint startsWith (p s : string) : bool :=
  match p, s with
  | EmptyString, _ => true
  | String a p', String b s' => Ascii.eqb a b && startsWith p' s'
  | String _ _, EmptyString => false
  end.

(** [s.includes(w)] *)
Fixpoint includes (w s : string) : bool :=
  startsWith w s ||
  match s with
  | EmptyString => false
  | String _ s' => includes w s'
  end.

Fixpoint rev_string (acc s : string) : string :=
  match s with
  | EmptyString => acc
  | String a s' => rev_string (String a acc) s'
  end.

(** [s.endsWith(p)] *)
Definition endsWith (p s : string) : bool :=
  startsWith (rev_string EmptyString p) (rev_string EmptyString s).

(** [s.slice(0, n)] for a non-negative [n]. *)
Definition slice0 (n : nat) (s : string) : string := substring 0 n s.

(** [s.split("\n")]: the lines of [s]; never empty. *)
Fixpoint split_lines (s : string) : list string :=
  match s with
  | EmptyString => [EmptyString]
  | String a s' =>
      if Ascii.eqb a "010"%char then EmptyString :: split_lines s'
      else match split_lines s' with
           | l :: ls => String a l :: ls
           | [] => [String a EmptyString]
           end
  end.

(** [xs.join(sep)] *)
Definition join (sep : string) (xs : list string) : string := String.concat sep xs.

Fixpoint trimStart (s : string) : string :=
  match s with
  | String a s' => if is_space a then trimStart s' else s
  | EmptyString => EmptyString
  end.

Definition trimEnd (s : string) : string :=
  rev_string EmptyString (trimStart (rev_string EmptyString s)).

(** [s.trim()] *)
Definition trim (s : string) : string := trimEnd (trimStart s).

(** The decimal rendering of a non-negative integer inside a template
    literal. *)
Definition Number_toString (n : nat) : string :=
  NilEmpty.string_of_uint (Nat.to_uint n).

Definition digit_value (a : ascii) : N := (code a - 48)%N.

Fixpoint digits_value (acc : N) (s : string) : N :=
  match s with
  | String a s' => if is_digit a then digits_value (acc * 10 + digit_value a) s' else acc
  | EmptyString => acc
  end.

(** The digits [parseInt(s)] reads from a string that begins with neither
    white space nor a sign: the mathematical integer of the leading run of
    decimal digits, and [None] when there is none. *)
Definition leading_integer (s : string) : option N :=
  match s with
  | String a _ => if is_digit a then Some (digits_value 0 s) else None
  | EmptyString => None
  end.

(** The Number for a non-negative mathematical integer: the integer itself
    up to 2^53, and beyond that the nearest value with 53 significant bits,
    a tie going to the even one; [None] is [Infinity], from 2^1024 - 2^970
    on.  Node rounds the exact value of the digits. *)
Definition nearest_double (n : N) : option N :=
  if (n <? 9007199254740992)%N then Some n
  else
    let e := (N.log2 n - 52)%N in
    let q := (n / 2 ^ e)%N in
    let r := (n mod 2 ^ e)%N in
    let half := (2 ^ (e - 1))%N in
    let q' := if (half <? r)%N || ((r =? half)%N && N.odd q) then (q + 1)%N else q in
    let v := (q' * 2 ^ e)%N in
    if (v <? 2 ^ 1024)%N then Some v else None.

(** A value that may be [undefined], inside a template literal. *)
Definition template (o : option string) : string :=
  match o with Some s => s | None => "undefined" end.

(** [o || d] for a string that may be [undefined]: the empty string is falsy
    too. *)
Definition or_default (o : option string) (d : string) : string :=
  match o with
  | Some (String a s) => String a s
  | _ => d
  end.

Definition truthy (o : option string) : bool :=
  match o with Some (String _ _) => true | _ => false end.

End Js.

(** ** Regular expressions

    The fragment of ECMAScript patterns the sources use, with the
    backtracking semantics of the language: a matcher takes the position (the
    code unit before it, the text after it), the captures so far and a
    continuation; alternatives are tried left to right and [*] is greedy. *)

Module Regex.

Inductive regex : Type :=
| Eps                           (* the empty pattern *)
| Chr (c : ascii)               (* a literal character *)
| Cls (p : ascii -> bool)       (* a class: [\s], [\d], [[-*]] *)
| Bol                           (* [^], no multiline flag *)
| WordB                         (* [\b] *)
| Seq (r1 r2 : regex)
| Alt (r1 r2 : regex)
| Star (p : ascii -> bool)      (* class[*] *)
| Group (r : regex).            (* a capturing group *)

Fixpoint lit (s : string) : regex :=
  match s with
  | EmptyString => Eps
  | String c s' => Seq (Chr c) (lit s')
  end.

(** class[+] *)
Definition Plus (p : ascii -> bool) : regex := Seq (Cls p) (Star p).

(** Canonicalize of the [/i] flag without [/u]: the upper-case mapping when
    it is one code unit, as a code point (y-diaeresis and the micro sign leave
    Latin-1; the sharp s has a two-unit upper case and stays). *)
Definition canonicalize (a : ascii) : N :=
  let n := Js.code a in
  if Js.between 97 122 n || (Js.between 224 254 n && negb (n =? 247)%N) then (n - 32)%N
  else if (n =? 255)%N then 376%N
  else if (n =? 181)%N then 924%N
  else n.

Definition char_match (ignoreCase : bool) (c a : ascii) : bool :=
  if ignoreCase then (canonicalize c =? canonicalize a)%N else Ascii.eqb c a.

Definition is_word_opt (o : option ascii) : bool :=
  match o with Some a => Js.is_word a | None => false end.

Definition head (s : string) : option ascii :=
  match s with String a _ => Some a | EmptyString => None end.

Section Matcher.
Context {A : Type}.

Definition cont := option ascii -> string -> list string -> option A.

(** Greedy iteration of a class: one more character first, the
    continuation at the current position when that fails. *)
Fixpoint star_loop (p : ascii -> bool) (prev : option ascii) (s : string)
         (caps : list string) (k : cont) : option A :=
  match s with
  | String a s' =>
      if p a then
        match star_loop p (Some a) s' caps k with
        | Some x => Some x
        | None => k prev s caps
        end
      else k prev s caps
  | EmptyString => k prev s caps
  end.

Fixpoint rmatch (ignoreCase : bool) (r : regex) (prev : option ascii)
         (s : string) (caps : list string) (k : cont) : option A :=
  match r with
  | Eps => k prev s caps
  | Chr c =>
      match s with
      | String a s' => if char_match ignoreCase c a then k (Some a) s' caps else None
      | EmptyString => None
      end
  | Cls p =>
      match s with
      | String a s' => if p a then k (Some a) s' caps else None
      | EmptyString => None
      end
  | Bol => match prev with None => k prev s caps | Some _ => None end
  | WordB =>
      if xorb (is_word_opt prev) (is_word_opt (head s)) then k prev s caps else None
  | Seq r1 r2 =>
      rmatch ignoreCase r1 prev s caps
             (fun prev' s' caps' => rmatch ignoreCase r2 prev' s' caps' k)
  | Alt r1 r2 =>
      match rmatch ignoreCase r1 prev s caps k with
      | Some x => Some x
      | None => rmatch ignoreCase r2 prev s caps k
      end
  | Star p => star_loop p prev s caps k
  | Group r =>
      rmatch ignoreCase r prev s caps
             (fun prev' s' caps' =>
                k prev' s' (caps' ++ [substring 0 (length s - length s') s])%list)
  end.
End Matcher.

(** The result of [exec]: where the match starts, what follows it, and the
    captured groups. *)
Record match_result : Type := {
  m_index : nat;
  m_after : string;
  m_groups : list string
}.

Definition match_here (ignoreCase : bool) (r : regex) (prev : option ascii)
           (s : string) : option (string * list string) :=
  rmatch ignoreCase r prev s [] (fun _ s' caps => Some (s', caps)).

(** The search loop of a pattern without the [g] flag: the first start
    position, from the left, at which the pattern matches. *)
Fixpoint exec_from (ignoreCase : bool) (r : regex) (prev : option ascii)
         (s : string) : option match_result :=
  match match_here ignoreCase r prev s with
  | Some (s', caps) => Some {| m_index := 0; m_after := s'; m_groups := caps |}
  | None =>
      match s with
      | String a s' =>
          match exec_from ignoreCase r (Some a) s' with
          | Some m => Some {| m_index := S (m_index m); m_after := m_after m;
                              m_groups := m_groups m |}
          | None => None
          end
      | EmptyString => None
      end
  end.

(** [s.match(r)] *)
Definition exec (ignoreCase : bool) (r : regex) (s : string) : option match_result :=
  exec_from ignoreCase r None s.

(** [r.test(s)] *)
Definition test (ignoreCase : bool) (r : regex) (s : string) : bool :=
  match exec ignoreCase r s with Some _ => true | None => false end.

(** [s.replace(r, "")]: the first match is cut out. *)
Definition remove_first (ignoreCase : bool) (r : regex) (s : string) : string :=
  match exec ignoreCase r s with
  | Some m => substring 0 (m_index m) s ++ m_after m
  | None => s
  end.

End Regex.

Declare Scope regex_scope.
Delimit Scope regex_scope with re.
Bind Scope regex_scope with Regex.regex.
Infix ">>" := Regex.Seq (at level 40, left associativity) : regex_scope.
Infix "<|>" := Regex.Alt (at level 50, left associativity) : regex_scope.

(** ** app.ts: intent detection *)

Module Intent.
Import Regex.
Local Open Scope regex_scope.

(** The patterns of [detectIntent], in source order.  [|] binds
    weaker than [^]: in [/^git status|status/] only the first alternative is
    anchored. *)
Definition re_search : regex := Bol >> lit "search" >> WordB.
Definition re_card : regex := WordB >> lit "card" >> WordB.
Definition re_generate_card : regex := Bol >> lit "generate card".
Definition re_summarize : regex := WordB >> lit "summary" >> WordB <|> lit "summarize".
Definition re_help : regex := lit "help" <|> lit "commands".
Definition re_code_review : regex := Bol >> lit "review code" <|> lit "code review".
Definition re_code_analysis : regex := Bol >> lit "analyze" <|> lit "analysis".
Definition re_code_generate : regex := Bol >> lit "generate code" <|> lit "create code".
Definition re_git_status : regex := Bol >> lit "git status" <|> lit "status".
Definition re_git_commit : regex := Bol >> lit "commit".
Definition re_git_branch : regex := Bol >> lit "branch".
Definition re_project_info : regex := Bol >> lit "project" <|> lit "dashboard".
Definition re_deployment : regex := Bol >> lit "deploy" <|> lit "deployment".
Definition re_environment : regex := Bol >> lit "env" <|> lit "environment".

Definition detectIntent (text : string) : string :=
  let t := Js.toLowerCase text in
  if test false re_search t then "search"
  else if test false re_card t || test false re_generate_card t then "card"
  else if test false re_summarize t then "summarize"
  else if test false re_help t then "help"
  else if test false re_code_review t then "code_review"
  else if test false re_code_analysis t then "code_analysis"
  else if test false re_code_generate t then "code_generate"
  else if test false re_git_status t then "git_status"
  else if test false re_git_commit t then "git_commit"
  else if test false re_git_branch t then "git_branch"
  else if test false re_project_info t then "project_info"
  else if test false re_deployment t then "deployment"
  else if test false re_environment t then "environment"
  else "chat".

End Intent.

(** ** Effects

    Every function that talks to the outside (HTTP, the file system, the git
    client, the chat transport, the console) runs in [M]: it reads and extends
    the trace of calls made so far and ends with a value or a thrown
    exception.  What the outside answers is given by a [World], whose answers
    may depend on the whole history. *)

Module Eff.

Inductive Exn (A : Type) : Type :=
| Ok (a : A)
| Throw (e : string).
Arguments Ok {A} a.
Arguments Throw {A} e.

Inductive event : Type :=
| EvHttpGet (url : string)
| EvHttpPost (url : string) (input : string)
| EvTmpdir
| EvRandomUUID
| EvWriteFile (path : string)
| EvReadFile (path : string)
| EvUnlink (path : string)
| EvPdfParse
| EvCsvParse
| EvSimpleGit (root : string)
| EvGitStatus
| EvGitAdd (files : list string)
| EvGitCommit (message : string)
| EvGitCheckoutLocalBranch (name : string)
| EvSendActivity (text : string)
| EvConsole (message : string).

Definition trace : Type := list event.

Definition M (A : Type) : Type := trace -> Exn A * trace.

Definition ret {A} (a : A) : M A := fun tr => (Ok a, tr).

Definition throw {A} (e : string) : M A := fun tr => (Throw e, tr).

Definition bind {A B} (m : M A) (f : A -> M B) : M B :=
  fun tr =>
    match m tr with
    | (Ok a, tr') => f a tr'
    | (Throw e, tr') => (Throw e, tr')
    end.

(** [try { body } catch (e) { handler }] *)
Definition try_catch {A} (body : M A) (handler : string -> M A) : M A :=
  fun tr =>
    match body tr with
    | (Ok a, tr') => (Ok a, tr')
    | (Throw e, tr') => handler e tr'
    end.

(** One call to the outside: the world answers from the history, the call is
    recorded. *)
Definition call {A} (ev : event) (answer : trace -> Exn A) : M A :=
  fun tr => (answer tr, (tr ++ [ev])%list).

(** [console.error] and [console.warn] *)
Definition console (message : string) : M unit :=
  fun tr => (Ok tt, (tr ++ [EvConsole message])%list).

End Eff.

Notation "x <- m ;; k" := (Eff.bind m (fun x => k))
  (at level 61, m at next level, right associativity).
Notation "m ;;; k" := (Eff.bind m (fun _ => k))
  (at level 61, right associativity).

Definition nl : string := String "010" EmptyString.

Definition Buffer : Type := list Byte.byte.

(** The answer of the moderation endpoint that [moderateText] reads:
    [resp.data.results?.[0]] with its [flagged] field and [categories] map. *)
Record ModerationEntry : Type := {
  entry_flagged : bool;
  entry_categories : option (list (string * bool))
}.

(** simple-git's [StatusResult], the fields [getGitStatus] reads. *)
Record FileStatusResult : Type := {
  fs_path : string;
  fs_index : string;
  fs_working_dir : string
}.

Record StatusResult : Type := {
  sr_current : string;
  sr_files : list FileStatusResult;
  sr_ahead : N;
  sr_behind : N
}.

Record World : Type := {
  axios_get : Eff.trace -> string -> Eff.Exn Buffer;
  axios_post_moderation : Eff.trace -> string -> string -> Eff.Exn (option ModerationEntry);
  os_tmpdir : Eff.trace -> string;
  crypto_randomUUID : Eff.trace -> string;
  path_join : string -> string -> string;
  fs_writeFileSync : Eff.trace -> string -> Buffer -> Eff.Exn unit;
  fs_readFileSync : Eff.trace -> string -> Eff.Exn Buffer;
  fs_readFileSync_utf8 : Eff.trace -> string -> Eff.Exn string;
  pdfParse : Eff.trace -> Buffer -> Eff.Exn string;
  csvParse : Eff.trace -> Buffer -> nat -> Eff.Exn (list (list string));
  simpleGit : Eff.trace -> string -> Eff.Exn unit;
  git_status : Eff.trace -> Eff.Exn StatusResult;
  git_add : Eff.trace -> list string -> Eff.Exn unit;
  git_commit : Eff.trace -> string -> Eff.Exn unit;
  git_checkoutLocalBranch : Eff.trace -> string -> Eff.Exn unit;
  sendActivity : Eff.trace -> string -> Eff.Exn unit
}.

(** config.ts, the options these functions read. *)
Record Config : Type := {
  enableModeration : bool;
  openAIModerationApiKey : option string;
  projectRoot : string
}.

(** ** services/moderation.ts *)

Module Moderation.
Import Eff.

Record ModerationResult : Type := {
  flagged : bool;
  reasons : list string
}.

Definition banned : list string := ["hate"; "terror"; "bomb"].

Definition moderation_url : string := "https://api.openai.com/v1/moderations".

Section WithWorld.
Variable cfg : Config.
Variable w : World.

(** The [try] block of the hosted check: [Some] is its early [return],
    [None] falls through to the end of the function. *)
Definition hosted_check (key text : string) : M (option ModerationResult) :=
  try_catch
    (results <- call (EvHttpPost moderation_url text)
                     (fun tr => axios_post_moderation w tr key text) ;;
     match results with
     | Some e =>
         if entry_flagged e then
           let cats :=
             map fst (filter (fun kv => snd kv)
                             (match entry_categories e with Some c => c | None => [] end)) in
           ret (Some {| flagged := true; reasons := cats |})
         else ret None
     | None => ret None
     end)
    (fun e => console "Moderation API failed" ;;; ret None).

Definition moderateText (text : string) : M ModerationResult :=
  if negb (enableModeration cfg) then ret {| flagged := false; reasons := [] |}
  else
    let triggered := filter (fun b => Js.includes b (Js.toLowerCase text)) banned in
    if negb (Nat.eqb (List.length triggered) 0) then ret {| flagged := true; reasons := ["keyword"] |}
    else
      r <- match openAIModerationApiKey cfg with
           | Some (String a key) => hosted_check (String a key) text
           | _ => ret None
           end ;;
      match r with
      | Some res => ret res
      | None => ret {| flagged := false; reasons := [] |}
      end.
End WithWorld.

End Moderation.

(** ** services/search.ts *)

Module Search.

Record WebSearchResult : Type := {
  title : string;
  url : string;
  snippet : string
}.

(** [xs.map((x, i) => f x i)], the index counted from [i]. *)
Fixpoint map_index {A B : Type} (f : A -> nat -> B) (i : nat) (xs : list A) : list B :=
  match xs with
  | [] => []
  | x :: xs' => f x i :: map_index f (S i) xs'
  end.

Definition citation (r : WebSearchResult) (i : nat) : string :=
  "[" ++ Js.Number_toString (i + 1) ++ "] " ++ title r ++ " - " ++ url r.

Definition formatCitedResponse (answer : string) (results : list WebSearchResult) : string :=
  if Nat.eqb (List.length results) 0 then answer
  else
    let citations := Js.join nl (map_index citation 0 results) in
    answer ++ nl ++ nl ++ "Sources:" ++ nl ++ citations.

End Search.

(** ** services/codeAnalysis.ts: parsing the model's review *)

Module CodeReview.
Import Regex.
Local Open Scope regex_scope.

(** A JavaScript number as [parseInt] can produce it. *)
Inductive Number : Type :=
| Int (n : N)
| Infinity
| NaN.

Record CodeReviewResult : Type := {
  summary : string;
  suggestions : list string;
  score : Number;
  issues : list string
}.

(** [/(?:score|rating):\s*(\d+)/i] *)
Definition re_score : regex :=
  (lit "score" <|> lit "rating") >> Chr ":" >> Star Js.is_space >> Group (Plus Js.is_digit).

Definition is_bullet_char (a : ascii) : bool :=
  Ascii.eqb a "-" || Ascii.eqb a "*".

(** [/^[-*]\s/] *)
Definition re_bullet : regex := Bol >> Cls is_bullet_char >> Cls Js.is_space.

(** The Number for a mathematical integer. *)
Definition of_integer (n : N) : Number :=
  match Js.nearest_double n with Some v => Int v | None => Infinity end.

(** [parseInt(s)] on a string that begins with neither white space nor a
    sign: a Number, so the integer of the digits only as far as a Number
    holds it, and [NaN] without a digit. *)
Definition parseInt (s : string) : Number :=
  match Js.leading_integer s with Some n => of_integer n | None => NaN end.

Definition mentions_problem (line : string) : bool :=
  Js.includes "bug" (Js.toLowerCase line)
  || Js.includes "error" (Js.toLowerCase line)
  || Js.includes "issue" (Js.toLowerCase line).

(** The body of [lines.forEach]: the state is the pair of arrays the closure
    pushes to, [suggestions] first. *)
Definition classify_line (acc : list string * list string) (line : string)
  : list string * list string :=
  if test false re_bullet line then
    let item := Js.trim (remove_first false re_bullet line) in
    if mentions_problem line then (fst acc, (snd acc ++ [item])%list)
    else ((fst acc ++ [item])%list, snd acc)
  else acc.

Definition parseCodeReviewResponse (content : string) : CodeReviewResult :=
  let lines := Js.split_lines content in
  let score :=
    match exec true re_score content with
    | Some m => parseInt (nth 0 (m_groups m) EmptyString)
    | None => Int 5
    end in
  let lists := fold_left classify_line lines ([], []) in
  {| summary := match nth 0 (Js.split_lines content) EmptyString with
                | EmptyString => "Code reviewed successfully"
                | first => first
                end;
     suggestions := fst lists;
     score := score;
     issues := snd lists |}.

End CodeReview.

(** ** services/projectManager.ts: the git operations *)

Module ProjectManager.
Import Eff.

Record GitFile : Type := {
  path : string;
  status : string;
  staged : bool
}.

Record GitStatus : Type := {
  current : string;
  files : list GitFile;
  ahead : N;
  behind : N
}.

Section WithWorld.
Variable cfg : Config.
Variable w : World.

Definition open_git : M unit :=
  call (EvSimpleGit (projectRoot cfg)) (fun tr => simpleGit w tr (projectRoot cfg)).

Definition to_GitFile (f : FileStatusResult) : GitFile :=
  {| path := fs_path f;
     status := fs_working_dir f ++ fs_index f;
     staged := negb (String.eqb (fs_index f) " ") && negb (String.eqb (fs_index f) "?") |}.

Definition getGitStatus : M GitStatus :=
  try_catch
    (open_git ;;;
     st <- call EvGitStatus (git_status w) ;;
     ret {| current := sr_current st;
            files := map to_GitFile (sr_files st);
            ahead := sr_ahead st;
            behind := sr_behind st |})
    (fun e =>
       console "Git status failed:" ;;;
       ret {| current := "unknown"; files := []; ahead := 0; behind := 0 |}).

(** [files] is the optional second argument. *)
Definition commitChanges (message : string) (files : option (list string)) : M bool :=
  try_catch
    (open_git ;;;
     match files with
     | Some (f :: fs) => call (EvGitAdd (f :: fs)) (fun tr => git_add w tr (f :: fs))
     | _ => call (EvGitAdd ["."]) (fun tr => git_add w tr ["."])
     end ;;;
     call (EvGitCommit message) (fun tr => git_commit w tr message) ;;;
     ret true)
    (fun e => console "Git commit failed:" ;;; ret false).

Definition createBranch (branchName : string) : M bool :=
  try_catch
    (open_git ;;;
     call (EvGitCheckoutLocalBranch branchName)
          (fun tr => git_checkoutLocalBranch w tr branchName) ;;;
     ret true)
    (fun e => console "Branch creation failed:" ;;; ret false).
End WithWorld.

End ProjectManager.

(** ** app.ts: the signs of the replies

    The replies use a few signs outside Latin-1 (emoji, the bullet); their
    texts are kept abstract in [Symbols]. *)

Record Symbols : Type := {
  sym_check : string;          (* white heavy check mark *)
  sym_cross : string;          (* cross mark *)
  sym_magnifier : string;      (* left-pointing magnifying glass *)
  sym_warning : string;        (* warning sign *)
  sym_bullet : string;         (* bullet *)
  sym_tools : string;          (* hammer and wrench *)
  sym_chart : string;          (* bar chart *)
  sym_gear : string;           (* gear *)
  sym_herb : string;           (* herb *)
  sym_chart_up : string;       (* chart with upwards trend *)
  sym_chart_down : string;     (* chart with downwards trend *)
  sym_memo : string;           (* memo *)
  sym_floppy : string;         (* floppy disk *)
  sym_scroll : string          (* scroll *)
}.

(** ** app.ts: attachments and the head of the message hook *)

Module App.
Import Eff.

Record Attachment : Type := {
  name : option string;
  contentUrl : option string
}.

Record Activity : Type := {
  text : option string;
  attachments : option (list Attachment)
}.

(** The marker for other extensions.  Its dash is U+2013 in the source, one
    code unit outside Latin-1; a hyphen stands for it here. *)
Definition unsupported_marker : string :=
  "[Unsupported file type - only PDF, CSV, TXT, MD processed]".

Definition error_marker : string := "[Error processing attachment]".

Section WithWorld.
Variable sym : Symbols.
Variable cfg : Config.
Variable w : World.

Definition parseCsv (buf : Buffer) : M string :=
  rows <- call EvCsvParse (fun tr => csvParse w tr buf 50) ;;
  let records := map (fun r => Js.join ", " r) rows in
  ret (Js.join nl (firstn 50 records)).

Definition extractTextFromAttachment (att : Attachment) : M string :=
  match contentUrl att with
  | Some (String a u) =>
      let url := String a u in
      dir <- call EvTmpdir (fun tr => Ok (os_tmpdir w tr)) ;;
      uuid <- call EvRandomUUID (fun tr => Ok (crypto_randomUUID w tr)) ;;
      let tmp := path_join w dir (uuid ++ "-" ++ Js.or_default (name att) "file") in
      resp <- call (EvHttpGet url) (fun tr => axios_get w tr url) ;;
      call (EvWriteFile tmp) (fun tr => fs_writeFileSync w tr tmp resp) ;;;
      let lower := Js.toLowerCase (Js.or_default (name att) "") in
      content <-
        (if Js.endsWith ".pdf" lower then
           buf <- call (EvReadFile tmp) (fun tr => fs_readFileSync w tr tmp) ;;
           call EvPdfParse (fun tr => pdfParse w tr buf)
         else if Js.endsWith ".csv" lower then
           buf <- call (EvReadFile tmp) (fun tr => fs_readFileSync w tr tmp) ;;
           parseCsv buf
         else if Js.endsWith ".txt" lower || Js.endsWith ".md" lower then
           call (EvReadFile tmp) (fun tr => fs_readFileSync_utf8 w tr tmp)
         else ret unsupported_marker) ;;
      (* fs.unlink with an empty callback: a failure is dropped *)
      call (EvUnlink tmp) (fun _ => Ok tt) ;;;
      ret ("File: " ++ Js.template (name att) ++ nl ++ content)
  | _ => ret ""
  end.

(** One turn of the [for] loop: the [try] pushes the capped text, the
    [catch] pushes the marker. *)
Definition process_one (att : Attachment) : M string :=
  try_catch
    (text <- extractTextFromAttachment att ;;
     ret (Js.slice0 4000 text))
    (fun e => ret error_marker).

Fixpoint process_loop (atts : list Attachment) (outputs : list string) : M (list string) :=
  match atts with
  | [] => ret outputs
  | att :: rest =>
      o <- process_one att ;;
      process_loop rest (outputs ++ [o])%list
  end.

Definition processAttachments (act : Activity) : M (list string) :=
  let atts := match attachments act with Some l => l | None => [] end in
  process_loop atts [].

(** The warning of the gate. *)
Definition blocked_message (reasons : list string) : string :=
  sym_warning sym ++ " Your message was blocked by safety guardrails." ++
  (if negb (Nat.eqb (List.length reasons) 0) then " Reasons: " ++ Js.join ", " reasons else "").

Definition ensureNotFlagged (text : string) : M bool :=
  md <- Moderation.moderateText cfg w text ;;
  if Moderation.flagged md then
    call (EvSendActivity (blocked_message (Moderation.reasons md)))
         (fun tr => sendActivity w tr (blocked_message (Moderation.reasons md))) ;;;
    ret false
  else ret true.

Definition attachments_reply (extracted : list string) : string :=
  "Processed " ++ Js.Number_toString (List.length extracted)
  ++ " file(s). Content snippet(s):" ++ nl ++ nl ++ Js.join (nl ++ "---" ++ nl) extracted.

(** How the message hook leaves its first two stages: blocked by the
    moderation gate, answered with the attachment snippets, or handed to the
    [switch] on the detected intent. *)
Inductive outcome : Type :=
| Blocked
| AttachmentsAnswered
| Dispatch (intent : string).

Definition onMessage (act : Activity) : M outcome :=
  let text := Js.or_default (text act) "" in
  ok <- ensureNotFlagged text ;;
  if negb ok then ret Blocked
  else
    match attachments act with
    | Some (_ :: _) =>
        extracted <- processAttachments act ;;
        call (EvSendActivity (attachments_reply extracted))
             (fun tr => sendActivity w tr (attachments_reply extracted)) ;;;
        ret AttachmentsAnswered
    | _ => ret (Dispatch (Intent.detectIntent text))
    end.
End WithWorld.

End App.

(** ** Worlds and configurations to run the model on *)

Module Sample.
Import Eff.

(** Nothing outside answers: every call throws. *)
Definition offline : World :=
  {| axios_get := fun _ _ => Throw "ENETUNREACH";
     axios_post_moderation := fun _ _ _ => Throw "ENETUNREACH";
     os_tmpdir := fun _ => "/tmp";
     crypto_randomUUID := fun _ => "00000000-0000-4000-8000-000000000000";
     path_join := fun a b => a ++ "/" ++ b;
     fs_writeFileSync := fun _ _ _ => Throw "EACCES";
     fs_readFileSync := fun _ _ => Throw "ENOENT";
     fs_readFileSync_utf8 := fun _ _ => Throw "ENOENT";
     pdfParse := fun _ _ => Throw "InvalidPDFException";
     csvParse := fun _ _ _ => Throw "CsvError";
     simpleGit := fun _ _ => Throw "Cannot use simple-git on a directory that does not exist";
     git_status := fun _ => Throw "fatal: not a git repository";
     git_add := fun _ _ => Throw "fatal: not a git repository";
     git_commit := fun _ _ => Throw "fatal: not a git repository";
     git_checkoutLocalBranch := fun _ _ => Throw "fatal: not a git repository";
     sendActivity := fun _ _ => Ok tt |}.

(** Every download succeeds and every text file read back holds [content];
    the git client opens but each of its commands fails. *)
Definition serving (content : string) : World :=
  {| axios_get := fun _ _ => Ok [];
     axios_post_moderation := fun _ _ _ => Ok None;
     os_tmpdir := fun _ => "/tmp";
     crypto_randomUUID := fun _ => "00000000-0000-4000-8000-000000000000";
     path_join := fun a b => a ++ "/" ++ b;
     fs_writeFileSync := fun _ _ _ => Ok tt;
     fs_readFileSync := fun _ _ => Ok [];
     fs_readFileSync_utf8 := fun _ _ => Ok content;
     pdfParse := fun _ _ => Ok content;
     csvParse := fun _ _ _ => Ok [[content]];
     simpleGit := fun _ _ => Ok tt;
     git_status := fun _ => Throw "fatal: not a git repository";
     git_add := fun _ _ => Throw "fatal: not a git repository";
     git_commit := fun _ _ => Throw "nothing to commit";
     git_checkoutLocalBranch := fun _ _ => Throw "fatal: a branch with that name already exists";
     sendActivity := fun _ _ => Ok tt |}.

Definition moderation_off : Config :=
  {| enableModeration := false; openAIModerationApiKey := Some "sk-test"; projectRoot := "/repo" |}.

Definition moderation_on : Config :=
  {| enableModeration := true; openAIModerationApiKey := Some "sk-test"; projectRoot := "/repo" |}.

End Sample.


(** ** Vocabulary of the statements

    Plain functions on texts that the properties below are phrased with. *)

Module Text.

(** The text after its first [n] characters. *)
Fixpoint drop (n : nat) (s : string) : string :=
  match n, s with
  | S n', String _ s' => drop n' s'
  | _, _ => s
  end.

(** The character before the position reached after reading [u], when
    [prev] was the one before [u]. *)
Fixpoint last_char (prev : option ascii) (u : string) : option ascii :=
  match u with
  | EmptyString => prev
  | String a u' => last_char (Some a) u'
  end.

(** The longest prefix whose characters all satisfy [p], and what follows. *)
Fixpoint take_while (p : ascii -> bool) (s : string) : string :=
  match s with
  | String a s' => if p a then String a (take_while p s') else EmptyString
  | EmptyString => EmptyString
  end.

Fixpoint drop_while (p : ascii -> bool) (s : string) : string :=
  match s with
  | String a s' => if p a then drop_while p s' else s
  | EmptyString => EmptyString
  end.

Fixpoint all_chars (p : ascii -> bool) (s : string) : bool :=
  match s with
  | String a s' => p a && all_chars p s'
  | EmptyString => true
  end.

(** The text is not empty and its first character satisfies [p]. *)
Definition first_is (p : ascii -> bool) (s : string) : bool :=
  match s with String a _ => p a | EmptyString => false end.

(** A literal read at the head of [s], character by character, under the
    comparison of the flag. *)
Fixpoint lit_match (ignoreCase : bool) (p s : string) : bool :=
  match p, s with
  | EmptyString, _ => true
  | String c p', String a s' => Regex.char_match ignoreCase c a && lit_match ignoreCase p' s'
  | String _ _, EmptyString => false
  end.

Definition is_lower_letter (c : ascii) : bool := Js.between 97 122 (Js.code c).

(** The continuation at the end of a pattern: the match succeeds with the
    text left and the captures. *)
Definition final : @Regex.cont (string * list string) :=
  fun _ s' caps => Some (s', caps).

End Text.

(** The contract of the classifier in the words of the specification: an
    ordered list of predicates on the lower-cased text, each with its label;
    the first predicate that holds decides, and [chat] is the default. *)

Module IntentRules.
Import Regex Intent.

Definition rule : Type := (string -> bool) * string.

Definition rules : list rule :=
  [ (test false re_search, "search");
    (fun t => test false re_card t || test false re_generate_card t, "card");
    (test false re_summarize, "summarize");
    (test false re_help, "help");
    (test false re_code_review, "code_review");
    (test false re_code_analysis, "code_analysis");
    (test false re_code_generate, "code_generate");
    (test false re_git_status, "git_status");
    (test false re_git_commit, "git_commit");
    (test false re_git_branch, "git_branch");
    (test false re_project_info, "project_info");
    (test false re_deployment, "deployment");
    (test false re_environment, "environment") ].

Fixpoint first_match (rs : list rule) (t : string) : string :=
  match rs with
  | [] => "chat"
  | (holds, label) :: rs' => if holds t then label else first_match rs' t
  end.

(** None of the rules [rs] holds of [t]. *)
Definition none_holds (rs : list rule) (t : string) : bool :=
  forallb (fun r => negb (fst r t)) rs.

Definition rules_1_to_7 : list rule := firstn 7 rules.

End IntentRules.

(** The vocabulary of the review parser: what counts as a bullet line, the
    item kept for it, the first line of a reply, and an occurrence of a score
    token. *)

Module ReviewText.
Import Text.

Definition is_newline (a : ascii) : bool := Ascii.eqb a "010"%char.

(** The text before the first line break. *)
Definition first_line (content : string) : string :=
  take_while (fun a => negb (is_newline a)) content.

(** A line whose first character is "-" or "*" and whose second is white
    space. *)
Definition is_bullet_line (line : string) : bool :=
  match line with
  | String b (String c _) => CodeReview.is_bullet_char b && Js.is_space c
  | _ => false
  end.

(** A line whose first character is "-" or "*". *)
Definition starts_with_bullet (line : string) : bool :=
  first_is CodeReview.is_bullet_char line.

(** The line without its two leading characters, trimmed. *)
Definition bullet_item (line : string) : string := Js.trim (drop 2 line).

(** [kw ++ ":" ++ ws ++ d ++ rest] reads as a score token: the keyword is
    "score" or "rating" in any letter case, [ws] is white space, [d] is a
    non-empty run of digits and [rest] does not go on with a digit. *)
Definition score_token (kw ws d rest : string) : Prop :=
  (Js.toLowerCase kw = "score" \/ Js.toLowerCase kw = "rating")
  /\ all_chars Js.is_space ws = true
  /\ d <> ""
  /\ all_chars Js.is_digit d = true
  /\ first_is Js.is_digit rest = false.

(** The token occurs in [content] right after [pre]. *)
Definition score_occurs (content pre kw ws d rest : string) : Prop :=
  content = pre ++ kw ++ ":" ++ ws ++ d ++ rest /\ score_token kw ws d rest.

(** No occurrence starts further left. *)
Definition leftmost (content pre : string) : Prop :=
  forall pre' kw' ws' d' rest',
    score_occurs content pre' kw' ws' d' rest' -> length pre <= length pre'.

(** What [/(?:score|rating):\s*(\d+)/i] does at one position, written out:
    the keyword, the colon, the white space, then the longest run of digits,
    which is captured; the result is the text after the digits and that
    capture. *)
Definition score_tail (s : string) : option (string * list string) :=
  match s with
  | String c s2 =>
      if Regex.char_match true ":" c then
        match drop_while Js.is_space s2 with
        | String a s4 =>
            if Js.is_digit a
            then Some (drop_while Js.is_digit s4, [String a (take_while Js.is_digit s4)])
            else None
        | EmptyString => None
        end
      else None
  | EmptyString => None
  end.

Definition score_here (s : string) : option (string * list string) :=
  if lit_match true "score" s then score_tail (drop 5 s)
  else if lit_match true "rating" s then score_tail (drop 6 s)
  else None.

End ReviewText.

(** The calls of the git operations, as the statements name them. *)

Module GitCalls.

(** The trace once [simpleGit] has been called. *)
Definition opened (cfg : Config) (tr : Eff.trace) : Eff.trace :=
  (tr ++ [Eff.EvSimpleGit (projectRoot cfg)])%list.

(** What [commitChanges] passes to [git.add]: the files when some are
    given, ["."] otherwise. *)
Definition added (files : option (list string)) : list string :=
  match files with
  | Some (f :: fs) => f :: fs
  | _ => ["."]
  end.

End GitCalls.

(** Unfolds the operations of [Eff.M] in a goal that runs a computation. *)
Ltac run_io := unfold Eff.try_catch, Eff.bind, Eff.call, Eff.console, Eff.ret.

(** ** Vocabulary of the further properties *)

Module GateText.

(** Some banned word occurs in the lower-cased text. *)
Definition has_banned_word (text : string) : bool :=
  existsb (fun b => Js.includes b (Js.toLowerCase text)) Moderation.banned.

(** The names of the categories the hosted service marked. *)
Definition true_categories (e : ModerationEntry) : list string :=
  map fst (filter (fun kv => snd kv)
                  (match entry_categories e with Some c => c | None => [] end)).

Definition unflagged : Moderation.ModerationResult :=
  {| Moderation.flagged := false; Moderation.reasons := [] |}.

Definition post_event (text : string) : Eff.event :=
  Eff.EvHttpPost Moderation.moderation_url text.

End GateText.

Module AttachmentCalls.
Import Eff.

(** The temporary path [extractTextFromAttachment] builds when it starts
    from the trace [tr]. *)
Definition tmp_path (w : World) (tr : trace) (att : App.Attachment) : string :=
  path_join w (os_tmpdir w tr)
            (crypto_randomUUID w (tr ++ [EvTmpdir])%list ++ "-"
             ++ Js.or_default (App.name att) "file").

(** The trace once the download has been written to the temporary file. *)
Definition fetched (w : World) (tr : trace) (att : App.Attachment) (url : string) : trace :=
  (tr ++ [EvTmpdir; EvRandomUUID; EvHttpGet url; EvWriteFile (tmp_path w tr att)])%list.

(** The lower-cased name the extension is read from. *)
Definition lower_name (att : App.Attachment) : string :=
  Js.toLowerCase (Js.or_default (App.name att) "").

Definition is_unlink (ev : event) : bool :=
  match ev with EvUnlink _ => true | _ => false end.

Definition is_write (ev : event) : bool :=
  match ev with EvWriteFile _ => true | _ => false end.

End AttachmentCalls.

Module Lines.

(** The text has no line break. *)
Definition no_newline (s : string) : bool :=
  Text.all_chars (fun a => negb (ReviewText.is_newline a)) s.

End Lines.

Module EnvText.

(** The text has no "=". *)
Definition no_equals (s : string) : bool :=
  Text.all_chars (fun a => negb (Ascii.eqb a "=")) s.

End EnvText.

Module CommandText.

(** A character of a command word: a lower-case letter or the space. *)
Definition is_command_char (c : ascii) : bool :=
  Text.is_lower_letter c || Ascii.eqb c " ".

End CommandText.

(** ** Further effects

    The remaining services make calls the first trace has no name for (the
    git log, the glob, the directory listing, the linter, the chat model).
    [Eff2] extends the trace with them: a call of [Eff] is carried as [Old],
    and a computation of [Eff.M] runs inside [Eff2.M] on the [Old] part of the
    history. *)

Module Eff2.
Import Eff.

Inductive call : Type :=
| Old (e : event)
| GitLog (maxCount : option nat)
| Glob (pattern cwd : string)
| ExistsSync (path : string)
| ReaddirSync (path : string)
| NewESLint
| LintFiles (path : string)
| CompleteChat (prompt : string).

Definition trace2 : Type := list call.

Definition M2 (A : Type) : Type := trace2 -> Exn A * trace2.

Definition ret2 {A} (a : A) : M2 A := fun t => (Ok a, t).

Definition bind2 {A B} (m : M2 A) (f : A -> M2 B) : M2 B :=
  fun t =>
    match m t with
    | (Ok a, t') => f a t'
    | (Throw e, t') => (Throw e, t')
    end.

Definition try_catch2 {A} (body : M2 A) (handler : string -> M2 A) : M2 A :=
  fun t =>
    match body t with
    | (Ok a, t') => (Ok a, t')
    | (Throw e, t') => handler e t'
    end.

Definition call2 {A} (c : call) (answer : trace2 -> Exn A) : M2 A :=
  fun t => (answer t, (t ++ [c])%list).

Definition console2 (message : string) : M2 unit :=
  fun t => (Ok tt, (t ++ [Old (EvConsole message)])%list).

(** The calls of the first kind in a history. *)
Fixpoint base (t : trace2) : trace :=
  match t with
  | [] => []
  | Old e :: t' => e :: base t'
  | _ :: t' => base t'
  end.

(** A computation of [Eff.M] inside [M2]: it sees the [Old] part of the
    history, and what it appends is appended as [Old]. *)
Definition lift {A} (m : M A) : M2 A :=
  fun t =>
    let '(r, tr') := m (base t) in
    (r, (t ++ map Old (skipn (List.length (base t)) tr'))%list).

End Eff2.

Notation "x <~ m ;; k" := (Eff2.bind2 m (fun x => k))
  (at level 61, m at next level, right associativity).
Notation "m ~;; k" := (Eff2.bind2 m (fun _ => k))
  (at level 61, right associativity).

(** config.ts, the options of the further services. *)
Record ServiceConfig : Type := {
  azureOpenAIKey : option string;
  azureOpenAIEndpoint : option string;
  azureOpenAIDeploymentName : option string;
  bingSearchApiKey : option string
}.

(** One entry of [data.webPages.value] in the answer of the search API. *)
Record BingPage : Type := {
  bp_name : string;
  bp_url : string;
  bp_snippet : string
}.

(** The body of a chat-completion request. *)
Record ChatRequest : Type := {
  cr_prompt : string;
  cr_max_tokens : N;
  cr_temperature : string
}.

(** simple-git's [LogResult], the fields that are read. *)
Record LogCommit : Type := {
  lc_hash : string;
  lc_message : string;
  lc_author_name : string;
  lc_date : string
}.

Record LogResult : Type := {
  lr_all : list LogCommit;
  lr_latest : option LogCommit
}.

(** One message of a lint result. *)
Record LintMessage : Type := {
  lm_line : N;
  lm_column : N;
  lm_severity : N;
  lm_message : string;
  lm_ruleId : option string
}.

(** What the outside answers to the further calls. *)
Record Services : Type := {
  bing_get : Eff2.trace2 -> string -> string -> Eff.Exn (option (list BingPage));
  chat_post : Eff2.trace2 -> string -> string -> ChatRequest -> Eff.Exn string;
  git_log : Eff2.trace2 -> option nat -> Eff.Exn LogResult;
  glob : Eff2.trace2 -> string -> string -> Eff.Exn (list string);
  fs_existsSync : Eff2.trace2 -> string -> bool;
  fs_readdirSync : Eff2.trace2 -> string -> Eff.Exn (list string);
  new_ESLint : Eff2.trace2 -> Eff.Exn unit;
  eslint_lintFiles : Eff2.trace2 -> string -> Eff.Exn (list (list LintMessage));
  completeChat : Eff2.trace2 -> string -> Eff.Exn string;
  env_TEAMSFX_ENV : option string
}.

(** ** [encodeURIComponent]

    The query of a search may be any JavaScript string, so it is taken as
    its UTF-16 code units (numbers below 65536): a surrogate without its
    partner makes [encodeURIComponent] throw. *)

Module Uri.
Import Eff.

Definition utf16 : Type := list N.

(** The code units of a Latin-1 text. *)
Fixpoint of_string (s : string) : utf16 :=
  match s with
  | EmptyString => []
  | String a s' => Js.code a :: of_string s'
  end.

Definition hex_digit (n : N) : ascii :=
  if (n <? 10)%N then ascii_of_N (48 + n) else ascii_of_N (55 + n).

Definition percent (byte : N) : string :=
  String "%" (String (hex_digit (byte / 16)) (String (hex_digit (byte mod 16)) "")).

(** The characters that are not escaped: letters, digits and [-_.!~*'()]. *)
Definition unreserved (n : N) : bool :=
  Js.between 97 122 n || Js.between 65 90 n || Js.between 48 57 n
  || (n =? 45)%N || (n =? 95)%N || (n =? 46)%N || (n =? 33)%N || (n =? 126)%N
  || (n =? 42)%N || (n =? 39)%N || (n =? 40)%N || (n =? 41)%N.

Definition is_high_surrogate (n : N) : bool := Js.between 55296 56319 n.
Definition is_low_surrogate (n : N) : bool := Js.between 56320 57343 n.

(** A code point as text: itself when unreserved, else the escaped bytes
    of its UTF-8 encoding. *)
Definition encode_point (cp : N) : string :=
  if unreserved cp then String (ascii_of_N cp) ""
  else if (cp <? 128)%N then percent cp
  else if (cp <? 2048)%N then percent (192 + cp / 64) ++ percent (128 + cp mod 64)
  else if (cp <? 65536)%N then
    percent (224 + cp / 4096) ++ percent (128 + (cp / 64) mod 64)
    ++ percent (128 + cp mod 64)
  else
    percent (240 + cp / 262144) ++ percent (128 + (cp / 4096) mod 64)
    ++ percent (128 + (cp / 64) mod 64) ++ percent (128 + cp mod 64).

Definition malformed : string := "URIError: URI malformed".

Fixpoint encodeURIComponent (q : utf16) : Exn string :=
  match q with
  | [] => Ok ""
  | c :: rest =>
      if is_low_surrogate c then Throw malformed
      else if is_high_surrogate c then
        match rest with
        | d :: rest' =>
            if is_low_surrogate d then
              match encodeURIComponent rest' with
              | Ok r => Ok (encode_point (65536 + (c - 55296) * 1024 + (d - 56320)) ++ r)
              | Throw e => Throw e
              end
            else Throw malformed
        | [] => Throw malformed
        end
      else
        match encodeURIComponent rest with
        | Ok r => Ok (encode_point c ++ r)
        | Throw e => Throw e
        end
  end.

(** An integer inside a template literal: its decimal digits, as
    JavaScript prints an integer below 10^21 in absolute value. *)
Definition integer_text (z : Z) : string :=
  if (z <? 0)%Z then "-" ++ Js.Number_toString (Z.to_nat (- z))
  else Js.Number_toString (Z.to_nat z).

(** [xs.slice(0, count)] for an integer [count]: a negative one counts
    from the end. *)
Definition slice_to {A : Type} (count : Z) (xs : list A) : list A :=
  if (0 <=? count)%Z then firstn (Z.to_nat count) xs
  else firstn (List.length xs - Z.to_nat (- count)) xs.

End Uri.

(** ** services/search.ts: the search call *)

Module WebSearch.
Import Eff Eff2 Search.

(** The address, for the escaped query. *)
Definition endpoint (escaped : string) (count : Z) : string :=
  "https://api.bing.microsoft.com/v7.0/search?q=" ++ escaped
  ++ "&count=" ++ Uri.integer_text count.

Definition to_result (v : BingPage) : WebSearchResult :=
  {| title := bp_name v; url := bp_url v; snippet := bp_snippet v |}.

Section WithServices.
Variable scfg : ServiceConfig.
Variable s : Services.

(** [count] is an integer, [3] when the caller gives none.  The address is
    built before the [try]: a query that cannot be escaped is thrown to the
    caller. *)
Definition webSearch (query : Uri.utf16) (count : Z) : M2 (list WebSearchResult) :=
  match bingSearchApiKey scfg with
  | Some (String a k) =>
      let key := String a k in
      match Uri.encodeURIComponent query with
      | Throw e => fun t => (Throw e, t)
      | Ok escaped =>
          try_catch2
            (value <~ call2 (Old (EvHttpGet (endpoint escaped count)))
                            (fun t => bing_get s t (endpoint escaped count) key) ;;
             ret2 (map to_result
                       (Uri.slice_to count (match value with Some l => l | None => [] end))))
            (fun err => console2 "webSearch error" ~;; ret2 [])
      end
  | _ => ret2 []
  end.
End WithServices.

End WebSearch.

(** ** services/projectManager.ts: the commit history *)

Module History.
Import Eff Eff2.

Record CommitInfo : Type := {
  hash : string;
  message : string;
  author : string;
  date : string
}.

Definition to_CommitInfo (c : LogCommit) : CommitInfo :=
  {| hash := substring 0 8 (lc_hash c);
     message := lc_message c;
     author := lc_author_name c;
     date := lc_date c |}.

Section WithServices.
Variable cfg : Config.
Variable w : World.
Variable s : Services.

Definition open_git2 : M2 unit :=
  call2 (Old (EvSimpleGit (projectRoot cfg)))
        (fun t => simpleGit w (base t) (projectRoot cfg)).

(** [count] is [10] when the caller gives none. *)
Definition getCommitHistory (count : nat) : M2 (list CommitInfo) :=
  try_catch2
    (open_git2 ~;;
     log <~ call2 (GitLog (Some count)) (fun t => git_log s t (Some count)) ;;
     ret2 (map to_CommitInfo (lr_all log)))
    (fun e => console2 "Git history failed:" ~;; ret2 []).
End WithServices.

End History.

(** ** services/codeAnalysis.ts: the calls to the chat model and the glob *)

Module Assistant.
Import Eff Eff2 CodeReview.

Definition chat_url (scfg : ServiceConfig) : string :=
  Js.template (azureOpenAIEndpoint scfg) ++ "/openai/deployments/"
  ++ Js.template (azureOpenAIDeploymentName scfg)
  ++ "/chat/completions?api-version=2024-02-15-preview".

Definition review_prompt (code language : string) : string :=
  "Review this " ++ language ++ " code for:" ++ nl
  ++ "- Code quality and best practices" ++ nl
  ++ "- Potential bugs and security issues  " ++ nl
  ++ "- Performance optimizations" ++ nl
  ++ "- Maintainability improvements" ++ nl
  ++ nl
  ++ "Rate 1-10 and provide specific suggestions:" ++ nl
  ++ nl
  ++ "```" ++ language ++ nl
  ++ code ++ nl
  ++ "```".

Definition generate_prompt (requirements language : string) : string :=
  "Generate clean, well-documented " ++ language
  ++ " code for the following requirements:" ++ nl
  ++ nl
  ++ requirements ++ nl
  ++ nl
  ++ "Requirements:" ++ nl
  ++ "- Include proper TypeScript types" ++ nl
  ++ "- Add JSDoc comments" ++ nl
  ++ "- Follow best practices" ++ nl
  ++ "- Include error handling where appropriate" ++ nl
  ++ "- Make it production-ready".

Definition review_unavailable : CodeReviewResult :=
  {| summary := "AI code review unavailable - missing API key";
     suggestions := []; score := Int 5; issues := [] |}.

Definition review_failed : CodeReviewResult :=
  {| summary := "Code review failed";
     suggestions := []; score := Int 5; issues := [] |}.

Section WithServices.
Variable cfg : Config.
Variable scfg : ServiceConfig.
Variable s : Services.

(** [language] is ["typescript"] when the caller gives none. *)
Definition reviewCode (code language : string) : M2 CodeReviewResult :=
  match azureOpenAIKey scfg with
  | Some (String a k) =>
      let key := String a k in
      let prompt := review_prompt code language in
      try_catch2
        (content <~ call2 (Old (EvHttpPost (chat_url scfg) prompt))
                          (fun t => chat_post s t (chat_url scfg) key
                                      {| cr_prompt := prompt; cr_max_tokens := 1000;
                                         cr_temperature := "0.3" |}) ;;
         ret2 (parseCodeReviewResponse content))
        (fun e => console2 "Code review failed:" ~;; ret2 review_failed)
  | _ => ret2 review_unavailable
  end.

Definition generateCode (requirements language : string) : M2 string :=
  match azureOpenAIKey scfg with
  | Some (String a k) =>
      let key := String a k in
      let prompt := generate_prompt requirements language in
      try_catch2
        (call2 (Old (EvHttpPost (chat_url scfg) prompt))
               (fun t => chat_post s t (chat_url scfg) key
                           {| cr_prompt := prompt; cr_max_tokens := 2000;
                              cr_temperature := "0.7" |}))
        (fun e => console2 "Code generation failed:" ~;; ret2 "// Code generation failed")
  | _ => ret2 "// Code generation unavailable - missing API key"
  end.

(** [rootDir] is [config.projectRoot] when the caller gives none. *)
Definition findProjectFiles (pattern rootDir : string) : M2 (list string) :=
  try_catch2
    (call2 (Glob pattern rootDir) (fun t => glob s t pattern rootDir))
    (fun e => console2 "File search failed:" ~;; ret2 []).
End WithServices.

End Assistant.

(** A further outside that answers nothing: every call fails. *)

Module Sample2.
Import Eff.

Definition silent : Services :=
  {| bing_get := fun _ _ _ => Throw "ENETUNREACH";
     chat_post := fun _ _ _ _ => Throw "ENETUNREACH";
     git_log := fun _ _ => Throw "fatal: not a git repository";
     glob := fun _ _ _ => Throw "EACCES";
     fs_existsSync := fun _ _ => false;
     fs_readdirSync := fun _ _ => Throw "ENOENT";
     new_ESLint := fun _ => Throw "Cannot find module";
     eslint_lintFiles := fun _ _ => Throw "No files matching";
     completeChat := fun _ _ => Throw "ENETUNREACH";
     env_TEAMSFX_ENV := None |}.

(** The search, the chat model, the git log and the glob answer with the
    given values; the rest fails. *)
Definition answering (pages : list BingPage) (reply : string) (log : LogResult)
           (files : list string) : Services :=
  {| bing_get := fun _ _ _ => Ok (Some pages);
     chat_post := fun _ _ _ _ => Ok reply;
     git_log := fun _ _ => Ok log;
     glob := fun _ _ _ => Ok files;
     fs_existsSync := fun _ _ => false;
     fs_readdirSync := fun _ _ => Throw "ENOENT";
     new_ESLint := fun _ => Throw "Cannot find module";
     eslint_lintFiles := fun _ _ => Throw "No files matching";
     completeChat := fun _ _ => Ok reply;
     env_TEAMSFX_ENV := None |}.

Definition four_pages : list BingPage :=
  [ {| bp_name := "A"; bp_url := "https://a.example"; bp_snippet := "a" |};
    {| bp_name := "B"; bp_url := "https://b.example"; bp_snippet := "b" |};
    {| bp_name := "C"; bp_url := "https://c.example"; bp_snippet := "c" |};
    {| bp_name := "D"; bp_url := "https://d.example"; bp_snippet := "d" |} ].

Definition two_commits : LogResult :=
  {| lr_all :=
       [ {| lc_hash := "0123456789abcdef0123456789abcdef01234567";
            lc_message := "Add search"; lc_author_name := "Ada";
            lc_date := "2024-05-01" |};
         {| lc_hash := "89abcdef0123456789abcdef0123456789abcdef";
            lc_message := "Initial commit"; lc_author_name := "Ada";
            lc_date := "2024-04-30" |} ];
     lr_latest :=
       Some {| lc_hash := "0123456789abcdef0123456789abcdef01234567";
               lc_message := "Add search"; lc_author_name := "Ada";
               lc_date := "2024-05-01" |} |}.

Definition two_files : StatusResult :=
  {| sr_current := "main";
     sr_files := [ {| fs_path := "a.ts"; fs_index := "M"; fs_working_dir := " " |};
                   {| fs_path := "b.ts"; fs_index := "?"; fs_working_dir := "?" |} ];
     sr_ahead := 1; sr_behind := 0 |}.

(** A working repository: the client opens, reports [st] and every command
    succeeds; nothing else answers. *)
Definition git_ok (st : StatusResult) : World :=
  {| axios_get := fun _ _ => Throw "ENETUNREACH";
     axios_post_moderation := fun _ _ _ => Throw "ENETUNREACH";
     os_tmpdir := fun _ => "/tmp";
     crypto_randomUUID := fun _ => "00000000-0000-4000-8000-000000000000";
     path_join := fun a b => a ++ "/" ++ b;
     fs_writeFileSync := fun _ _ _ => Throw "EACCES";
     fs_readFileSync := fun _ _ => Throw "ENOENT";
     fs_readFileSync_utf8 := fun _ _ => Throw "ENOENT";
     pdfParse := fun _ _ => Throw "InvalidPDFException";
     csvParse := fun _ _ _ => Throw "CsvError";
     simpleGit := fun _ _ => Ok tt;
     git_status := fun _ => Ok st;
     git_add := fun _ _ => Ok tt;
     git_commit := fun _ _ => Ok tt;
     git_checkoutLocalBranch := fun _ _ => Ok tt;
     sendActivity := fun _ _ => Ok tt |}.

(** An env directory with the given listing, and the given value of
    TEAMSFX_ENV; nothing else answers. *)
Definition env_dir (listing : list string) (marker : option string) : Services :=
  {| bing_get := fun _ _ _ => Throw "ENETUNREACH";
     chat_post := fun _ _ _ _ => Throw "ENETUNREACH";
     git_log := fun _ _ => Throw "fatal: not a git repository";
     glob := fun _ _ _ => Throw "EACCES";
     fs_existsSync := fun _ _ => true;
     fs_readdirSync := fun _ _ => Ok listing;
     new_ESLint := fun _ => Throw "Cannot find module";
     eslint_lintFiles := fun _ _ => Throw "No files matching";
     completeChat := fun _ _ => Throw "ENETUNREACH";
     env_TEAMSFX_ENV := marker |}.

(** The glob finds [files] and the linter reports [result] for any file;
    nothing else answers. *)
Definition linting (files : list string) (result : list LintMessage) : Services :=
  {| bing_get := fun _ _ _ => Throw "ENETUNREACH";
     chat_post := fun _ _ _ _ => Throw "ENETUNREACH";
     git_log := fun _ _ => Throw "fatal: not a git repository";
     glob := fun _ _ _ => Ok files;
     fs_existsSync := fun _ _ => false;
     fs_readdirSync := fun _ _ => Throw "ENOENT";
     new_ESLint := fun _ => Ok tt;
     eslint_lintFiles := fun _ _ => Ok [result];
     completeChat := fun _ _ => Throw "ENETUNREACH";
     env_TEAMSFX_ENV := None |}.

Definition two_messages : list LintMessage :=
  [ {| lm_line := 1; lm_column := 7; lm_severity := 2;
       lm_message := "'x' is not defined."; lm_ruleId := Some "no-undef" |};
    {| lm_line := 3; lm_column := 1; lm_severity := 1;
       lm_message := "Unexpected console statement."; lm_ruleId := Some "no-console" |} ].

Definition no_keys : ServiceConfig :=
  {| azureOpenAIKey := None; azureOpenAIEndpoint := None;
     azureOpenAIDeploymentName := None; bingSearchApiKey := None |}.

Definition with_keys : ServiceConfig :=
  {| azureOpenAIKey := Some "azure-key";
     azureOpenAIEndpoint := Some "https://example.openai.azure.com";
     azureOpenAIDeploymentName := Some "gpt";
     bingSearchApiKey := Some "bing-key" |}.

End Sample2.

(** ** services/projectManager.ts: the environments *)

Module Environments.
Import Eff Eff2.

Record Environment : Type := {
  name : string;
  variables : list (string * string);
  active : bool
}.

(** [s.replace(pat, "")] for a string [pat]: its first occurrence is cut
    out. *)
Fixpoint remove_first_lit (pat s : string) : string :=
  if Js.startsWith pat s then Text.drop (length pat) s
  else match s with
       | EmptyString => EmptyString
       | String a s' => String a (remove_first_lit pat s')
       end.

(** [s.split(c)] for a one-character separator. *)
Fixpoint split_char (c : ascii) (s : string) : list string :=
  match s with
  | EmptyString => [EmptyString]
  | String a s' =>
      if Ascii.eqb a c then EmptyString :: split_char c s'
      else match split_char c s' with
           | l :: ls => String a l :: ls
           | [] => [String a EmptyString]
           end
  end.

(** [o[k] = v] on an object literal with string values: an own key keeps its
    place, a new one goes last; "__proto__" falls to the setter of the
    prototype, which drops a string. *)
Fixpoint obj_set (k v : string) (o : list (string * string)) : list (string * string) :=
  match o with
  | [] => [(k, v)]
  | (k', v') :: o' =>
      if String.eqb k k' then (k, v) :: o' else (k', v') :: obj_set k v o'
  end.

Definition assign (k v : string) (o : list (string * string)) : list (string * string) :=
  if String.eqb k "__proto__" then o else obj_set k v o.

Fixpoint lookup (k : string) (o : list (string * string)) : option string :=
  match o with
  | [] => None
  | (k', v') :: o' => if String.eqb k k' then Some v' else lookup k o'
  end.

(** One turn of the loop over the lines.  [line.split('=', 2)] keeps the
    first two pieces; were there only one, [value.trim()] would throw. *)
Definition env_line (vars : list (string * string)) (line : string)
  : Exn (list (string * string)) :=
  if Js.includes "=" line && negb (Js.startsWith "#" line) then
    match firstn 2 (split_char "=" line) with
    | key :: value :: _ => Ok (assign (Js.trim key) (Js.trim value) vars)
    | _ => Throw "TypeError: Cannot read properties of undefined (reading 'trim')"
    end
  else Ok vars.

Fixpoint env_lines (vars : list (string * string)) (lines : list string)
  : Exn (list (string * string)) :=
  match lines with
  | [] => Ok vars
  | line :: rest =>
      match env_line vars line with
      | Ok vars' => env_lines vars' rest
      | Throw e => Throw e
      end
  end.

Section WithServices.
Variable cfg : Config.
Variable w : World.
Variable s : Services.

Definition envDir : string := path_join w (projectRoot cfg) "env".

Definition is_active (name : string) : bool :=
  match env_TEAMSFX_ENV s with
  | Some marker => String.eqb name marker
  | None => false
  end.

(** The body of the loop over the files: the [try] pushes the environment,
    the [catch] logs and pushes nothing. *)
Definition read_environment (file : string) (environments : list Environment)
  : M2 (list Environment) :=
  let name := remove_first_lit ".env." file in
  let filePath := path_join w envDir file in
  try_catch2
    (content <~ call2 (Old (EvReadFile filePath))
                      (fun t => fs_readFileSync_utf8 w (base t) filePath) ;;
     vars <~ (fun t => (env_lines [] (Js.split_lines content), t)) ;;
     ret2 (environments
             ++ [{| name := name; variables := vars; active := is_active name |}])%list)
    (fun e => console2 ("Failed to read " ++ file ++ ":") ~;; ret2 environments).

Fixpoint read_environments (files : list string) (environments : list Environment)
  : M2 (list Environment) :=
  match files with
  | [] => ret2 environments
  | file :: rest =>
      environments' <~ read_environment file environments ;;
      read_environments rest environments'
  end.

(** The outer [catch] returns the array as it is; nothing has been pushed
    when an exception can reach it, since the body of the loop is one
    [try]/[catch]. *)
Definition getEnvironments : M2 (list Environment) :=
  try_catch2
    (present <~ call2 (ExistsSync envDir) (fun t => Ok (fs_existsSync s t envDir)) ;;
     if present then
       listing <~ call2 (ReaddirSync envDir) (fun t => fs_readdirSync s t envDir) ;;
       read_environments (filter (Js.startsWith ".env.") listing) []
     else ret2 [])
    (fun e => console2 "Environment analysis failed:" ~;; ret2 []).
End WithServices.

End Environments.

(** ** Global matching

    [s.match(r)] for a pattern with the [g] flag collects the matches from
    left to right: each search starts where the last match ended, and after an
    empty match one code unit further.  Only the number of matches is
    needed. *)

Module GlobalMatch.
Import Regex.

(** The character before position [n] of [s]. *)
Definition char_before (n : nat) (s : string) : option ascii :=
  match n with
  | 0 => None
  | S n' => String.get n' s
  end.

(** [fuel] bounds the number of searches; [length s + 1] searches are
    always enough, since each one but the last moves on in the text. *)
Fixpoint count_from (fuel : nat) (ignoreCase : bool) (r : regex) (prev : option ascii)
         (s : string) : nat :=
  match fuel with
  | 0 => 0
  | S fuel' =>
      match exec_from ignoreCase r prev s with
      | None => 0
      | Some m =>
          let matched := length s - m_index m - length (m_after m) in
          if Nat.eqb matched 0 then
            match m_after m with
            | EmptyString => 1
            | String a rest => 1 + count_from fuel' ignoreCase r (Some a) rest
            end
          else
            1 + count_from fuel' ignoreCase r
                           (char_before (length s - length (m_after m)) s) (m_after m)
      end
  end.

(** [(s.match(r) || []).length] *)
Definition count_matches (ignoreCase : bool) (r : regex) (s : string) : nat :=
  count_from (S (length s)) ignoreCase r None s.

Fixpoint alternatives (pieces : list string) : regex :=
  match pieces with
  | [] => Eps
  | [p] => lit p
  | p :: ps => Alt (lit p) (alternatives ps)
  end.

(** [new RegExp(source)] for a source whose only special character is "|":
    a disjunction of literals, some of them possibly empty. *)
Definition new_RegExp (source : string) : regex :=
  alternatives (Environments.split_char "|" source).

End GlobalMatch.

(** ** services/codeAnalysis.ts: the metrics *)

Module Analysis.
Import Eff Eff2 Regex GlobalMatch.
Local Open Scope regex_scope.

Definition complexity_keywords : list string :=
  ["if"; "else"; "for"; "while"; "switch"; "catch"; "&&"; "||"].

Definition calculateComplexity (code : string) : nat :=
  fold_left (fun count keyword => count + count_matches false (new_RegExp keyword) code)
            complexity_keywords 1.

(** [/function|=>/g] *)
Definition re_function : regex := lit "function" <|> lit "=>".

Record Issue : Type := {
  line : N;
  column : N;
  severity : string;
  message : string;
  rule : option string
}.

Record Metrics : Type := {
  lines : nat;
  functions : nat;
  complexity : nat
}.

Record CodeAnalysisResult : Type := {
  file : string;
  issues : list Issue;
  metrics : Metrics
}.

Definition to_Issue (msg : LintMessage) : Issue :=
  {| line := lm_line msg;
     column := lm_column msg;
     severity := if (lm_severity msg =? 2)%N then "error" else "warning";
     message := lm_message msg;
     rule := match lm_ruleId msg with
             | Some (String a r) => Some (String a r)
             | _ => None
             end |}.

Section WithServices.
Variable w : World.
Variable s : Services.

(** No [try] here: whatever fails is thrown to the caller.  A lint answer
    without a first result fails when its messages are read, after the file
    has been read. *)
Definition analyzeCode (filePath : string) : M2 CodeAnalysisResult :=
  call2 NewESLint (new_ESLint s) ~;;
  results <~ call2 (LintFiles filePath) (fun t => eslint_lintFiles s t filePath) ;;
  content <~ call2 (Old (EvReadFile filePath))
                   (fun t => fs_readFileSync_utf8 w (base t) filePath) ;;
  let lines := List.length (Js.split_lines content) in
  let functions := count_matches false re_function content in
  let complexity := calculateComplexity content in
  match results with
  | result :: _ =>
      ret2 {| file := filePath;
              issues := map to_Issue result;
              metrics := {| lines := lines; functions := functions;
                            complexity := complexity |} |}
  | [] => fun t => (Throw "TypeError: Cannot read properties of undefined (reading 'messages')", t)
  end.
End WithServices.

End Analysis.

(** ** app.ts: cases of the [switch] on the intent

    Each case is modelled on its own, in the order of its statements. *)


Module Cases.
Import Eff Eff2 Regex.
Local Open Scope regex_scope.

Definition dquote : string := String "034" EmptyString.

(** [/^search\s*/i], [/^analyze\s*/i], [/^commit\s*/i], [/^branch\s*/i] *)
Definition re_search_arg : regex := Bol >> lit "search" >> Star Js.is_space.
Definition re_analyze_arg : regex := Bol >> lit "analyze" >> Star Js.is_space.
Definition re_commit_arg : regex := Bol >> lit "commit" >> Star Js.is_space.
Definition re_branch_arg : regex := Bol >> lit "branch" >> Star Js.is_space.

(** [/^(review code|code review)\s*/i], [/^(generate code|create code)\s*/i] *)
Definition re_review_arg : regex :=
  Bol >> Group (lit "review code" <|> lit "code review") >> Star Js.is_space.
Definition re_generate_arg : regex :=
  Bol >> Group (lit "generate code" <|> lit "create code") >> Star Js.is_space.

(** [text.replace(r, '').trim()] *)
Definition argument (r : regex) (text : string) : string :=
  Js.trim (remove_first true r text).

(** [a || b] on strings. *)
Definition or_else (a b : string) : string :=
  match a with EmptyString => b | _ => a end.

(** A number inside a template literal (the decimal digits; JavaScript
    switches to exponent notation from 10^21 on). *)
Definition Number_text (x : CodeReview.Number) : string :=
  match x with
  | CodeReview.Int n => Js.Number_toString (N.to_nat n)
  | CodeReview.Infinity => "Infinity"
  | CodeReview.NaN => "NaN"
  end.

Section WithServices.
Variable sym : Symbols.
Variable cfg : Config.
Variable scfg : ServiceConfig.
Variable w : World.
Variable s : Services.

(** [context.sendActivity(text)] *)
Definition send (text : string) : M2 unit :=
  lift (Eff.call (EvSendActivity text) (fun tr => sendActivity w tr text)).

Definition case_git_commit (text : string) : M2 unit :=
  let message := or_else (argument re_commit_arg text) "Auto-commit via bot" in
  success <~ lift (ProjectManager.commitChanges cfg w message None) ;;
  send (if success : bool
        then sym_check sym ++ " Committed with message: " ++ dquote ++ message ++ dquote
        else sym_cross sym ++ " Commit failed").

Definition case_git_branch (text : string) : M2 unit :=
  let branchName := argument re_branch_arg text in
  match branchName with
  | EmptyString => send "Please specify branch name."
  | _ =>
      success <~ lift (ProjectManager.createBranch cfg w branchName) ;;
      send (if success : bool
            then sym_check sym ++ " Created and switched to branch: " ++ branchName
            else sym_cross sym ++ " Branch creation failed")
  end.

Definition summary_line (r : Search.WebSearchResult) (i : nat) : string :=
  "[" ++ Js.Number_toString (i + 1) ++ "] " ++ Search.title r ++ ": " ++ Search.snippet r.

Definition summary_prompt (results : list Search.WebSearchResult) : string :=
  "Summarize objectively the following search results and cite them as [n]:" ++ nl
  ++ Js.join nl (Search.map_index summary_line 0 results).

(** The case from the query on.  [completeChat] answers with the [output]
    text of the completion; a completion without one makes [.trim()] throw,
    which is a [Throw] answer here. *)
Definition search_reply (q : Uri.utf16) : M2 unit :=
  results <~ WebSearch.webSearch scfg s q 3 ;;
  match results with
  | [] => send "No web results or search API key missing."
  | _ =>
      output <~ call2 (CompleteChat (summary_prompt results))
                      (fun t => completeChat s t (summary_prompt results)) ;;
      send (Search.formatCitedResponse (Js.trim output) results)
  end.

(** The case on a Latin-1 text. *)
Definition case_search (text : string) : M2 unit :=
  search_reply (Uri.of_string (argument re_search_arg text)).

Definition review_reply (review : CodeReview.CodeReviewResult) : string :=
  sym_magnifier sym ++ " **Code Review (Score: " ++ Number_text (CodeReview.score review)
  ++ "/10)**" ++ nl ++ nl
  ++ CodeReview.summary review ++ nl ++ nl
  ++ "**Suggestions:**" ++ nl
  ++ Js.join nl (map (fun x => sym_bullet sym ++ " " ++ x) (CodeReview.suggestions review))
  ++ nl ++ nl
  ++ "**Issues:**" ++ nl
  ++ Js.join nl (map (fun x => sym_warning sym ++ " " ++ x) (CodeReview.issues review)).

Definition case_code_review (text : string) : M2 unit :=
  let code := argument re_review_arg text in
  match code with
  | EmptyString => send "Please provide code to review after the command."
  | _ =>
      review <~ Assistant.reviewCode scfg s code "typescript" ;;
      send (review_reply review)
  end.

Definition case_code_generate (text : string) : M2 unit :=
  let requirements := argument re_generate_arg text in
  match requirements with
  | EmptyString => send "Please specify requirements for code generation."
  | _ =>
      code <~ Assistant.generateCode scfg s requirements "typescript" ;;
      send (sym_tools sym ++ " **Generated Code:**" ++ nl ++ nl
            ++ "```typescript" ++ nl ++ code ++ nl ++ "```")
  end.

Definition analysis_entry (file : string) (a : Analysis.CodeAnalysisResult) : string :=
  "**" ++ file ++ ":**" ++ nl
  ++ "- " ++ Js.Number_toString (List.length (Analysis.issues a)) ++ " issues" ++ nl
  ++ "- " ++ Js.Number_toString (Analysis.lines (Analysis.metrics a)) ++ " lines, "
  ++ Js.Number_toString (Analysis.functions (Analysis.metrics a)) ++ " functions" ++ nl
  ++ "- Complexity: " ++ Js.Number_toString (Analysis.complexity (Analysis.metrics a)).

Fixpoint analyze_files (files : list string) (results : list string) : M2 (list string) :=
  match files with
  | [] => ret2 results
  | file :: rest =>
      analysis <~ Analysis.analyzeCode w s file ;;
      analyze_files rest (results ++ [analysis_entry file analysis])%list
  end.

Definition case_code_analysis (text : string) : M2 unit :=
  let pattern := or_else (argument re_analyze_arg text) "**/*.ts" in
  files <~ Assistant.findProjectFiles s pattern (projectRoot cfg) ;;
  match files with
  | [] => send "No files found matching pattern."
  | _ =>
      results <~ analyze_files (firstn 3 files) [] ;;
      send (sym_chart sym ++ " **Code Analysis Results:**" ++ nl ++ nl
            ++ Js.join (nl ++ nl) results)
  end.
End WithServices.

End Cases.

Module CaseCalls.
Import Eff Eff2.

Definition is_lint (c : call) : bool :=
  match c with LintFiles _ => true | _ => false end.

Definition is_reply (c : call) : bool :=
  match c with Old (EvSendActivity _) => true | _ => false end.

Definition is_model (c : call) : bool :=
  match c with CompleteChat _ => true | _ => false end.

(** The one reply of a case: what [sendActivity] answers on the history
    [t], and the history with the reply appended. *)
Definition replied (w : World) (t : trace2) (text : string) : Exn unit * trace2 :=
  (sendActivity w (base t) text, (t ++ [Old (EvSendActivity text)])%list).

End CaseCalls.

Module Sample3.

(** Stand-ins for the signs of the replies. *)
Definition signs : Symbols :=
  {| sym_check := "[ok]"; sym_cross := "[x]"; sym_magnifier := "[review]";
     sym_warning := "[!]"; sym_bullet := "*"; sym_tools := "[code]";
     sym_chart := "[chart]"; sym_gear := "[env]"; sym_herb := "[branch]";
     sym_chart_up := "[up]"; sym_chart_down := "[down]"; sym_memo := "[files]";
     sym_floppy := "[save]"; sym_scroll := "[log]" |}.

End Sample3.

(** ** services/projectManager.ts: the source files of the project *)

Module SourceFiles.

(** What the walk meets under a name: something [statSync] reports as not a
    directory, something [statSync] fails on, or a directory with what
    [readdirSync] gives for it ([None] when that fails).  The tree is what the
    disk holds while the walk runs. *)
#[local] Set Warnings "-register-all".
Inductive node : Type :=
| File
| NoStat
| Dir (listing : option (list (string * node))).

Definition extensions : list string :=
  [".ts"; ".js"; ".tsx"; ".jsx"; ".py"; ".java"; ".cs"; ".go"; ".rs"].

Definition is_slash (a : ascii) : bool := Ascii.eqb a "/".

(** The last part of a POSIX path: trailing slashes are passed over, then
    the text back to the slash before. *)
Definition last_part (p : string) : string :=
  Js.rev_string ""
    (Text.take_while (fun a => negb (is_slash a))
       (Text.drop_while is_slash (Js.rev_string "" p))).

(** The text from the last "." of [s] on. *)
Fixpoint from_last_dot (s : string) : option string :=
  match s with
  | EmptyString => None
  | String a s' =>
      match from_last_dot s' with
      | Some r => Some r
      | None => if Ascii.eqb a "." then Some s else None
      end
  end.

(** [path.extname] (POSIX): the text from the last "." of the last part on;
    empty when there is no ".", when the only "." is the first character of
    the part, and for the part "..". *)
Definition extname (p : string) : string :=
  match last_part p with
  | EmptyString => ""
  | String a rest =>
      match from_last_dot rest with
      | Some ext => if Ascii.eqb a "." && String.eqb rest "." then "" else ext
      | None => ""
      end
  end.

(** [xs.includes(x)] *)
Definition array_includes (x : string) (xs : list string) : bool :=
  existsb (String.eqb x) xs.

(** The test at the head of [walkDir]. *)
Definition skipped (currentPath : string) : bool :=
  Js.includes "node_modules" currentPath || Js.includes ".git" currentPath.

Section WithJoin.
(** [path.join] *)
Variable join : string -> string -> string.

(** The files [walkDir currentPath] pushes, in order.  A failing
    [statSync] is caught outside the loop over the items, so it ends the loop
    of its directory. *)
Fixpoint walkDir (currentPath : string) (n : node) : list string :=
  if skipped currentPath then []
  else
    match n with
    | Dir (Some items) =>
        (fix loop (items : list (string * node)) : list string :=
           match items with
           | [] => []
           | (item, child) :: rest =>
               let fullPath := join currentPath item in
               match child with
               | NoStat => []
               | Dir _ => (walkDir fullPath child ++ loop rest)%list
               | File =>
                   if array_includes (extname item) extensions
                   then fullPath :: loop rest
                   else loop rest
               end
           end) items
    | _ => []
    end.

(** [n] is what is found at [dir]. *)
Definition findSourceFiles (dir : string) (n : node) : list string := walkDir dir n.
End WithJoin.

End SourceFiles.

(** ** services/projectManager.ts: the metrics of the project *)

Module Project.
Import Eff Eff2 SourceFiles.

Definition Deps : Type := list (string * string).

Record ProjectMetrics : Type := {
  totalFiles : nat;
  totalLines : nat;
  languages : list (string * nat);
  lastCommit : string;
  contributors : list string;
  dependencies : Deps;
  devDependencies : Deps
}.

(** What [JSON.parse] gives for package.json: [null], on which reading a
    property throws, or a value with its two properties ([None] when one is
    missing or falsy). *)
Inductive PackageJson : Type :=
| PkgNull
| Pkg (deps devDeps : option Deps).

(** The disk while the project is analysed: package.json ([None] when the
    file does not exist, [Throw] when it cannot be read or parsed), the tree
    under the project root, and the text of each file. *)
Record Disk : Type := {
  package_json : option (Exn PackageJson);
  root : node;
  read_utf8 : string -> Exn string
}.

Definition no_metrics : ProjectMetrics :=
  {| totalFiles := 0; totalLines := 0; languages := []; lastCommit := "";
     contributors := []; dependencies := []; devDependencies := [] |}.

(** [Array.from(new Set(xs))]: the first occurrence of each value, in
    order. *)
Fixpoint distinct (seen xs : list string) : list string :=
  match xs with
  | [] => []
  | x :: rest =>
      if array_includes x seen then distinct seen rest
      else x :: distinct (x :: seen) rest
  end.

(** [languages[ext] = (languages[ext] || 0) + 1] *)
Fixpoint count_language (ext : string) (languages : list (string * nat))
  : list (string * nat) :=
  match languages with
  | [] => [(ext, 1)]
  | (k, n) :: rest =>
      if String.eqb k ext then (k, n + 1) :: rest
      else (k, n) :: count_language ext rest
  end.

Definition or_empty (o : option Deps) : Deps :=
  match o with Some d => d | None => [] end.

Section WithServices.
Variable cfg : Config.
Variable w : World.
Variable s : Services.
Variable disk : Disk.

Definition read_package : M2 (Deps * Deps) :=
  match package_json disk with
  | None => ret2 ([], [])
  | Some (Throw e) => fun t => (Throw e, t)
  | Some (Ok PkgNull) =>
      fun t => (Throw "TypeError: Cannot read properties of null (reading 'dependencies')", t)
  | Some (Ok (Pkg deps devDeps)) => ret2 (or_empty deps, or_empty devDeps)
  end.

Definition last_commit_line (log : LogResult) : string :=
  match lr_latest log with
  | Some latest => substring 0 8 (lc_hash latest) ++ " - " ++ lc_message latest
  | None => ""
  end.

(** The inner [try]: what was assigned before a failure stays. *)
Definition git_facts : M2 (string * list string) :=
  try_catch2
    (log <~ call2 (GitLog (Some 1)) (fun t => git_log s t (Some 1)) ;;
     let lastCommit := last_commit_line log in
     try_catch2
       (allLog <~ call2 (GitLog None) (fun t => git_log s t None) ;;
        ret2 (lastCommit, distinct [] (map lc_author_name (lr_all allLog))))
       (fun e => console2 "Git analysis failed:" ~;; ret2 (lastCommit, [])))
    (fun e => console2 "Git analysis failed:" ~;; ret2 ("", [])).

(** The loop over the source files: lines and languages of the files that
    can be read. *)
Fixpoint count_files (files : list string) (totalLines : nat)
         (languages : list (string * nat)) : nat * list (string * nat) :=
  match files with
  | [] => (totalLines, languages)
  | file :: rest =>
      match read_utf8 disk file with
      | Ok content =>
          count_files rest (totalLines + List.length (Js.split_lines content))
                      (count_language (extname file) languages)
      | Throw _ => count_files rest totalLines languages
      end
  end.

Definition analyzeProject : M2 ProjectMetrics :=
  try_catch2
    (deps <~ read_package ;;
     History.open_git2 cfg w ~;;
     facts <~ git_facts ;;
     let sourceFiles := findSourceFiles (path_join w) (projectRoot cfg) (root disk) in
     let counted := count_files sourceFiles 0 [] in
     ret2 {| totalFiles := List.length sourceFiles;
             totalLines := fst counted;
             languages := snd counted;
             lastCommit := fst facts;
             contributors := snd facts;
             dependencies := fst deps;
             devDependencies := snd deps |})
    (fun e => console2 "Project analysis failed:" ~;; ret2 no_metrics).
End WithServices.

End Project.

(** ** app.ts: the git status card *)

Module Cards.
Import ProjectManager.

Record TextBlock : Type := {
  text : string;
  weight : option string;
  size : option string;
  spacing : option string;
  wrap : bool
}.

(** An [Action.Submit] with its [data.command]. *)
Record SubmitAction : Type := {
  title : string;
  command : string
}.

Record AdaptiveCard : Type := {
  version : string;
  body : list TextBlock;
  actions : list SubmitAction;
  schema : string
}.

(** A count inside a template literal. *)
Definition count_text (n : N) : string := Js.Number_toString (N.to_nat n).

Section WithSymbols.
Variable sym : Symbols.

Definition file_block (f : GitFile) : TextBlock :=
  {| text := (if staged f then sym_check sym else sym_warning sym)
             ++ " " ++ path f ++ " (" ++ status f ++ ")";
     weight := None; size := None; spacing := None; wrap := true |}.

Definition buildGitStatusCard (gitStatus : GitStatus) : AdaptiveCard :=
  {| version := "1.5";
     body :=
       ([ {| text := sym_herb sym ++ " Branch: " ++ current gitStatus;
             weight := Some "Bolder"; size := Some "Medium"; spacing := None;
             wrap := false |};
          {| text := sym_chart_up sym ++ " Ahead: " ++ count_text (ahead gitStatus)
                     ++ " | " ++ sym_chart_down sym ++ " Behind: "
                     ++ count_text (behind gitStatus);
             weight := None; size := None; spacing := None; wrap := false |};
          {| text := sym_memo sym ++ " Modified Files:";
             weight := Some "Bolder"; size := None; spacing := Some "Medium";
             wrap := false |} ]
        ++ map file_block (firstn 5 (files gitStatus)))%list;
     actions :=
       [ {| title := sym_floppy sym ++ " Commit All";
            command := "commit Auto-commit via bot" |};
         {| title := sym_herb sym ++ " New Branch";
            command := "branch feature/new-feature" |};
         {| title := sym_scroll sym ++ " History"; command := "git log" |} ];
     schema := "http://adaptivecards.io/schemas/adaptive-card.json" |}.
End WithSymbols.

End Cards.

Module ProjectText.
Import Eff SourceFiles Project.

(** The name has no "/", as the names [readdirSync] lists. *)
Definition no_slash (item : string) : bool :=
  Text.all_chars (fun a => negb (is_slash a)) item.

(** The name counts as a source file. *)
Definition is_source (item : string) : bool := array_includes (extname item) extensions.

(** The files of [files] that can be read. *)
Definition readable (disk : Disk) (files : list string) : list string :=
  filter (fun f => match read_utf8 disk f with Ok _ => true | Throw _ => false end) files.

(** The files counted in [languages], all languages together. *)
Definition total_count (languages : list (string * nat)) : nat :=
  list_sum (map snd languages).

(** The dependencies read from package.json, when that part succeeds. *)
Definition package_deps (disk : Disk) : option (Deps * Deps) :=
  match package_json disk with
  | None => Some ([], [])
  | Some (Ok (Pkg deps devDeps)) => Some (or_empty deps, or_empty devDeps)
  | _ => None
  end.

End ProjectText.

Module Sample4.
Import Eff SourceFiles Project.

(** POSIX [path.join] of a normalized directory and a name. *)
Definition join (a b : string) : string := a ++ "/" ++ b.

(** A project tree: two sources, a hidden ".ts", a workflow under
    ".github", a dependency under "node_modules", a link that cannot be
    followed, and a file listed after it. *)
Definition tree : node :=
  Dir (Some [ ("README.md", File);
              ("index.ts", File);
              (".ts", File);
              (".github", Dir (Some [("ci.js", File)]));
              ("node_modules", Dir (Some [("dep.js", File)]));
              ("src", Dir (Some [("app.d.ts", File); ("App.TS", File); ("lib", Dir None)]));
              ("dangling", NoStat);
              ("late.py", File) ]).

Definition disk : Disk :=
  {| package_json := Some (Ok (Pkg (Some [("axios", "^1.6.0")]) None));
     root := tree;
     read_utf8 := fun f => if String.eqb f "/repo/index.ts"
                           then Ok ("a" ++ nl ++ "b") else Throw "EACCES" |}.

End Sample4.
(** * Properties *)

(** ** Strings *)

Section StringFacts.

Lemma append_nil_r (s : string) : s ++ "" = s.
Proof. induction s as [|a s IH]; simpl; [reflexivity | now rewrite IH]. Qed.

Lemma append_assoc (s t u : string) : (s ++ t) ++ u = s ++ (t ++ u).
Proof. induction s as [|a s IH]; simpl; [reflexivity | now rewrite IH]. Qed.

Lemma length_append (s t : string) : length (s ++ t) = length s + length t.
Proof. induction s as [|a s IH]; simpl; [reflexivity | now rewrite IH]. Qed.

Lemma append_inv_head (s t u : string) : s ++ t = s ++ u -> t = u.
Proof.
  induction s as [|a s IH]; simpl; intros H; [assumption|].
  injection H as H. now apply IH.
Qed.

(** Two prefixes of one text that have the same length are the same. *)
Lemma append_eq_length (s s' t t' : string) :
  s ++ t = s' ++ t' -> length s = length s' -> s = s' /\ t = t'.
Proof.
  revert s'. induction s as [|a s IH]; intros [|a' s']; simpl; intros H L;
    try discriminate.
  - now split.
  - injection H as Ha H. injection L as L.
    destruct (IH _ H L) as [-> ->]. now subst.
Qed.

Lemma startsWith_spec (p s : string) :
  Js.startsWith p s = true <-> exists r, s = p ++ r.
Proof.
  revert s. induction p as [|a p IH]; intros s; simpl.
  - split; [intros _; now exists s | reflexivity].
  - destruct s as [|b s].
    + split; [discriminate | intros [r H]; discriminate].
    + rewrite andb_true_iff, Ascii.eqb_eq, IH. split.
      * intros [-> [r ->]]. now exists r.
      * intros [r H]. injection H as -> ->. split; [reflexivity | now exists r].
Qed.

Lemma includes_spec (w s : string) :
  Js.includes w s = true <-> exists pre post, s = pre ++ w ++ post.
Proof.
  induction s as [|b s IH].
  - simpl. rewrite orb_false_r, startsWith_spec. split.
    + intros [r H]. now exists "", r.
    + intros [[|a pre] [post H]]; [now exists post | discriminate].
  - cbn [Js.includes]. rewrite orb_true_iff, startsWith_spec, IH. split.
    + intros [[r H] | [pre [post H]]].
      * now exists "", r.
      * exists (String b pre), post. simpl. now rewrite H.
    + intros [[|a pre] [post H]].
      * left. now exists post.
      * right. injection H as -> H. now exists pre, post.
Qed.

Lemma toLowerCase_append (s t : string) :
  Js.toLowerCase (s ++ t) = Js.toLowerCase s ++ Js.toLowerCase t.
Proof. induction s as [|a s IH]; simpl; [reflexivity | now rewrite IH]. Qed.

Lemma toLowerCase_length (s : string) : length (Js.toLowerCase s) = length s.
Proof. induction s as [|a s IH]; simpl; [reflexivity | now rewrite IH]. Qed.

Lemma lower_char_idem (a : ascii) : Js.lower_char (Js.lower_char a) = Js.lower_char a.
Proof. destruct a as [[] [] [] [] [] [] [] []]; reflexivity. Qed.

Lemma toLowerCase_idem (s : string) : Js.toLowerCase (Js.toLowerCase s) = Js.toLowerCase s.
Proof.
  induction s as [|a s IH]; simpl; [reflexivity|].
  now rewrite lower_char_idem, IH.
Qed.

(** A lower-cased text splits where the text itself splits. *)
Lemma toLowerCase_split (s u v : string) :
  Js.toLowerCase s = u ++ v ->
  exists s1 s2, s = s1 ++ s2 /\ Js.toLowerCase s1 = u /\ Js.toLowerCase s2 = v.
Proof.
  revert s. induction u as [|a u IH]; intros s H.
  - exists "", s. now repeat split.
  - destruct s as [|b s]; simpl in H; [discriminate|].
    injection H as Ha H. destruct (IH _ H) as (s1 & s2 & -> & H1 & H2).
    exists (String b s1), s2. simpl. now rewrite Ha, H1, H2.
Qed.

Lemma substring_0_length (n : nat) (s : string) :
  length (substring 0 n s) = Nat.min n (length s).
Proof.
  revert s. induction n as [|n IH]; intros [|a s]; simpl; try reflexivity.
  now rewrite IH.
Qed.

Lemma substring_0_all (n : nat) (s : string) :
  length s <= n -> substring 0 n s = s.
Proof.
  revert s. induction n as [|n IH]; intros [|a s]; simpl; intros H;
    try reflexivity; try lia.
  rewrite IH; [reflexivity | lia].
Qed.

Lemma substring_0_prefix (n : nat) (s : string) :
  exists tail, s = substring 0 n s ++ tail.
Proof.
  revert s. induction n as [|n IH]; intros [|a s]; simpl.
  - now exists "".
  - now exists (String a s).
  - now exists "".
  - destruct (IH s) as [tail H]. exists tail. now rewrite <- H.
Qed.

Lemma substring_0_append (s t : string) : substring 0 (length s) (s ++ t) = s.
Proof. induction s as [|a s IH]; simpl; [now destruct t | now rewrite IH]. Qed.

End StringFacts.

(** ** The matcher *)

Section RegexFacts.
Import Regex Text.

Lemma take_drop_while (p : ascii -> bool) (s : string) :
s = take_while p s ++ drop_while p s.
Proof.
induction s as [|a s IH]; simpl; [reflexivity|].
destruct (p a); simpl; [now rewrite <- IH | reflexivity].
Qed.

Lemma take_while_all (p : ascii -> bool) (s : string) :
all_chars p (take_while p s) = true.
Proof.
induction s as [|a s IH]; simpl; [reflexivity|].
destruct (p a) eqn:E; simpl; [now rewrite E | reflexivity].
Qed.

Lemma drop_while_first (p : ascii -> bool) (s : string) :
first_is p (drop_while p s) = false.
Proof.
induction s as [|a s IH]; simpl; [reflexivity|].
destruct (p a) eqn:E; simpl; [assumption | now rewrite E].
Qed.

(** A run of [p]-characters followed by a text that does not go on with one
  is what [take_while] and [drop_while] split off. *)
Lemma span_append (p : ascii -> bool) (u v : string) :
all_chars p u = true -> first_is p v = false ->
take_while p (u ++ v) = u /\ drop_while p (u ++ v) = v.
Proof.
intros Hu Hv. induction u as [|a u IH]; simpl in *.
- destruct v as [|b v]; simpl in *; [now split | now rewrite Hv].
- apply andb_true_iff in Hu as [Ha Hu]. rewrite Ha.
  destruct (IH Hu) as [-> ->]. now split.
Qed.

Lemma drop_append (u v : string) : drop (length u) (u ++ v) = v.
Proof. induction u as [|a u IH]; simpl; [now destruct v | assumption]. Qed.

Lemma last_char_append (prev : option ascii) (u v : string) :
last_char prev (u ++ v) = last_char (last_char prev u) v.
Proof. revert prev. induction u as [|a u IH]; intros prev; simpl; [reflexivity | apply IH]. Qed.

Lemma lit_match_exact (p s : string) : lit_match false p s = Js.startsWith p s.
Proof.
revert s. induction p as [|c p IH]; intros [|a s]; simpl; try reflexivity.
now rewrite IH.
Qed.

(** Under [/i] a lower-case ASCII letter of the pattern matches exactly the
  characters that [toLowerCase] sends to it. *)
Lemma char_match_lower_letter (c a : ascii) :
is_lower_letter c = true ->
char_match true c a = Ascii.eqb c (Js.lower_char a).
Proof.
destruct c as [[] [] [] [] [] [] [] []]; try discriminate; intros _;
  destruct a as [[] [] [] [] [] [] [] []]; reflexivity.
Qed.

Lemma lit_match_ignore_case (p s : string) :
all_chars is_lower_letter p = true ->
lit_match true p s = Js.startsWith p (Js.toLowerCase s).
Proof.
revert s. induction p as [|c p IH]; intros [|a s] H;
  cbn [lit_match Js.startsWith Js.toLowerCase]; try reflexivity.
cbn [all_chars] in H. apply andb_true_iff in H as [Hc Hp].
now rewrite IH, char_match_lower_letter.
Qed.

Section Continuations.
Context {A : Type}.
Implicit Types k : @cont A.

(** A literal either fails or hands over the position after it. *)
Lemma rmatch_lit (ic : bool) (p : string) prev (s : string) caps k :
  rmatch ic (lit p) prev s caps k =
  if lit_match ic p s
  then k (last_char prev (substring 0 (length p) s)) (drop (length p) s) caps
  else None.
Proof.
  revert prev s. induction p as [|c p IH]; intros prev s.
  - simpl. now destruct s.
  - destruct s as [|a s]; simpl; [reflexivity|].
    destruct (char_match ic c a); simpl; [apply IH | reflexivity].
Qed.

(** A continuation that never fails is reached at the end of the longest
    run. *)
Lemma star_loop_total (p : ascii -> bool) prev (s : string) caps k :
  (forall prev' s' caps', k prev' s' caps' <> None) ->
  star_loop p prev s caps k =
  k (last_char prev (take_while p s)) (drop_while p s) caps.
Proof.
  intros Hk. revert prev. induction s as [|a s IH]; intros prev; simpl.
  - reflexivity.
  - destruct (p a); simpl; [|reflexivity].
    rewrite IH. destruct (k _ _ caps) eqn:E; [reflexivity | now apply Hk in E].
Qed.

(** So is a continuation that fails wherever the run could still go on:
    giving back characters of the run never helps. *)
Lemma star_loop_disjoint (p : ascii -> bool) prev (s : string) caps k :
  (forall prev' s' caps', first_is p s' = true -> k prev' s' caps' = None) ->
  star_loop p prev s caps k =
  k (last_char prev (take_while p s)) (drop_while p s) caps.
Proof.
  intros Hk. revert prev. induction s as [|a s IH]; intros prev; simpl.
  - reflexivity.
  - destruct (p a) eqn:E; simpl; [|reflexivity].
    rewrite IH. destruct (k _ (drop_while p s) caps) eqn:E'; [reflexivity|].
    apply Hk. simpl. exact E.
Qed.
End Continuations.

(** *** The search loop *)

Lemma exec_from_None (ic : bool) (r : regex) prev (s : string) :
exec_from ic r prev s = None <->
forall pre post, s = pre ++ post -> match_here ic r (last_char prev pre) post = None.
Proof.
revert prev. induction s as [|a s IH]; intros prev; simpl.
- destruct (match_here ic r prev "") as [[s' caps]|] eqn:E.
  + split; [discriminate|]. intros H. specialize (H "" "" eq_refl). simpl in H. congruence.
  + split; [|reflexivity]. intros _ [|b pre] post H; [|discriminate].
    simpl in H. subst post. exact E.
- destruct (match_here ic r prev (String a s)) as [[s' caps]|] eqn:E.
  + split; [discriminate|]. intros H. specialize (H "" (String a s) eq_refl).
    simpl in H. congruence.
  + destruct (exec_from ic r (Some a) s) as [m|] eqn:E'.
    * split; [discriminate|]. intros H.
      assert (HN : exec_from ic r (Some a) s = None).
      { apply IH. intros pre post Hs. apply (H (String a pre) post). simpl. now rewrite Hs. }
      congruence.
    * split; [|reflexivity]. intros _ [|b pre] post H.
      -- simpl in H. subst post. exact E.
      -- injection H as <- H. simpl. apply (proj1 (IH (Some a)) E' pre post H).
Qed.

(** The match that [exec] reports starts at the first position, from the
  left, where the pattern matches. *)
Lemma exec_from_Some (ic : bool) (r : regex) prev (s : string) (m : match_result) :
exec_from ic r prev s = Some m ->
exists pre post,
  s = pre ++ post /\ length pre = m_index m /\
  match_here ic r (last_char prev pre) post = Some (m_after m, m_groups m) /\
  forall pre' post', s = pre' ++ post' -> length pre' < length pre ->
                     match_here ic r (last_char prev pre') post' = None.
Proof.
revert prev m. induction s as [|a s IH]; intros prev m; simpl.
- destruct (match_here ic r prev "") as [[s' caps]|] eqn:E; [|discriminate].
  intros H. injection H as <-. exists "", "". simpl. repeat split; [exact E|].
  intros pre' post' _ Hl. lia.
- destruct (match_here ic r prev (String a s)) as [[s' caps]|] eqn:E.
  + intros H. injection H as <-. exists "", (String a s). simpl.
    repeat split; [exact E|]. intros pre' post' _ Hl. lia.
  + destruct (exec_from ic r (Some a) s) as [m'|] eqn:E'; [|discriminate].
    intros H. injection H as <-.
    destruct (IH _ _ E') as (pre & post & Hs & Hl & Hm & Hfirst).
    exists (String a pre), post. simpl. repeat split.
    * now rewrite Hs.
    * now rewrite Hl.
    * exact Hm.
    * intros [|b pre'] post' Hs' Hl'.
      -- simpl in Hs'. subst post'. exact E.
      -- injection Hs' as <- Hs'. simpl. apply Hfirst; [exact Hs' | simpl in Hl'; lia].
Qed.

Lemma test_true (ic : bool) (r : regex) (s : string) :
test ic r s = true <->
exists pre post, s = pre ++ post /\ match_here ic r (last_char None pre) post <> None.
Proof.
unfold test, exec. destruct (exec_from ic r None s) as [m|] eqn:E.
- split; [intros _|reflexivity].
  destruct (exec_from_Some _ _ _ _ _ E) as (pre & post & Hs & _ & Hm & _).
  exists pre, post. split; [exact Hs | congruence].
- split; [discriminate|]. intros (pre & post & Hs & Hm).
  exfalso. apply Hm. now apply (proj1 (exec_from_None _ _ _ _) E).
Qed.

End RegexFacts.

(** ** Intent detection *)

Section IntentFacts.
Import Regex Text Intent IntentRules.

Lemma last_char_None (prev : option ascii) (u : string) :
  last_char prev u = None -> u = "" /\ prev = None.
Proof.
  revert prev. induction u as [|a u IH]; intros prev H; simpl in H.
  - now split.
  - destruct (IH _ H) as [_ H']. discriminate.
Qed.

Lemma detectIntent_first_match (text : string) :
  detectIntent text = first_match rules (Js.toLowerCase text).
Proof.
  unfold detectIntent, rules. cbn [first_match].
  repeat match goal with |- context [if ?b then _ else _] => destruct b end;
    reflexivity.
Qed.

(** [/^git status|status/] matches at a position exactly when the text
    there begins with "status", or the position is the start and the text
    begins with "git status". *)
Lemma git_status_here prev (s : string) :
  match_here false re_git_status prev s <> None <->
  (prev = None /\ Js.startsWith "git status" s = true) \/ Js.startsWith "status" s = true.
Proof.
  unfold match_here, re_git_status. cbn [rmatch]. rewrite !rmatch_lit, !lit_match_exact.
  destruct prev as [a|]; destruct (Js.startsWith "git status" s);
    destruct (Js.startsWith "status" s); split; intros H;
    try congruence; try (now left); try (now right);
    try (destruct H as [[H _] | H]; congruence);
    try (destruct H as [[_ H] | H]; discriminate).
Qed.

Lemma test_git_status (t : string) :
  test false re_git_status t = true <-> exists pre post, t = pre ++ "status" ++ post.
Proof.
  rewrite test_true. split.
  - intros (pre & post & Ht & Hm). apply git_status_here in Hm as [[Hp Hs] | Hs].
    + apply last_char_None in Hp as [-> _]. apply startsWith_spec in Hs as [r ->].
      exists "git ", r. exact Ht.
    + apply startsWith_spec in Hs as [r ->]. now exists pre, r.
  - intros (pre & post & ->). exists pre, ("status" ++ post). split; [reflexivity|].
    apply git_status_here. right. apply startsWith_spec. now exists post.
Qed.

End IntentFacts.

Section IntentClaims.
Import Regex Text Intent IntentRules.

(** C2. [detectIntent] is a function of the text alone; it evaluates the
    ordered rule list on the lower-cased text and the first rule that holds
    decides, so texts that differ only in case get the same label.
    "search for card games" is labelled [search]: rule 2 holds of it as well
    and would label it [card], but rule 1 comes first. *)
Theorem detectIntent_ordered_first_match :
  (forall text, detectIntent text = first_match rules (Js.toLowerCase text))
  /\ (forall a b, Js.toLowerCase a = Js.toLowerCase b -> detectIntent a = detectIntent b)
  /\ detectIntent "search for card games" = "search"
  /\ detectIntent "search for card games" <> "card"
  /\ first_match (tl rules) (Js.toLowerCase "search for card games") = "card".
Proof.
  split; [exact detectIntent_first_match|].
  split; [intros a b H; now rewrite !detectIntent_first_match, H|].
  split; [reflexivity|]. split; [discriminate | reflexivity].
Qed.

Lemma detectIntent_ordered_first_match_witness :
  detectIntent "SEARCH for Card games" = detectIntent "search for card games".
Proof.
  exact (proj1 (proj2 detectIntent_ordered_first_match)
               "SEARCH for Card games" "search for card games" eq_refl).
Defined.

(** C3, as stated, fails: "show status" passes rules 1 to 7, is labelled
    [git_status], and starts with neither "git status" nor "status". *)
Lemma git_status_not_only_at_start :
  none_holds rules_1_to_7 (Js.toLowerCase "show status") = true
  /\ detectIntent "show status" = "git_status"
  /\ Js.startsWith "git status" (Js.toLowerCase "show status") = false
  /\ Js.startsWith "status" (Js.toLowerCase "show status") = false.
Proof. repeat split. Qed.

(** C3, amended.  When rules 1 to 7 do not hold, [detectIntent] answers
    [git_status] exactly when the lower-cased text contains "status",
    anywhere. *)
Theorem detectIntent_git_status (text : string) :
  none_holds rules_1_to_7 (Js.toLowerCase text) = true ->
  (detectIntent text = "git_status" <->
   exists pre post, Js.toLowerCase text = pre ++ "status" ++ post).
Proof.
  intros H. rewrite <- test_git_status, detectIntent_first_match.
  unfold none_holds, rules_1_to_7, rules in H. cbn [firstn forallb fst] in H.
  repeat (apply andb_true_iff in H as [?%negb_true_iff H]).
  unfold rules. cbn [first_match].
  repeat match goal with E : ?b = false |- context [if ?b then _ else _] => rewrite E end.
  destruct (test false re_git_status (Js.toLowerCase text)); [now split|].
  split; [|discriminate].
  repeat match goal with |- context [if ?b then _ else _] => destruct b end;
    discriminate.
Qed.

Lemma detectIntent_git_status_witness :
  detectIntent "show status" = "git_status" <->
  exists pre post, Js.toLowerCase "show status" = pre ++ "status" ++ post.
Proof. exact (detectIntent_git_status "show status" eq_refl). Defined.

End IntentClaims.

(** ** Moderation *)

Section ModerationClaims.
Import Eff Moderation.

Lemma filter_nonempty {A : Type} (f : A -> bool) (x : A) (l : list A) :
  In x l -> f x = true -> Nat.eqb (List.length (filter f l)) 0 = false.
Proof.
  intros Hin Hf. assert (H : In x (filter f l)) by (apply filter_In; now split).
  destruct (filter f l); [contradiction | reflexivity].
Qed.

(** C1, as stated, fails: with moderation switched off in the configuration
    a text that contains "bomb" is not flagged. *)
Lemma moderateText_off_passes_keyword :
  In "bomb" banned
  /\ (exists pre post, "hide the BOMB" = pre ++ "BOMB" ++ post)
  /\ Js.toLowerCase "BOMB" = "bomb"
  /\ moderateText Sample.moderation_off Sample.offline "hide the BOMB" []
     = (Ok {| flagged := false; reasons := [] |}, []).
Proof.
  split; [simpl; tauto|]. split; [now exists "hide the ", ""|]. now split.
Qed.

(** C1, amended.  While moderation is enabled, a text with a banned word
    as a substring, in any letter case, is flagged with the single reason
    "keyword", whatever the moderation key and whatever the hosted service
    would answer; no call is made: the trace is returned as it was. *)
Theorem moderateText_keyword (cfg : Config) (w : World) (text : string) (tr : trace) :
  enableModeration cfg = true ->
  (exists b pre u post,
      In b banned /\ text = pre ++ u ++ post /\ Js.toLowerCase u = b) ->
  moderateText cfg w text tr = (Ok {| flagged := true; reasons := ["keyword"] |}, tr).
Proof.
  intros Hon (b & pre & u & post & Hb & -> & Hu).
  unfold moderateText. rewrite Hon. cbn [negb].
  rewrite (filter_nonempty _ b); [reflexivity | exact Hb |].
  apply includes_spec. exists (Js.toLowerCase pre), (Js.toLowerCase post).
  now rewrite !toLowerCase_append, Hu.
Qed.

Lemma moderateText_keyword_witness :
  moderateText Sample.moderation_on Sample.offline "hide the BOMB" []
  = (Ok {| flagged := true; reasons := ["keyword"] |}, []).
Proof.
  apply moderateText_keyword; [reflexivity|].
  exists "bomb", "hide the ", "BOMB", "". repeat split. simpl. tauto.
Defined.

End ModerationClaims.

(** ** Git operations *)

Section GitClaims.
Import Eff ProjectManager GitCalls.

(** C7.  The three operations always return a value, never an exception;
    when opening the client or any client command they issue fails,
    [getGitStatus] returns the [unknown] status and [commitChanges] and
    [createBranch] return [false]. *)
Theorem git_operations_fail_soft (cfg : Config) (w : World) :
  (forall tr, exists v tr', getGitStatus cfg w tr = (Ok v, tr'))
  /\ (forall tr e,
         simpleGit w tr (projectRoot cfg) = Throw e
         \/ git_status w (opened cfg tr) = Throw e ->
         fst (getGitStatus cfg w tr)
         = Ok {| current := "unknown"; files := []; ahead := 0; behind := 0 |})
  /\ (forall message files tr, exists v tr', commitChanges cfg w message files tr = (Ok v, tr'))
  /\ (forall message files tr e,
         simpleGit w tr (projectRoot cfg) = Throw e
         \/ git_add w (opened cfg tr) (added files) = Throw e
         \/ git_commit w (opened cfg tr ++ [EvGitAdd (added files)])%list message = Throw e ->
         fst (commitChanges cfg w message files tr) = Ok false)
  /\ (forall branchName tr, exists v tr', createBranch cfg w branchName tr = (Ok v, tr'))
  /\ (forall branchName tr e,
         simpleGit w tr (projectRoot cfg) = Throw e
         \/ git_checkoutLocalBranch w (opened cfg tr) branchName = Throw e ->
         fst (createBranch cfg w branchName tr) = Ok false).
Proof.
  unfold opened, added.
  repeat split.
  - intros tr. unfold getGitStatus, open_git. run_io.
    destruct (simpleGit w tr _); [|eauto]. destruct (git_status w _); eauto.
  - intros tr e H. unfold getGitStatus, open_git. run_io.
    destruct (simpleGit w tr _) as [[]|]; [|reflexivity].
    destruct H as [H | H]; [discriminate|]. now rewrite H.
  - intros message files tr. unfold commitChanges, open_git. run_io.
    destruct (simpleGit w tr _); [|eauto].
    destruct files as [[|f fs]|]; cbn;
      (destruct (git_add w _ _); [|eauto]); destruct (git_commit w _ _); eauto.
  - intros message files tr e H. unfold commitChanges, open_git. run_io.
    destruct (simpleGit w tr _) as [[]|]; [|reflexivity].
    destruct H as [H | [H | H]]; [discriminate | |].
    + destruct files as [[|f fs]|]; cbn in *; now rewrite H.
    + destruct files as [[|f fs]|]; cbn in *;
        (destruct (git_add w _ _) as [[]|]; [|reflexivity]); now rewrite H.
  - intros branchName tr. unfold createBranch, open_git. run_io.
    destruct (simpleGit w tr _); [|eauto]. destruct (git_checkoutLocalBranch w _ _); eauto.
  - intros branchName tr e H. unfold createBranch, open_git. run_io.
    destruct (simpleGit w tr _) as [[]|]; [|reflexivity].
    destruct H as [H | H]; [discriminate|]. now rewrite H.
Qed.

End GitClaims.

Lemma git_operations_fail_soft_witness :
  fst (ProjectManager.getGitStatus Sample.moderation_on Sample.offline [])
  = Eff.Ok {| ProjectManager.current := "unknown"; ProjectManager.files := [];
              ProjectManager.ahead := 0; ProjectManager.behind := 0 |}
  /\ fst (ProjectManager.commitChanges Sample.moderation_on (Sample.serving "") "wip" None [])
     = Eff.Ok false
  /\ fst (ProjectManager.createBranch Sample.moderation_on (Sample.serving "") "feature/x" [])
     = Eff.Ok false.
Proof.
  pose proof (git_operations_fail_soft Sample.moderation_on Sample.offline)
    as (_ & Hstatus & _).
  pose proof (git_operations_fail_soft Sample.moderation_on (Sample.serving ""))
    as (_ & _ & _ & Hcommit & _ & Hbranch).
  split; [|split].
  - apply (Hstatus [] "Cannot use simple-git on a directory that does not exist").
    left. reflexivity.
  - apply (Hcommit "wip" None [] "fatal: not a git repository"). right. left. reflexivity.
  - apply (Hbranch "feature/x" [] "fatal: a branch with that name already exists").
    right. reflexivity.
Defined.

(** ** Cited answers *)

Section SearchClaims.
Import Search.

Lemma map_index_length {A B : Type} (f : A -> nat -> B) (i : nat) (xs : list A) :
  List.length (map_index f i xs) = List.length xs.
Proof. revert i. induction xs as [|x xs IH]; intros i; simpl; [reflexivity | now rewrite IH]. Qed.

Lemma map_index_nth_error {A B : Type} (f : A -> nat -> B) (i n : nat) (xs : list A) (x : A) :
  nth_error xs n = Some x -> nth_error (map_index f i xs) n = Some (f x (i + n)).
Proof.
  revert i n. induction xs as [|y xs IH]; intros i [|n] H; simpl in *; try discriminate.
  - injection H as ->. now rewrite Nat.add_0_r.
  - rewrite (IH (S i) n H). f_equal. f_equal. lia.
Qed.

(** C8.  Without results the answer comes back unchanged.  Otherwise the
    answer is followed by a blank line, the line "Sources:" and one line per
    result, in the order of the results: line [n], counted from 1, reads
    "[n] title - url". *)
Theorem formatCitedResponse_sources (answer : string) (results : list WebSearchResult) :
  formatCitedResponse answer [] = answer
  /\ (results <> [] ->
      exists lines,
        formatCitedResponse answer results
        = answer ++ nl ++ nl ++ "Sources:" ++ nl ++ Js.join nl lines
        /\ List.length lines = List.length results
        /\ forall i r, nth_error results i = Some r ->
                       nth_error lines i
                       = Some ("[" ++ Js.Number_toString (i + 1) ++ "] "
                                   ++ title r ++ " - " ++ url r)).
Proof.
  split; [reflexivity|]. intros Hne.
  exists (map_index citation 0 results). repeat split.
  - unfold formatCitedResponse. destruct results; [contradiction | reflexivity].
  - apply map_index_length.
  - intros i r H. now rewrite (map_index_nth_error citation 0 i results r H).
Qed.

Lemma formatCitedResponse_sources_witness :
  exists lines,
    formatCitedResponse "TypeScript adds types [1]."
      [ {| title := "TypeScript"; url := "https://www.typescriptlang.org"; snippet := "" |};
        {| title := "Handbook"; url := "https://www.typescriptlang.org/docs"; snippet := "" |} ]
    = "TypeScript adds types [1]." ++ nl ++ nl ++ "Sources:" ++ nl ++ Js.join nl lines
    /\ lines = [ "[1] TypeScript - https://www.typescriptlang.org";
                 "[2] Handbook - https://www.typescriptlang.org/docs" ].
Proof.
  destruct (proj2 (formatCitedResponse_sources "TypeScript adds types [1]."
      [ {| title := "TypeScript"; url := "https://www.typescriptlang.org"; snippet := "" |};
        {| title := "Handbook"; url := "https://www.typescriptlang.org/docs"; snippet := "" |} ])
      ltac:(discriminate)) as (lines & Heq & Hlen & Hnth).
  exists lines. split; [exact Heq|].
  pose proof (Hnth 0 _ eq_refl) as H0. pose proof (Hnth 1 _ eq_refl) as H1.
  destruct lines as [|l0 [|l1 [|l2 lines]]]; try discriminate.
  simpl in H0, H1. injection H0 as ->. injection H1 as ->. reflexivity.
Defined.

End SearchClaims.

(** ** Attachments *)

Section AttachmentFacts.
Import Eff App.

Variable w : World.

Lemma slice0_spec (n : nat) (s : string) :
  length (Js.slice0 n s) <= n
  /\ (n < length s ->
      length (Js.slice0 n s) = n /\ exists tail, s = Js.slice0 n s ++ tail)
  /\ (length s <= n -> Js.slice0 n s = s).
Proof.
  unfold Js.slice0. repeat split.
  - rewrite substring_0_length. apply Nat.le_min_l.
  - rewrite substring_0_length. apply Nat.min_l. now apply Nat.lt_le_incl.
  - apply substring_0_prefix.
  - apply substring_0_all.
Qed.

Lemma error_marker_short : length error_marker <= 4000.
Proof. apply Nat.leb_le. vm_compute. reflexivity. Qed.

(** One turn of the loop never throws and pushes the capped text or the
    marker. *)
Lemma process_one_spec (att : Attachment) (tr : trace) :
  exists out tr',
    process_one w att tr = (Ok out, tr')
    /\ length out <= 4000
    /\ (forall text tr1, extractTextFromAttachment w att tr = (Ok text, tr1) ->
                         out = Js.slice0 4000 text /\ tr' = tr1)
    /\ (forall e tr1, extractTextFromAttachment w att tr = (Throw e, tr1) ->
                      out = error_marker /\ tr' = tr1).
Proof.
  unfold process_one. run_io.
  destruct (extractTextFromAttachment w att tr) as [[text|e] tr1].
  - exists (Js.slice0 4000 text), tr1. repeat split; try congruence.
    apply slice0_spec.
  - exists error_marker, tr1. repeat split; try congruence.
    apply error_marker_short.
Qed.

Lemma extract_without_url (att : Attachment) (tr : trace) :
  Js.truthy (contentUrl att) = false ->
  extractTextFromAttachment w att tr = (Ok "", tr).
Proof.
  unfold extractTextFromAttachment, Js.truthy.
  destruct (contentUrl att) as [[|a u]|]; intros H; try discriminate; reflexivity.
Qed.

(** With a content URL, the text that comes out begins with the name
    line. *)
Lemma extract_with_url (att : Attachment) (tr tr1 : trace) (text : string) :
  Js.truthy (contentUrl att) = true ->
  extractTextFromAttachment w att tr = (Ok text, tr1) ->
  exists content, text = "File: " ++ Js.template (name att) ++ nl ++ content.
Proof.
  unfold extractTextFromAttachment, Js.truthy.
  destruct (contentUrl att) as [[|a u]|]; intros H; try discriminate.
  unfold bind, call, ret, parseCsv.
  destruct (axios_get w _ _); [|discriminate].
  destruct (fs_writeFileSync w _ _ _); [|discriminate].
  repeat match goal with
         | |- context [if ?b then _ else _] => destruct b
         end;
    unfold bind, call, ret;
    repeat match goal with
           | |- context [match ?o with Ok _ => _ | Throw _ => _ end] =>
               destruct o; try discriminate
           end;
    intros E; injection E as <- _; eexists; reflexivity.
Qed.

Lemma process_loop_spec (atts : list Attachment) :
  forall (outputs : list string) (tr : trace),
  exists outs tr',
    process_loop w atts outputs tr = (Ok (outputs ++ outs)%list, tr')
    /\ List.length outs = List.length atts
    /\ Forall (fun o => length o <= 4000) outs
    /\ (forall i att, nth_error atts i = Some att ->
                      Js.truthy (contentUrl att) = false ->
                      nth_error outs i = Some "")
    /\ (forall i att, nth_error atts i = Some att ->
                      exists tr_i out tr_i',
                        process_one w att tr_i = (Ok out, tr_i')
                        /\ nth_error outs i = Some out).
Proof.
  induction atts as [|att rest IH]; intros outputs tr.
  - exists [], tr. simpl. unfold ret. rewrite app_nil_r. repeat split.
    + constructor.
    + intros [|i] att H; discriminate.
    + intros [|i] att H; discriminate.
  - destruct (process_one_spec att tr) as (o & tr1 & Ho & Hlen & Hok & _).
    destruct (IH (outputs ++ [o])%list tr1)
      as (outs & tr' & Hloop & Hl & Hall & Hnth & Hbody).
    exists (o :: outs), tr'. repeat split.
    + cbn [process_loop]. unfold bind at 1. rewrite Ho, Hloop.
      now rewrite <- app_assoc.
    + simpl. now rewrite Hl.
    + now constructor.
    + intros [|i] att' H Hurl; simpl in *.
      * injection H as <-.
        destruct (Hok _ _ (extract_without_url att tr Hurl)) as [-> _]. reflexivity.
      * now apply (Hnth i att').
    + intros [|i] att' H; simpl in *.
      * injection H as <-. now exists tr, o, tr1.
      * now apply (Hbody i att').
Qed.

End AttachmentFacts.

Section AttachmentClaims.
Import Eff App.

(** C4.  Whatever the outside answers, the loop pushes for an attachment a
    text of at most 4000 characters: when the extracted text is longer, its
    first 4000 characters; otherwise the extracted text as it is (which, when
    the attachment has a content URL, is "File: <name>", a line break and the
    content); and the short error marker when the extraction throws.  So
    every output of [processAttachments] is within the cap. *)
Theorem attachment_output_capped (w : World) (att : Attachment) (tr : trace) :
  (exists out tr',
      process_one w att tr = (Ok out, tr')
      /\ length out <= 4000
      /\ (forall text tr1,
             extractTextFromAttachment w att tr = (Ok text, tr1) ->
             (4000 < length text ->
              length out = 4000 /\ exists tail, text = out ++ tail)
             /\ (length text <= 4000 -> out = text)
             /\ (Js.truthy (contentUrl att) = true ->
                 exists content, text = "File: " ++ Js.template (name att) ++ nl ++ content))
      /\ (forall e tr1,
             extractTextFromAttachment w att tr = (Throw e, tr1) -> out = error_marker))
  /\ (forall act tr0, exists outs tr',
         processAttachments w act tr0 = (Ok outs, tr')
         /\ Forall (fun o => length o <= 4000) outs
         /\ forall atts i a,
             attachments act = Some atts -> nth_error atts i = Some a ->
             exists tr_i out tr_i',
               process_one w a tr_i = (Ok out, tr_i') /\ nth_error outs i = Some out).
Proof.
  split.
  - destruct (process_one_spec w att tr) as (out & tr' & Ho & Hlen & Hok & Hthrow).
    exists out, tr'. repeat split; try assumption.
    + destruct (Hok _ _ H) as [-> _]. now apply slice0_spec.
    + destruct (Hok _ _ H) as [-> _]. now apply slice0_spec.
    + destruct (Hok _ _ H) as [-> _]. now apply slice0_spec.
    + intros Hurl. now apply (extract_with_url w att tr tr1).
    + intros e tr1 H. now destruct (Hthrow _ _ H).
  - intros act tr0. unfold processAttachments.
    destruct (process_loop_spec w (match attachments act with Some l => l | None => [] end)
                                [] tr0) as (outs & tr' & Hloop & _ & Hall & _ & Hbody).
    exists outs, tr'. split; [exact Hloop|]. split; [exact Hall|].
    intros atts i a Hatts. rewrite Hatts in Hbody. apply Hbody.
Qed.

End AttachmentClaims.

Lemma attachment_output_capped_witness :
  exists out tr',
    App.process_one (Sample.serving "0123456789")
      {| App.name := Some "notes.txt"; App.contentUrl := Some "https://files.example/notes.txt" |} []
    = (Eff.Ok out, tr')
    /\ out = "File: notes.txt" ++ nl ++ "0123456789".
Proof.
  destruct (proj1 (attachment_output_capped (Sample.serving "0123456789")
      {| App.name := Some "notes.txt"; App.contentUrl := Some "https://files.example/notes.txt" |} []))
    as (out & tr' & Ho & _ & Hok & _).
  exists out, tr'. split; [exact Ho|].
  refine (proj1 (proj2 (Hok _ _ eq_refl)) _).
  apply Nat.leb_le. vm_compute. reflexivity.
Defined.

Section DispatcherClaims.
Import Eff App.

(** C9.  An attachment without a content URL is extracted to the empty
    text, with no call to the outside.  It still takes its place among the
    outputs: when the moderation gate lets the message through, the reply
    counts every attachment of the message in "Processed N file(s)" and joins
    all outputs, the empty one included, with the separator. *)
Theorem absent_contentUrl_counted (sym : Symbols) (cfg : Config) (w : World)
        (att : Attachment) :
  Js.truthy (contentUrl att) = false ->
  (forall tr, extractTextFromAttachment w att tr = (Ok "", tr))
  /\ (forall act atts i tr tr1,
         attachments act = Some atts ->
         nth_error atts i = Some att ->
         ensureNotFlagged sym cfg w (Js.or_default (text act) "") tr = (Ok true, tr1) ->
         exists outs tr2,
           processAttachments w act tr1 = (Ok outs, tr2)
           /\ List.length outs = List.length atts
           /\ nth_error outs i = Some ""
           /\ snd (onMessage sym cfg w act tr)
              = (tr2 ++ [EvSendActivity (attachments_reply outs)])%list
           /\ attachments_reply outs
              = "Processed " ++ Js.Number_toString (List.length atts)
                ++ " file(s). Content snippet(s):" ++ nl ++ nl
                ++ Js.join (nl ++ "---" ++ nl) outs).
Proof.
  intros Hurl. split; [intros tr; now apply extract_without_url|].
  intros act atts i tr tr1 Hatts Hi Hgate.
  destruct (process_loop_spec w atts [] tr1) as (outs & tr2 & Hloop & Hlen & _ & Hnth & _).
  simpl in Hloop.
  assert (Hproc : processAttachments w act tr1 = (Ok outs, tr2)).
  { unfold processAttachments. now rewrite Hatts. }
  exists outs, tr2. repeat split.
  - exact Hproc.
  - exact Hlen.
  - now apply (Hnth i att).
  - unfold onMessage. unfold bind at 1. rewrite Hgate. cbn [negb]. rewrite Hatts.
    destruct atts as [|a0 atts]; [destruct i; discriminate|].
    unfold bind at 1. rewrite Hproc. unfold bind, call, ret.
    now destruct (sendActivity w tr2 _).
  - unfold attachments_reply. now rewrite Hlen.
Qed.

End DispatcherClaims.

Lemma absent_contentUrl_counted_witness :
  snd (App.onMessage Sample3.signs Sample.moderation_off (Sample.serving "0123456789")
         {| App.text := None;
            App.attachments :=
              Some [ {| App.name := Some "notes.txt";
                        App.contentUrl := Some "https://files.example/notes.txt" |};
                     {| App.name := Some "lost.txt"; App.contentUrl := None |} ] |} [])
  = [ Eff.EvTmpdir; Eff.EvRandomUUID; Eff.EvHttpGet "https://files.example/notes.txt";
      Eff.EvWriteFile "/tmp/00000000-0000-4000-8000-000000000000-notes.txt";
      Eff.EvReadFile "/tmp/00000000-0000-4000-8000-000000000000-notes.txt";
      Eff.EvUnlink "/tmp/00000000-0000-4000-8000-000000000000-notes.txt";
      Eff.EvSendActivity
        ("Processed 2 file(s). Content snippet(s):" ++ nl ++ nl
         ++ "File: notes.txt" ++ nl ++ "0123456789" ++ nl ++ "---" ++ nl) ].
Proof.
  destruct (proj2 (absent_contentUrl_counted Sample3.signs Sample.moderation_off (Sample.serving "0123456789")
                     {| App.name := Some "lost.txt"; App.contentUrl := None |} eq_refl)
              {| App.text := None;
                 App.attachments :=
                   Some [ {| App.name := Some "notes.txt";
                             App.contentUrl := Some "https://files.example/notes.txt" |};
                          {| App.name := Some "lost.txt"; App.contentUrl := None |} ] |}
              _ 1 [] [] eq_refl eq_refl eq_refl)
    as (outs & tr2 & Hproc & _ & _ & Hsend & _).
  rewrite Hsend. vm_compute in Hproc. injection Hproc as <- <-. reflexivity.
Defined.

(** ** The review parser: lines and bullets *)

Section ReviewLineFacts.
Import Regex Text CodeReview ReviewText.

Lemma split_lines_head (s : string) :
  exists rest, Js.split_lines s = first_line s :: rest.
Proof.
  unfold first_line, is_newline. induction s as [|a s [rest IH]]; simpl.
  - now exists [].
  - destruct (Ascii.eqb a "010"); simpl.
    + now exists (Js.split_lines s).
    + rewrite IH. now exists rest.
Qed.

(** The first line has no line break and is followed, in the reply, by a
    line break or by nothing. *)
Lemma first_line_spec (s : string) :
  all_chars (fun a => negb (is_newline a)) (first_line s) = true
  /\ (s = first_line s \/ exists tail, s = first_line s ++ nl ++ tail).
Proof.
  split; [apply take_while_all|].
  unfold first_line. induction s as [|a s IH]; simpl.
  - now left.
  - destruct (is_newline a) eqn:E; simpl.
    + right. exists s. unfold is_newline in E. apply Ascii.eqb_eq in E. now subst a.
    + destruct IH as [IH | [tail IH]].
      * left. f_equal. exact IH.
      * right. exists tail. cbn [append]. f_equal. exact IH.
Qed.

(** Anchored at the start, the bullet pattern cannot match further in. *)
Lemma bullet_not_inside (a : ascii) (s : string) :
  exec_from false re_bullet (Some a) s = None.
Proof.
  revert a. induction s as [|b s IH]; intros a; [reflexivity|].
  cbn [exec_from]. unfold match_here, re_bullet. cbn [rmatch]. now rewrite IH.
Qed.

Lemma exec_bullet (line : string) :
  exec false re_bullet line =
  if is_bullet_line line
  then Some {| m_index := 0; m_after := drop 2 line; m_groups := [] |}
  else None.
Proof.
  unfold exec. destruct line as [|b [|c rest]].
  - reflexivity.
  - cbn. now destruct (is_bullet_char b).
  - cbn [exec_from]. unfold match_here, re_bullet. cbn [rmatch is_bullet_line drop].
    destruct (is_bullet_char b); cbn [andb]; [destruct (Js.is_space c)|];
      try reflexivity; now rewrite bullet_not_inside.
Qed.

Lemma classify_line_spec (acc : list string * list string) (line : string) :
  classify_line acc line =
  if is_bullet_line line then
    if mentions_problem line then (fst acc, (snd acc ++ [bullet_item line])%list)
    else ((fst acc ++ [bullet_item line])%list, snd acc)
  else acc.
Proof.
  unfold classify_line, test, remove_first, bullet_item. rewrite exec_bullet.
  destruct (is_bullet_line line); [|reflexivity].
  cbn [m_index m_after]. now replace (substring 0 0 line) with "" by now destruct line.
Qed.

Lemma fold_classify (lines : list string) (acc : list string * list string) :
  fold_left classify_line lines acc =
  ((fst acc ++ map bullet_item
       (filter (fun l => is_bullet_line l && negb (mentions_problem l)) lines))%list,
   (snd acc ++ map bullet_item
       (filter (fun l => is_bullet_line l && mentions_problem l) lines))%list).
Proof.
  revert acc. induction lines as [|l lines IH]; intros [sug iss]; simpl.
  - now rewrite !app_nil_r.
  - rewrite IH, classify_line_spec.
    destruct (is_bullet_line l), (mentions_problem l); simpl;
      now rewrite <- ?app_assoc.
Qed.

Lemma mentions_problem_spec (line : string) :
  mentions_problem line = true <->
  exists pre u post,
    line = pre ++ u ++ post
    /\ (Js.toLowerCase u = "bug" \/ Js.toLowerCase u = "error" \/ Js.toLowerCase u = "issue").
Proof.
  unfold mentions_problem. rewrite !orb_true_iff, !includes_spec. split.
  - intros [[H | H] | H]; destruct H as (p & q & H);
      apply toLowerCase_split in H as (pre & t & -> & _ & H);
      apply toLowerCase_split in H as (u & post & -> & Hu & _);
      exists pre, u, post; tauto.
  - intros (pre & u & post & -> & H). rewrite !toLowerCase_append.
    destruct H as [-> | [-> | ->]]; [left; left | left; right | right]; eauto.
Qed.

End ReviewLineFacts.

Section ReviewLineClaims.
Import Regex Text CodeReview ReviewText.

(** C6, as stated, fails twice.  The summary of a reply whose first line is
    empty is the fixed text, not the first non-empty line; and a line that
    starts with "-" and mentions a bug, but has no white space after the "-",
    is classified as nothing. *)
Lemma summary_and_bullets_counterexample :
  summary (parseCodeReviewResponse (nl ++ "Solid code.")) = "Code reviewed successfully"
  /\ Js.split_lines (nl ++ "Solid code.") = [""; "Solid code."]
  /\ starts_with_bullet "-bug in the loop" = true
  /\ mentions_problem "-bug in the loop" = true
  /\ issues (parseCodeReviewResponse ("Fine." ++ nl ++ "-bug in the loop")) = []
  /\ suggestions (parseCodeReviewResponse ("Fine." ++ nl ++ "-bug in the loop")) = [].
Proof. repeat split. Qed.

(** C6, amended.  The summary is the first line of the reply, the text
    before the first line break, when that line is not empty, and the fixed
    text "Code reviewed successfully" when it is.  The lines that start with
    "-" or "*" followed by a white-space character are the ones classified:
    such a line goes, as its trimmed text after the bullet, to the issues if
    it contains "bug", "error" or "issue" in any letter case, and to the
    suggestions otherwise, in the order of the lines. *)
Theorem review_summary_and_bullets (content : string) :
  let r := parseCodeReviewResponse content in
  let lines := Js.split_lines content in
  summary r = (if String.eqb (first_line content) "" then "Code reviewed successfully"
               else first_line content)
  /\ (exists rest, lines = first_line content :: rest)
  /\ issues r = map bullet_item (filter (fun l => is_bullet_line l && mentions_problem l) lines)
  /\ suggestions r
     = map bullet_item (filter (fun l => is_bullet_line l && negb (mentions_problem l)) lines)
  /\ (forall line,
         mentions_problem line = true <->
         exists pre u post,
           line = pre ++ u ++ post
           /\ (Js.toLowerCase u = "bug" \/ Js.toLowerCase u = "error"
               \/ Js.toLowerCase u = "issue")).
Proof.
  cbv zeta. unfold parseCodeReviewResponse. cbn [summary issues suggestions].
  rewrite fold_classify. cbn [fst snd app].
  destruct (split_lines_head content) as [rest Hl]. rewrite Hl. cbn [nth].
  repeat split.
  - now destruct (first_line content).
  - now exists rest.
  - now apply mentions_problem_spec.
  - now apply mentions_problem_spec.
Qed.


End ReviewLineClaims.

(** ** The review parser: the score *)

Section ScoreFacts.
Import Regex Text CodeReview ReviewText.

Lemma space_not_digit (a : ascii) : Js.is_space a = true -> Js.is_digit a = false.
Proof. destruct a as [[] [] [] [] [] [] [] []]; try discriminate; reflexivity. Qed.

Lemma colon_only (c : ascii) : char_match true ":" c = true -> c = ":"%char.
Proof. destruct c as [[] [] [] [] [] [] [] []]; try discriminate; reflexivity. Qed.

Lemma not_score_and_rating (s : string) :
  lit_match true "score" s = true -> lit_match true "rating" s = false.
Proof.
  destruct s as [|a s]; [discriminate|]. cbn [lit_match].
  intros H. apply andb_true_iff in H as [H _].
  replace (char_match true "r" a) with false; [reflexivity|].
  revert H. destruct a as [[] [] [] [] [] [] [] []]; try discriminate; reflexivity.
Qed.

Lemma captured_run (p : ascii -> bool) (s : string) :
  substring 0 (length s - length (drop_while p s)) s = take_while p s.
Proof.
  rewrite (take_drop_while p s) at 1 3. rewrite length_append, Nat.add_sub.
  apply substring_0_append.
Qed.

Lemma drop_while_length (p : ascii -> bool) (s : string) :
  length (drop_while p s) <= length s.
Proof. rewrite (take_drop_while p s) at 2. rewrite length_append. lia. Qed.

(** [(\d+)] at the end of the pattern takes the longest run of digits. *)
Lemma digits_group prev (s : string) (caps : list string) :
  rmatch true (Group (Plus Js.is_digit)) prev s caps final =
  match s with
  | String a s4 =>
      if Js.is_digit a
      then Some (drop_while Js.is_digit s4, (caps ++ [String a (take_while Js.is_digit s4)])%list)
      else None
  | EmptyString => None
  end.
Proof.
  unfold Plus. cbn [rmatch]. destruct s as [|a s4]; [reflexivity|].
  destruct (Js.is_digit a); [|reflexivity].
  rewrite star_loop_total by discriminate. unfold final.
  pose proof (drop_while_length Js.is_digit s4) as Hle.
  cbn [length]. rewrite Nat.sub_succ_l by exact Hle.
  cbn [substring]. now rewrite captured_run.
Qed.

(** [:\s*(\d+)]: white space is skipped to its end, for where it could go
    on there is no digit. *)
Lemma colon_space_digits prev (s : string) :
  rmatch true (Chr ":") prev s []
         (fun p1 s1 c1 =>
            rmatch true (Star Js.is_space) p1 s1 c1
                   (fun p2 s2 c2 => rmatch true (Group (Plus Js.is_digit)) p2 s2 c2 final))
  = score_tail s.
Proof.
  set (kd := fun p2 s2 c2 => rmatch true (Group (Plus Js.is_digit)) p2 s2 c2 final).
  cbn [rmatch]. unfold score_tail. destruct s as [|c s2]; [reflexivity|].
  destruct (char_match true ":" c); [|reflexivity].
  rewrite star_loop_disjoint.
  - unfold kd. rewrite digits_group. reflexivity.
  - intros prev' s' caps' H. unfold kd. rewrite digits_group.
    destruct s' as [|a s']; [reflexivity|].
    simpl in H. now rewrite (space_not_digit a H).
Qed.

Lemma score_match_here prev (s : string) :
  match_here true re_score prev s = score_here s.
Proof.
  unfold match_here, re_score, score_here.
  change (rmatch true _ prev s [] _)
    with (match rmatch true (lit "score") prev s []
                  (fun p0 s0 c0 =>
                     rmatch true (Chr ":") p0 s0 c0
                       (fun p1 s1 c1 =>
                          rmatch true (Star Js.is_space) p1 s1 c1
                            (fun p2 s2 c2 => rmatch true (Group (Plus Js.is_digit)) p2 s2 c2 final)))
          with
          | Some x => Some x
          | None =>
              rmatch true (lit "rating") prev s []
                (fun p0 s0 c0 =>
                   rmatch true (Chr ":") p0 s0 c0
                     (fun p1 s1 c1 =>
                        rmatch true (Star Js.is_space) p1 s1 c1
                          (fun p2 s2 c2 => rmatch true (Group (Plus Js.is_digit)) p2 s2 c2 final)))
          end).
  rewrite !rmatch_lit, !colon_space_digits.
  destruct (lit_match true "score" s) eqn:E.
  - rewrite (not_score_and_rating s E). cbn [length]. now destruct (score_tail (drop 5 s)).
  - reflexivity.
Qed.

Lemma score_tail_token (ws d rest : string) :
  all_chars Js.is_space ws = true -> d <> "" -> all_chars Js.is_digit d = true ->
  first_is Js.is_digit rest = false ->
  score_tail (":" ++ ws ++ d ++ rest) = Some (rest, [d]).
Proof.
  intros Hws Hd Hdig Hrest. destruct d as [|a d]; [contradiction|].
  cbn [all_chars] in Hdig. apply andb_true_iff in Hdig as [Ha Hdig].
  cbn [append score_tail].
  replace (char_match true ":" ":") with true by reflexivity.
  assert (Hno : first_is Js.is_space (String a (d ++ rest)) = false).
  { cbn [first_is]. destruct (Js.is_space a) eqn:E; [|reflexivity].
    apply space_not_digit in E. congruence. }
  destruct (span_append Js.is_space ws (String a (d ++ rest)) Hws Hno) as [_ ->].
  rewrite Ha. destruct (span_append Js.is_digit d rest Hdig Hrest) as [-> ->].
  reflexivity.
Qed.

Lemma score_tail_Some (s : string) (x : string * list string) :
  score_tail s = Some x ->
  exists ws d rest,
    s = ":" ++ ws ++ d ++ rest
    /\ all_chars Js.is_space ws = true /\ d <> "" /\ all_chars Js.is_digit d = true
    /\ first_is Js.is_digit rest = false /\ x = (rest, [d]).
Proof.
  unfold score_tail. destruct s as [|c s2]; [discriminate|].
  destruct (char_match true ":" c) eqn:Ec; [|discriminate].
  apply colon_only in Ec. subst c.
  destruct (drop_while Js.is_space s2) as [|a s4] eqn:Ed; [discriminate|].
  destruct (Js.is_digit a) eqn:Ea; [|discriminate].
  intros H. injection H as <-.
  exists (take_while Js.is_space s2), (String a (take_while Js.is_digit s4)),
         (drop_while Js.is_digit s4).
  repeat split.
  - cbn [append]. f_equal. rewrite (take_drop_while Js.is_space s2) at 1. rewrite Ed.
    f_equal. cbn [append]. f_equal. apply take_drop_while.
  - apply take_while_all.
  - discriminate.
  - cbn [all_chars]. now rewrite Ea, take_while_all.
  - apply drop_while_first.
Qed.

Lemma keyword_length (kw w : string) : Js.toLowerCase kw = w -> length kw = length w.
Proof. intros <-. now rewrite toLowerCase_length. Qed.

(** A token at the head of a text is what the pattern matches there, and
    its digits are what the group captures. *)
Lemma score_here_token (kw ws d rest : string) :
  score_token kw ws d rest ->
  score_here (kw ++ ":" ++ ws ++ d ++ rest) = Some (rest, [d]).
Proof.
  intros (Hkw & Hws & Hd & Hdig & Hrest). unfold score_here.
  rewrite !lit_match_ignore_case by reflexivity. rewrite toLowerCase_append.
  destruct Hkw as [Hkw | Hkw]; rewrite Hkw; cbn [append Js.startsWith Ascii.eqb Bool.eqb andb].
  - replace 5 with (length kw) by now rewrite (keyword_length kw _ Hkw).
    rewrite drop_append. now apply score_tail_token.
  - replace 6 with (length kw) by now rewrite (keyword_length kw _ Hkw).
    rewrite drop_append. now apply score_tail_token.
Qed.

Lemma keyword_split (w s : string) :
  all_chars is_lower_letter w = true ->
  lit_match true w s = true ->
  exists kw s2, s = kw ++ s2 /\ Js.toLowerCase kw = w /\ drop (length w) s = s2.
Proof.
  intros Hw H. rewrite lit_match_ignore_case in H by exact Hw.
  apply startsWith_spec in H as [r H].
  apply toLowerCase_split in H as (kw & s2 & -> & Hkw & _).
  exists kw, s2. repeat split; [exact Hkw|].
  rewrite <- (keyword_length kw w Hkw). apply drop_append.
Qed.

Lemma score_here_Some (s : string) (x : string * list string) :
  score_here s = Some x ->
  exists kw ws d rest,
    s = kw ++ ":" ++ ws ++ d ++ rest /\ score_token kw ws d rest /\ x = (rest, [d]).
Proof.
  unfold score_here. destruct (lit_match true "score" s) eqn:E1.
  - destruct (keyword_split "score" s eq_refl E1) as (kw & s2 & -> & Hkw & Hdrop).
    cbn [length] in Hdrop. rewrite Hdrop. intros H. apply score_tail_Some in H as (ws & d & rest & -> & Hws & Hd & Hdig & Hrest & ->).
    exists kw, ws, d, rest. unfold score_token. tauto.
  - destruct (lit_match true "rating" s) eqn:E2; [|discriminate].
    destruct (keyword_split "rating" s eq_refl E2) as (kw & s2 & -> & Hkw & Hdrop).
    cbn [length] in Hdrop. rewrite Hdrop. intros H. apply score_tail_Some in H as (ws & d & rest & -> & Hws & Hd & Hdig & Hrest & ->).
    exists kw, ws, d, rest. unfold score_token. tauto.
Qed.

(** [exec] reports the match at a position once the pattern matches there
    and nowhere before. *)
Lemma exec_leftmost (ic : bool) (r : regex) (s pre post after : string) (groups : list string) :
  s = pre ++ post ->
  match_here ic r (last_char None pre) post = Some (after, groups) ->
  (forall pre' post', s = pre' ++ post' -> length pre' < length pre ->
                      match_here ic r (last_char None pre') post' = None) ->
  exec ic r s = Some {| m_index := length pre; m_after := after; m_groups := groups |}.
Proof.
  intros Hs Hm Hbefore. unfold exec. destruct (exec_from ic r None s) as [m|] eqn:E.
  - destruct (exec_from_Some _ _ _ _ _ E) as (pre0 & post0 & Hs0 & Hi & Hm0 & Hfirst).
    destruct (Nat.lt_trichotomy (length pre0) (length pre)) as [Hlt | [Heq | Hgt]].
    + rewrite (Hbefore _ _ Hs0 Hlt) in Hm0. discriminate.
    + rewrite Hs in Hs0. destruct (append_eq_length _ _ _ _ Hs0 (eq_sym Heq)) as [<- <-].
      rewrite Hm in Hm0. injection Hm0 as Ha Hg. destruct m; simpl in *. now subst.
    + rewrite (Hfirst _ _ Hs Hgt) in Hm. discriminate.
  - rewrite (proj1 (exec_from_None _ _ _ _) E _ _ Hs) in Hm. discriminate.
Qed.

Lemma parseInt_digits (d : string) :
  d <> "" -> all_chars Js.is_digit d = true ->
  parseInt d = of_integer (Js.digits_value 0 d).
Proof.
  destruct d as [|a d]; [contradiction|]. intros _ H. cbn [all_chars] in H.
  apply andb_true_iff in H as [Ha _]. unfold parseInt, Js.leading_integer. now rewrite Ha.
Qed.

(** Up to 2^53 the Number is the integer itself. *)
Lemma of_integer_exact (n : N) : (n <= 9007199254740992)%N -> of_integer n = Int n.
Proof.
  intros H. unfold of_integer, Js.nearest_double.
  destruct (N.ltb_spec n 9007199254740992) as [Hlt | Hge]; [reflexivity|].
  assert (n = 9007199254740992%N) as -> by lia. reflexivity.
Qed.

(** *** Decimal numerals *)

Lemma numeral_digits (u : Decimal.uint) :
  all_chars Js.is_digit (NilEmpty.string_of_uint u) = true.
Proof. induction u; simpl; try reflexivity; exact IHu. Qed.

Lemma numeral_value (u : Decimal.uint) (acc : N) :
  N.to_nat (Js.digits_value acc (NilEmpty.string_of_uint u))
  = Nat.of_uint_acc u (N.to_nat acc).
Proof.
  revert acc. induction u; intros acc; cbn [NilEmpty.string_of_uint Nat.of_uint_acc];
    [reflexivity | ..];
    cbn [Js.digits_value];
    match goal with
    | |- context [Js.is_digit ?c] => replace (Js.is_digit c) with true by reflexivity
    end;
    rewrite IHu; f_equal; rewrite Nat.tail_mul_spec;
    match goal with
    | |- context [Js.digit_value ?c] =>
        let v := eval vm_compute in (Js.digit_value c) in
        change (Js.digit_value c) with v
    end; lia.
Qed.

Lemma Number_toString_value (n : nat) :
  Js.Number_toString n <> ""
  /\ all_chars Js.is_digit (Js.Number_toString n) = true
  /\ Js.digits_value 0 (Js.Number_toString n) = N.of_nat n.
Proof.
  unfold Js.Number_toString. repeat split.
  - intros H. assert (Hn : Nat.to_uint n = Decimal.Nil).
    { destruct (Nat.to_uint n); try discriminate; reflexivity. }
    pose proof (DecimalNat.Unsigned.of_to n) as Hof. rewrite Hn in Hof.
    simpl in Hof. subst n. discriminate.
  - apply numeral_digits.
  - apply N2Nat.inj. rewrite numeral_value, Nat2N.id.
    apply (DecimalNat.Unsigned.of_to n).
Qed.

End ScoreFacts.

Section ScoreClaims.
Import Regex Text CodeReview ReviewText.

Lemma score_of_exec (content : string) :
  score (parseCodeReviewResponse content) =
  match exec true re_score content with
  | Some m => parseInt (nth 0 (m_groups m) "")
  | None => Int 5
  end.
Proof. reflexivity. Qed.

Lemma occurrence_matches (content pre kw ws d rest : string) :
  score_occurs content pre kw ws d rest ->
  content = pre ++ (kw ++ ":" ++ ws ++ d ++ rest)
  /\ match_here true re_score (last_char None pre) (kw ++ ":" ++ ws ++ d ++ rest)
     = Some (rest, [d]).
Proof.
  intros [Hc Htok]. split; [exact Hc|].
  rewrite score_match_here. now apply score_here_token.
Qed.

Lemma match_is_occurrence (content pre post : string) (x : string * list string) :
  content = pre ++ post ->
  match_here true re_score (last_char None pre) post = Some x ->
  exists kw ws d rest, score_occurs content pre kw ws d rest /\ x = (rest, [d]).
Proof.
  intros Hc Hm. rewrite score_match_here in Hm.
  apply score_here_Some in Hm as (kw & ws & d & rest & -> & Htok & ->).
  exists kw, ws, d, rest. split; [split; [exact Hc | exact Htok] | reflexivity].
Qed.

(** C5.  The score is read from the leftmost place where the reply has
    "score" or "rating" (in any letter case), a colon, optional white space and
    a run of digits: it is the whole run parsed by [parseInt], with no
    clamping into 1..10.  Up to 2^53 that is the integer the run denotes, as
    it stands; beyond, it is the nearest Number ("Score: 9007199254740993"
    gives 9007199254740992).  Such a place exists as soon as the reply has a
    token anywhere.  A reply without a token gets the default 5.
    "Rating: n" gives n for every n up to 2^53, so "Rating: 97" gives 97 and
    "Rating: 8", also further inside the reply, gives 8. *)
Theorem review_score :
  (forall content pre kw ws d rest,
      score_occurs content pre kw ws d rest ->
      leftmost content pre ->
      score (parseCodeReviewResponse content) = parseInt d
      /\ parseInt d = of_integer (Js.digits_value 0 d)
      /\ ((Js.digits_value 0 d <= 9007199254740992)%N ->
          score (parseCodeReviewResponse content) = Int (Js.digits_value 0 d)))
  /\ (forall content,
         (exists pre kw ws d rest, score_occurs content pre kw ws d rest) ->
         exists pre kw ws d rest,
           score_occurs content pre kw ws d rest /\ leftmost content pre
           /\ score (parseCodeReviewResponse content) = parseInt d)
  /\ (forall content,
         (forall pre kw ws d rest, ~ score_occurs content pre kw ws d rest) ->
         score (parseCodeReviewResponse content) = Int 5)
  /\ (forall n : nat,
         (N.of_nat n <= 9007199254740992)%N ->
         score (parseCodeReviewResponse ("Rating: " ++ Js.Number_toString n))
         = Int (N.of_nat n))
  /\ score (parseCodeReviewResponse "Rating: 97") = Int 97
  /\ score (parseCodeReviewResponse ("Looks good overall." ++ nl ++ "- rename x"
                                      ++ nl ++ "Rating: 8/10")) = Int 8
  /\ score (parseCodeReviewResponse "Looks good overall.") = Int 5
  /\ score (parseCodeReviewResponse "Score: 9007199254740993") = Int 9007199254740992.
Proof.
  assert (Hfirst : forall content pre kw ws d rest,
             score_occurs content pre kw ws d rest -> leftmost content pre ->
             score (parseCodeReviewResponse content) = parseInt d
             /\ parseInt d = of_integer (Js.digits_value 0 d)).
  { intros content pre kw ws d rest Hocc Hleft.
    destruct (occurrence_matches _ _ _ _ _ _ Hocc) as [Hc Hm].
    rewrite score_of_exec.
    rewrite (exec_leftmost true re_score content pre _ rest [d] Hc Hm).
    - cbn [m_groups nth]. destruct Hocc as (_ & _ & _ & Hd & Hdig & _).
      split; [reflexivity | exact (parseInt_digits d Hd Hdig)].
    - intros pre' post' Hc' Hlt.
      destruct (match_here true re_score (last_char None pre') post') as [x|] eqn:E;
        [|reflexivity].
      destruct (match_is_occurrence _ _ _ _ Hc' E) as (kw' & ws' & d' & rest' & Hocc' & _).
      specialize (Hleft _ _ _ _ _ Hocc'). lia. }
  split; [|split; [|split; [|split]]].
  - intros content pre kw ws d rest Hocc Hleft.
    destruct (Hfirst _ _ _ _ _ _ Hocc Hleft) as [Hscore Hparse].
    split; [exact Hscore|]. split; [exact Hparse|].
    intros Hsmall. now rewrite Hscore, Hparse, of_integer_exact.
  - intros content (pre & kw & ws & d & rest & Hocc).
    destruct (occurrence_matches _ _ _ _ _ _ Hocc) as [Hc Hm].
    destruct (exec_from true re_score None content) as [m|] eqn:E.
    + destruct (exec_from_Some _ _ _ _ _ E) as (pre0 & post0 & Hc0 & _ & Hm0 & Hbefore).
      destruct (match_is_occurrence _ _ _ _ Hc0 Hm0) as (kw0 & ws0 & d0 & rest0 & Hocc0 & _).
      assert (Hleft : leftmost content pre0).
      { intros pre' kw' ws' d' rest' Hocc'.
        destruct (occurrence_matches _ _ _ _ _ _ Hocc') as [Hc' Hm'].
        destruct (Nat.le_gt_cases (length pre0) (length pre')) as [Hle | Hlt]; [exact Hle|].
        rewrite (Hbefore _ _ Hc' Hlt) in Hm'. discriminate. }
      exists pre0, kw0, ws0, d0, rest0. split; [exact Hocc0|]. split; [exact Hleft|].
      exact (proj1 (Hfirst _ _ _ _ _ _ Hocc0 Hleft)).
    + rewrite (proj1 (exec_from_None _ _ _ _) E _ _ Hc) in Hm. discriminate.
  - intros content Hnone. rewrite score_of_exec. unfold exec.
    replace (exec_from true re_score None content) with (@None match_result); [reflexivity|].
    symmetry. apply exec_from_None. intros pre post Hc.
    destruct (match_here true re_score (last_char None pre) post) as [x|] eqn:E;
      [|reflexivity].
    destruct (match_is_occurrence _ _ _ _ Hc E) as (kw & ws & d & rest & Hocc & _).
    now destruct (Hnone _ _ _ _ _ Hocc).
  - intros n Hsmall. destruct (Number_toString_value n) as (Hne & Hdig & Hval).
    destruct (Hfirst ("Rating: " ++ Js.Number_toString n) "" "Rating" " "
                     (Js.Number_toString n) "") as [Hscore Hparse].
    + split; [cbn [append]; now rewrite append_nil_r|].
      unfold score_token. repeat split; try assumption. now right.
    + intros pre' kw' ws' d' rest' _. apply Nat.le_0_l.
    + rewrite Hscore, Hparse, Hval. now apply of_integer_exact.
  - split; [reflexivity|]. split; [reflexivity|]. split; [reflexivity|].
    vm_compute. reflexivity.
Qed.

Lemma review_score_witness :
  CodeReview.score (CodeReview.parseCodeReviewResponse "RATING:  97 of 10")
  = CodeReview.Int 97.
Proof.
  refine (proj2 (proj2 (proj1 review_score "RATING:  97 of 10" "" "RATING" "  " "97" " of 10"
                          _ _)) _).
  - split; [reflexivity|]. unfold ReviewText.score_token.
    repeat split; try reflexivity; [now right | discriminate].
  - intros pre' kw' ws' d' rest' _. apply Nat.le_0_l.
  - vm_compute. discriminate.
Defined.

End ScoreClaims.

(** * Further properties *)

(** ** The moderation gate, all paths *)

Section GateFacts.
Import Eff Moderation GateText.

Lemma filter_nonempty_existsb {A : Type} (f : A -> bool) (l : list A) :
  negb (Nat.eqb (List.length (filter f l)) 0) = existsb f l.
Proof.
  induction l as [|x l IH]; [reflexivity|]. simpl.
  destruct (f x); [reflexivity | exact IH].
Qed.

(** [moderateText], path by path. *)
Lemma moderateText_run (cfg : Config) (w : World) (text : string) (tr : trace) :
  moderateText cfg w text tr =
  if negb (enableModeration cfg) then (Ok unflagged, tr)
  else if has_banned_word text
       then (Ok {| flagged := true; reasons := ["keyword"] |}, tr)
       else match openAIModerationApiKey cfg with
            | Some (String a k) =>
                match axios_post_moderation w tr (String a k) text with
                | Ok (Some e) =>
                    if entry_flagged e
                    then (Ok {| flagged := true; reasons := true_categories e |},
                          (tr ++ [post_event text])%list)
                    else (Ok unflagged, (tr ++ [post_event text])%list)
                | Ok None => (Ok unflagged, (tr ++ [post_event text])%list)
                | Throw _ =>
                    (Ok unflagged,
                     (tr ++ [post_event text; EvConsole "Moderation API failed"])%list)
                end
            | _ => (Ok unflagged, tr)
            end.
Proof.
  unfold moderateText, has_banned_word. rewrite filter_nonempty_existsb.
  destruct (enableModeration cfg); cbn [negb]; [|reflexivity].
  destruct (existsb _ banned); [reflexivity|].
  destruct (openAIModerationApiKey cfg) as [[|a k]|]; try reflexivity.
  unfold hosted_check. run_io.
  destruct (axios_post_moderation w tr (String a k) text) as [[e|]|err]; cbn.
  - destruct (entry_flagged e); reflexivity.
  - reflexivity.
  - now rewrite <- app_assoc.
Qed.

End GateFacts.

Section GateProperties.
Import Eff Moderation GateText.

(** X1.  [moderateText] never throws, and it fails open: when the hosted
    check is reached and the request fails, the text passes as unflagged and
    the failure is only logged. *)
Theorem moderateText_fails_open (cfg : Config) (w : World) (text : string) (tr : trace) :
  (exists r tr', moderateText cfg w text tr = (Ok r, tr'))
  /\ (forall key e,
         enableModeration cfg = true ->
         has_banned_word text = false ->
         openAIModerationApiKey cfg = Some key -> key <> "" ->
         axios_post_moderation w tr key text = Throw e ->
         moderateText cfg w text tr
         = (Ok unflagged,
            (tr ++ [post_event text; EvConsole "Moderation API failed"])%list)).
Proof.
  rewrite moderateText_run. split.
  - destruct (enableModeration cfg); cbn [negb]; [|eauto].
    destruct (has_banned_word text); [eauto|].
    destruct (openAIModerationApiKey cfg) as [[|a k]|]; eauto.
    destruct (axios_post_moderation w tr (String a k) text) as [[e|]|err]; eauto.
    destruct (entry_flagged e); eauto.
  - intros key e Hon Hkw Hkey Hne Hpost. rewrite Hon, Hkw, Hkey. cbn [negb].
    destruct key as [|a k]; [contradiction|]. now rewrite Hpost.
Qed.

Lemma moderateText_fails_open_witness :
  moderateText Sample.moderation_on Sample.offline "good morning" []
  = (Ok unflagged, [post_event "good morning"; EvConsole "Moderation API failed"]).
Proof.
  apply (proj2 (moderateText_fails_open Sample.moderation_on Sample.offline "good morning" [])
               "sk-test" "ENETUNREACH"); try reflexivity. discriminate.
Defined.

(** X2.  What flags a text: moderation is enabled and either a banned word
    occurs in it, or no banned word occurs, a key is configured and the
    hosted service answers with a flagged entry.  The reasons are ["keyword"]
    in the first case, the marked categories of the entry in the second, and
    empty when the text is not flagged. *)
Theorem moderateText_flagged_iff (cfg : Config) (w : World) (text : string) (tr tr' : trace)
        (r : ModerationResult) :
  moderateText cfg w text tr = (Ok r, tr') ->
  (flagged r = true <->
   enableModeration cfg = true
   /\ (has_banned_word text = true
       \/ exists key e,
           openAIModerationApiKey cfg = Some key /\ key <> ""
           /\ axios_post_moderation w tr key text = Ok (Some e)
           /\ entry_flagged e = true))
  /\ (flagged r = false -> reasons r = [])
  /\ (flagged r = true -> has_banned_word text = true -> reasons r = ["keyword"])
  /\ (flagged r = true -> has_banned_word text = false ->
      exists key e,
        axios_post_moderation w tr key text = Ok (Some e)
        /\ reasons r = true_categories e).
Proof.
  rewrite moderateText_run.
  destruct (enableModeration cfg); cbn [negb].
  2:{ intros H. injection H as <- _. cbn. repeat split; try discriminate.
      intros [H _]. discriminate. }
  destruct (has_banned_word text).
  { intros H. injection H as <- _. cbn. repeat split; try discriminate; auto. }
  destruct (openAIModerationApiKey cfg) as [[|a k]|].
  1,3: intros H; injection H as <- _; cbn; repeat split; try discriminate;
       intros [_ [H | (key & e & H & Hne & _)]]; try discriminate;
       injection H as <-; contradiction.
  destruct (axios_post_moderation w tr (String a k) text) as [[e|]|err] eqn:Hpost.
  - destruct (entry_flagged e) eqn:He; intros H; injection H as <- _; cbn.
    + repeat split; try discriminate.
      * right. exists (String a k), e. repeat split; try assumption. discriminate.
      * intros _ _. now exists (String a k), e.
    + repeat split; try discriminate.
      intros [_ [H | (key & e' & H & _ & Hp & Hf)]]; [discriminate|].
      injection H as <-. rewrite Hpost in Hp. injection Hp as <-. congruence.
  - intros H; injection H as <- _; cbn. repeat split; try discriminate.
    intros [_ [H | (key & e' & H & _ & Hp & Hf)]]; [discriminate|].
    injection H as <-. rewrite Hpost in Hp. discriminate.
  - intros H; injection H as <- _; cbn. repeat split; try discriminate.
    intros [_ [H | (key & e' & H & _ & Hp & Hf)]]; [discriminate|].
    injection H as <-. rewrite Hpost in Hp. discriminate.
Qed.

Lemma moderateText_flagged_iff_witness :
  flagged {| flagged := true; reasons := ["keyword"] |} = true <->
  enableModeration Sample.moderation_on = true
  /\ (has_banned_word "a Terror plot" = true
      \/ exists key e,
          openAIModerationApiKey Sample.moderation_on = Some key /\ key <> ""
          /\ axios_post_moderation Sample.offline [] key "a Terror plot" = Ok (Some e)
          /\ entry_flagged e = true).
Proof.
  exact (proj1 (moderateText_flagged_iff Sample.moderation_on Sample.offline "a Terror plot"
                  [] [] _ eq_refl)).
Defined.

(** X3.  The text leaves the process at most once, and only when
    moderation is enabled, no banned word occurs in it and a key is
    configured: otherwise the trace comes back unchanged; when the request is
    made it is one POST of the text to the moderation endpoint, followed by
    nothing or by the log line of its failure. *)
Theorem moderateText_calls (cfg : Config) (w : World) (text : string) (tr tr' : trace)
        (r : Exn ModerationResult) :
  moderateText cfg w text tr = (r, tr') ->
  (tr' = tr
   \/ tr' = (tr ++ [post_event text])%list
   \/ tr' = (tr ++ [post_event text; EvConsole "Moderation API failed"])%list)
  /\ (enableModeration cfg = false \/ has_banned_word text = true
      \/ Js.truthy (openAIModerationApiKey cfg) = false -> tr' = tr)
  /\ (tr' <> tr ->
      enableModeration cfg = true /\ has_banned_word text = false
      /\ Js.truthy (openAIModerationApiKey cfg) = true).
Proof.
  rewrite moderateText_run.
  destruct (enableModeration cfg); cbn [negb].
  2:{ intros H. injection H as _ <-. repeat split; auto; contradiction. }
  destruct (has_banned_word text).
  { intros H. injection H as _ <-. repeat split; auto; contradiction. }
  destruct (openAIModerationApiKey cfg) as [[|a k]|]; cbn [Js.truthy].
  1,3: intros H; injection H as _ <-; repeat split; auto; contradiction.
  assert (Hgrow : forall evs : trace, evs <> [] -> (tr ++ evs)%list <> tr).
  { intros evs Hne Heq. apply Hne. apply (app_inv_head tr). now rewrite app_nil_r. }
  destruct (axios_post_moderation w tr (String a k) text) as [[e|]|err];
    [destruct (entry_flagged e)| |]; intros H; injection H as _ <-;
    (split; [auto|]); (split; [|auto]);
    intros [H | [H | H]]; discriminate.
Qed.

Lemma moderateText_calls_witness :
  snd (moderateText Sample.moderation_on (Sample.serving "") "a Terror plot" []) = [].
Proof.
  apply (proj1 (proj2 (moderateText_calls Sample.moderation_on (Sample.serving "")
                         "a Terror plot" [] _ _ eq_refl))).
  right. left. reflexivity.
Defined.

End GateProperties.

(** ** The head of the message hook *)

Section HookProperties.
Import Eff App GateText.

Lemma ensureNotFlagged_run (sym : Symbols) (cfg : Config) (w : World) (text : string)
      (tr tr1 : trace)
      (md : Moderation.ModerationResult) :
  Moderation.moderateText cfg w text tr = (Ok md, tr1) ->
  ensureNotFlagged sym cfg w text tr =
  if Moderation.flagged md
  then (match sendActivity w tr1 (blocked_message sym (Moderation.reasons md)) with
        | Ok _ => Ok false
        | Throw e => Throw e
        end,
        (tr1 ++ [EvSendActivity (blocked_message sym (Moderation.reasons md))])%list)
  else (Ok true, tr1).
Proof.
  intros H. unfold ensureNotFlagged. unfold bind at 1. rewrite H.
  destruct (Moderation.flagged md); [|reflexivity].
  run_io. now destruct (sendActivity w tr1 _).
Qed.

(** X4.  A flagged message ends the turn: the only thing the hook does
    after the moderation check is to send the warning (the warning sign, the
    sentence and the reasons); no attachment is fetched and no intent is acted
    on.  In particular, with moderation enabled, a text with a banned word is
    answered by that one warning and nothing else happens, whatever is
    attached. *)
Theorem onMessage_blocked (sym : Symbols) (cfg : Config) (w : World) (act : Activity)
        (tr : trace) :
  (forall md tr1,
      Moderation.moderateText cfg w (Js.or_default (text act) "") tr = (Ok md, tr1) ->
      Moderation.flagged md = true ->
      onMessage sym cfg w act tr
      = (match sendActivity w tr1 (blocked_message sym (Moderation.reasons md)) with
         | Ok _ => Ok Blocked
         | Throw e => Throw e
         end,
         (tr1 ++ [EvSendActivity (blocked_message sym (Moderation.reasons md))])%list))
  /\ (enableModeration cfg = true ->
      has_banned_word (Js.or_default (text act) "") = true ->
      snd (onMessage sym cfg w act tr)
      = (tr ++ [EvSendActivity
                  (sym_warning sym
                   ++ " Your message was blocked by safety guardrails. Reasons: keyword")])%list).
Proof.
  assert (Hgen : forall md tr1,
             Moderation.moderateText cfg w (Js.or_default (text act) "") tr = (Ok md, tr1) ->
             Moderation.flagged md = true ->
             onMessage sym cfg w act tr
             = (match sendActivity w tr1 (blocked_message sym (Moderation.reasons md)) with
                | Ok _ => Ok Blocked
                | Throw e => Throw e
                end,
                (tr1 ++ [EvSendActivity (blocked_message sym (Moderation.reasons md))])%list)).
  { intros md tr1 Hmod Hflag. unfold onMessage. unfold bind at 1.
    rewrite (ensureNotFlagged_run _ _ _ _ _ _ _ Hmod), Hflag.
    destruct (sendActivity w tr1 _); reflexivity. }
  split; [exact Hgen|].
  intros Hon Hkw.
  rewrite (Hgen {| Moderation.flagged := true; Moderation.reasons := ["keyword"] |} tr).
  - reflexivity.
  - rewrite moderateText_run, Hon, Hkw. reflexivity.
  - reflexivity.
Qed.

Lemma onMessage_blocked_witness :
  snd (onMessage Sample3.signs Sample.moderation_on (Sample.serving "0123456789")
         {| text := Some "How to build a BOMB";
            attachments := Some [ {| name := Some "notes.txt";
                                     contentUrl := Some "https://files.example/notes.txt" |} ] |}
         [])
  = [EvSendActivity "[!] Your message was blocked by safety guardrails. Reasons: keyword"].
Proof.
  apply (proj2 (onMessage_blocked Sample3.signs Sample.moderation_on
                  (Sample.serving "0123456789") _ []));
    reflexivity.
Defined.

(** X5.  Once the gate lets a message through, attachments decide before
    the text does: with at least one attachment the hook extracts them and
    answers with the snippets, whatever the text says, and never reaches the
    intent; with none (the field missing or empty) it sends nothing and hands
    the detected intent of the text to the dispatch. *)
Theorem onMessage_routes (sym : Symbols) (cfg : Config) (w : World) (act : Activity)
        (tr tr1 : trace)
        (md : Moderation.ModerationResult) :
  Moderation.moderateText cfg w (Js.or_default (text act) "") tr = (Ok md, tr1) ->
  Moderation.flagged md = false ->
  (attachments act = None \/ attachments act = Some [] ->
   onMessage sym cfg w act tr
   = (Ok (Dispatch (Intent.detectIntent (Js.or_default (text act) ""))), tr1))
  /\ (forall a rest,
         attachments act = Some (a :: rest) ->
         exists outs tr2,
           processAttachments w act tr1 = (Ok outs, tr2)
           /\ List.length outs = S (List.length rest)
           /\ onMessage sym cfg w act tr
              = (match sendActivity w tr2 (attachments_reply outs) with
                 | Ok _ => Ok AttachmentsAnswered
                 | Throw e => Throw e
                 end,
                 (tr2 ++ [EvSendActivity (attachments_reply outs)])%list)).
Proof.
  intros Hmod Hflag. split.
  - intros Hnone. unfold onMessage. unfold bind at 1.
    rewrite (ensureNotFlagged_run _ _ _ _ _ _ _ Hmod), Hflag. cbn [negb].
    destruct Hnone as [-> | ->]; reflexivity.
  - intros a rest Hatts.
    destruct (process_loop_spec w (a :: rest) [] tr1)
      as (outs & tr2 & Hloop & Hlen & _).
    assert (Hproc : processAttachments w act tr1 = (Ok outs, tr2)).
    { unfold processAttachments. now rewrite Hatts. }
    exists outs, tr2. repeat split; [exact Hproc | exact Hlen |].
    unfold onMessage. unfold bind at 1.
    rewrite (ensureNotFlagged_run _ _ _ _ _ _ _ Hmod), Hflag. cbn [negb]. rewrite Hatts.
    unfold bind at 1. rewrite Hproc. run_io.
    now destruct (sendActivity w tr2 _).
Qed.

Lemma onMessage_routes_witness :
  onMessage Sample3.signs Sample.moderation_off Sample.offline
    {| text := Some "Status please"; attachments := Some [] |} []
  = (Ok (Dispatch "git_status"), []).
Proof.
  exact (proj1 (onMessage_routes Sample3.signs Sample.moderation_off Sample.offline
                  {| text := Some "Status please"; attachments := Some [] |} [] []
                  unflagged eq_refl eq_refl) (or_intror eq_refl)).
Defined.

End HookProperties.

(** ** Attachments: extensions, the temporary file, CSV rows *)

Section ExtractionFacts.
Import Eff App AttachmentCalls.

Variable w : World.

Lemma app_two {A : Type} (l : list A) (x y : A) : ((l ++ [x]) ++ [y] = l ++ [x; y])%list.
Proof. now rewrite <- app_assoc. Qed.

Lemma app_three {A : Type} (l : list A) (x y z : A) :
  (((l ++ [x]) ++ [y]) ++ [z] = l ++ [x; y; z])%list.
Proof. now rewrite <- !app_assoc. Qed.

Lemma app_four {A : Type} (l : list A) (x y z u : A) :
  ((((l ++ [x]) ++ [y]) ++ [z]) ++ [u] = l ++ [x; y; z; u])%list.
Proof. now rewrite <- !app_assoc. Qed.

(** Up to the written file: the four calls every extraction with a content
    URL starts with, when the download and the write succeed. *)
Lemma extract_fetched (att : Attachment) (url : string) (resp : Buffer) (tr : trace) :
  contentUrl att = Some url -> url <> "" ->
  axios_get w (tr ++ [EvTmpdir; EvRandomUUID])%list url = Ok resp ->
  fs_writeFileSync w (tr ++ [EvTmpdir; EvRandomUUID; EvHttpGet url])%list
                   (tmp_path w tr att) resp = Ok tt ->
  extractTextFromAttachment w att tr =
  (content <-
     (if Js.endsWith ".pdf" (lower_name att) then
        buf <- call (EvReadFile (tmp_path w tr att))
                    (fun tr0 => fs_readFileSync w tr0 (tmp_path w tr att)) ;;
        call EvPdfParse (fun tr0 => pdfParse w tr0 buf)
      else if Js.endsWith ".csv" (lower_name att) then
        buf <- call (EvReadFile (tmp_path w tr att))
                    (fun tr0 => fs_readFileSync w tr0 (tmp_path w tr att)) ;;
        parseCsv w buf
      else if Js.endsWith ".txt" (lower_name att) || Js.endsWith ".md" (lower_name att) then
        call (EvReadFile (tmp_path w tr att))
             (fun tr0 => fs_readFileSync_utf8 w tr0 (tmp_path w tr att))
      else ret unsupported_marker) ;;
   call (EvUnlink (tmp_path w tr att)) (fun _ => Ok tt) ;;;
   ret ("File: " ++ Js.template (name att) ++ nl ++ content))
    (fetched w tr att url).
Proof.
  intros Hurl Hne Hget Hwrite.
  unfold extractTextFromAttachment, fetched, lower_name, tmp_path in *. rewrite Hurl.
  destruct url as [|a u]; [contradiction|].
  cbv beta iota delta [bind call].
  rewrite <- ?app_assoc. cbn [app]. rewrite Hget.
  rewrite <- ?app_assoc. cbn [app]. rewrite Hwrite.
  rewrite <- ?app_assoc. cbn [app]. reflexivity.
Qed.

End ExtractionFacts.

Section ExtractionProperties.
Import Eff App AttachmentCalls Lines.

Lemma text_suffix_not_pdf_csv (s : string) :
  Js.endsWith ".txt" s = true \/ Js.endsWith ".md" s = true ->
  Js.endsWith ".pdf" s = false /\ Js.endsWith ".csv" s = false.
Proof.
  unfold Js.endsWith. cbn [Js.rev_string].
  destruct (Js.rev_string "" s) as [|c r]; [intros [H | H]; discriminate|].
  cbn [Js.startsWith]. intros [H | H]; apply andb_true_iff in H as [Hc _];
    apply Ascii.eqb_eq in Hc; subst c; now split.
Qed.

(** X6.  A name with none of the four known suffixes is never parsed: once
    the download is written, the result is the name line followed by the
    unsupported-type marker, and the only further call is the removal of the
    temporary file.  An attachment without a name is such a case and comes
    out as "File: undefined". *)
Theorem extract_unsupported (w : World) (att : Attachment) (url : string) (resp : Buffer)
        (tr : trace) :
  contentUrl att = Some url -> url <> "" ->
  axios_get w (tr ++ [EvTmpdir; EvRandomUUID])%list url = Ok resp ->
  fs_writeFileSync w (tr ++ [EvTmpdir; EvRandomUUID; EvHttpGet url])%list
                   (tmp_path w tr att) resp = Ok tt ->
  (Js.endsWith ".pdf" (lower_name att) = false ->
   Js.endsWith ".csv" (lower_name att) = false ->
   Js.endsWith ".txt" (lower_name att) = false ->
   Js.endsWith ".md" (lower_name att) = false ->
   extractTextFromAttachment w att tr
   = (Ok ("File: " ++ Js.template (name att) ++ nl ++ unsupported_marker),
      (fetched w tr att url ++ [EvUnlink (tmp_path w tr att)])%list))
  /\ (name att = None ->
      extractTextFromAttachment w att tr
      = (Ok ("File: undefined" ++ nl ++ unsupported_marker),
         (fetched w tr att url ++ [EvUnlink (tmp_path w tr att)])%list)).
Proof.
  intros Hurl Hne Hget Hwrite.
  rewrite (extract_fetched w att url resp tr Hurl Hne Hget Hwrite). split.
  - intros -> -> -> ->. reflexivity.
  - intros Hname. unfold lower_name. rewrite Hname. reflexivity.
Qed.

Lemma extract_unsupported_witness :
  fst (extractTextFromAttachment (Sample.serving "0123456789")
         {| name := Some "Report.DOCX"; contentUrl := Some "https://files.example/r" |} [])
  = Ok ("File: Report.DOCX" ++ nl ++ unsupported_marker).
Proof.
  rewrite (proj1 (extract_unsupported (Sample.serving "0123456789")
                    {| name := Some "Report.DOCX"; contentUrl := Some "https://files.example/r" |}
                    "https://files.example/r" [] [] eq_refl ltac:(discriminate) eq_refl eq_refl)
                 eq_refl eq_refl eq_refl eq_refl).
  reflexivity.
Defined.

(** X7.  A name that ends in ".txt" or ".md", in any letter case, is passed
    through: the result is the name line followed by the file's text exactly
    as it was read back, and the temporary file is removed afterwards; when
    reading it back fails the extraction throws. *)
Theorem extract_text_file (w : World) (att : Attachment) (url : string) (resp : Buffer)
        (tr : trace) :
  contentUrl att = Some url -> url <> "" ->
  axios_get w (tr ++ [EvTmpdir; EvRandomUUID])%list url = Ok resp ->
  fs_writeFileSync w (tr ++ [EvTmpdir; EvRandomUUID; EvHttpGet url])%list
                   (tmp_path w tr att) resp = Ok tt ->
  Js.endsWith ".txt" (lower_name att) = true \/ Js.endsWith ".md" (lower_name att) = true ->
  (forall content,
      fs_readFileSync_utf8 w (fetched w tr att url) (tmp_path w tr att) = Ok content ->
      extractTextFromAttachment w att tr
      = (Ok ("File: " ++ Js.template (name att) ++ nl ++ content),
         (fetched w tr att url
          ++ [EvReadFile (tmp_path w tr att); EvUnlink (tmp_path w tr att)])%list))
  /\ (forall e,
         fs_readFileSync_utf8 w (fetched w tr att url) (tmp_path w tr att) = Throw e ->
         extractTextFromAttachment w att tr
         = (Throw e, (fetched w tr att url ++ [EvReadFile (tmp_path w tr att)])%list)).
Proof.
  intros Hurl Hne Hget Hwrite Hext.
  rewrite (extract_fetched w att url resp tr Hurl Hne Hget Hwrite).
  destruct (text_suffix_not_pdf_csv _ Hext) as [-> ->].
  replace (Js.endsWith ".txt" (lower_name att) || Js.endsWith ".md" (lower_name att))
    with true by (destruct Hext as [-> | ->]; [reflexivity | now rewrite orb_true_r]).
  split.
  - intros content Hread. run_io. rewrite Hread. now rewrite <- app_assoc.
  - intros e Hread. run_io. now rewrite Hread.
Qed.

Lemma extract_text_file_witness :
  fst (extractTextFromAttachment (Sample.serving "0123456789")
         {| name := Some "NOTES.TXT"; contentUrl := Some "https://files.example/n" |} [])
  = Ok ("File: NOTES.TXT" ++ nl ++ "0123456789").
Proof.
  rewrite (proj1 (extract_text_file (Sample.serving "0123456789")
                    {| name := Some "NOTES.TXT"; contentUrl := Some "https://files.example/n" |}
                    "https://files.example/n" [] [] eq_refl ltac:(discriminate) eq_refl eq_refl
                    (or_introl eq_refl))
                 "0123456789" eq_refl).
  reflexivity.
Defined.

End ExtractionProperties.

Section TempFile.
Import Eff App AttachmentCalls Lines.

(** X8.  The calls of one extraction extend the trace, and the temporary
    file is removed exactly when the extraction succeeds: a successful
    extraction with a content URL ends with the removal of the very path it
    wrote, and removes nothing before; an extraction that throws never removes
    anything, so a file it has written stays behind; and when the download
    fails no file is written at all.  Without a content URL nothing is
    called. *)
Theorem temp_file_lifecycle (w : World) (att : Attachment) (tr tr' : trace) (r : Exn string) :
  extractTextFromAttachment w att tr = (r, tr') ->
  exists evs,
    tr' = (tr ++ evs)%list
    /\ (Js.truthy (contentUrl att) = false -> evs = [])
    /\ (forall text, r = Ok text -> Js.truthy (contentUrl att) = true ->
                     exists pre,
                       evs = (pre ++ [EvUnlink (tmp_path w tr att)])%list
                       /\ In (EvWriteFile (tmp_path w tr att)) pre
                       /\ existsb is_unlink pre = false)
    /\ (forall e, r = Throw e -> existsb is_unlink evs = false)
    /\ (forall e url,
           contentUrl att = Some url ->
           axios_get w (tr ++ [EvTmpdir; EvRandomUUID])%list url = Throw e ->
           existsb is_write evs = false).
Proof.
  intros H. unfold extractTextFromAttachment in H.
  destruct (contentUrl att) as [[|a u]|] eqn:Hurl.
  1,3: injection H as <- <-; exists []; rewrite app_nil_r;
       repeat split; try discriminate; reflexivity.
  cbv beta iota delta [bind call parseCsv ret] in H. unfold tmp_path.
  repeat match type of H with
         | context [match ?o with Ok _ => _ | Throw _ => _ end] => destruct o eqn:?
         | context [if ?b then _ else _] => destruct b eqn:?
         end;
    injection H as <- <-;
    rewrite <- ?app_assoc in *; cbn [app] in *;
    (eexists; split; [reflexivity|]);
    (split; [discriminate|]);
    (split; [intros ? Ht _; try discriminate;
             match goal with
             | |- exists pre, ?l = _ /\ _ => exists (removelast l)
             end; cbn; repeat split; auto 10
            |]);
    (split; [intros ? Ht; try discriminate; reflexivity|]);
    intros ? ? Hu Hget; injection Hu as <-;
    try congruence; reflexivity.
Qed.

Lemma temp_file_lifecycle_witness :
  exists evs,
    snd (extractTextFromAttachment (Sample.serving "0123456789")
           {| name := Some "notes.txt"; contentUrl := Some "https://files.example/n" |} [])
    = evs
    /\ existsb is_write evs = true
    /\ last evs EvTmpdir
       = EvUnlink "/tmp/00000000-0000-4000-8000-000000000000-notes.txt".
Proof.
  destruct (temp_file_lifecycle (Sample.serving "0123456789")
              {| name := Some "notes.txt"; contentUrl := Some "https://files.example/n" |}
              [] _ _ eq_refl) as (evs & Htr & _ & Hok & _).
  exists evs. split; [exact (Htr)|].
  vm_compute in Htr. rewrite <- Htr. split; reflexivity.
Defined.

End TempFile.

Section CsvRows.
Import Eff App Lines.

Lemma no_newline_append (s t : string) :
  no_newline (s ++ t) = no_newline s && no_newline t.
Proof.
  unfold no_newline. induction s as [|a s IH]; [reflexivity|].
  cbn [append Text.all_chars]. now rewrite IH, andb_assoc.
Qed.

Lemma split_lines_single (s : string) : no_newline s = true -> Js.split_lines s = [s].
Proof.
  unfold no_newline, ReviewText.is_newline. induction s as [|a s IH]; [reflexivity|].
  cbn [Text.all_chars Js.split_lines]. intros H. apply andb_true_iff in H as [Ha Hs].
  apply negb_true_iff in Ha. now rewrite Ha, (IH Hs).
Qed.

Lemma split_lines_line (l rest : string) :
  no_newline l = true -> Js.split_lines (l ++ nl ++ rest) = l :: Js.split_lines rest.
Proof.
  unfold no_newline, ReviewText.is_newline. induction l as [|a l IH]; [reflexivity|].
  cbn [Text.all_chars append Js.split_lines]. intros H.
  apply andb_true_iff in H as [Ha Hl]. apply negb_true_iff in Ha.
  now rewrite Ha, (IH Hl).
Qed.

(** Joining lines and splitting the text gives the lines back. *)
Lemma split_join_lines (ls : list string) :
  ls <> [] -> forallb no_newline ls = true -> Js.split_lines (Js.join nl ls) = ls.
Proof.
  induction ls as [|l ls IH]; [contradiction|]. intros _ H.
  cbn [forallb] in H. apply andb_true_iff in H as [Hl Hls].
  destruct ls as [|l' ls].
  - cbn. now apply split_lines_single.
  - unfold Js.join in *. cbn [concat]. rewrite split_lines_line by exact Hl.
    f_equal. apply IH; [discriminate | exact Hls].
Qed.

Lemma join_no_newline (sep : string) (fields : list string) :
  no_newline sep = true -> forallb no_newline fields = true ->
  no_newline (Js.join sep fields) = true.
Proof.
  intros Hsep. induction fields as [|f fs IH]; [reflexivity|]. intros H.
  cbn [forallb] in H. apply andb_true_iff in H as [Hf Hfs].
  unfold Js.join in *. destruct fs as [|f' fs]; [exact Hf|].
  cbn [concat]. rewrite !no_newline_append, Hf, Hsep. now apply IH.
Qed.

(** X9.  The text made from a CSV keeps the first 50 rows at most, in
    order, each with its fields joined by ", " and the rows joined by line
    breaks; when no field has a line break, splitting the text at line breaks
    gives those rows back, so it has at most 50 lines.  A parse error is
    thrown on. *)
Theorem parseCsv_rows (w : World) (buf : Buffer) (tr : trace) :
  (forall rows,
      csvParse w tr buf 50 = Ok rows ->
      parseCsv w buf tr
      = (Ok (Js.join nl (map (Js.join ", ") (firstn 50 rows))), (tr ++ [EvCsvParse])%list)
      /\ (rows <> [] -> forallb (forallb no_newline) rows = true ->
          Js.split_lines (Js.join nl (map (Js.join ", ") (firstn 50 rows)))
          = map (Js.join ", ") (firstn 50 rows)
          /\ List.length (Js.split_lines (Js.join nl (map (Js.join ", ") (firstn 50 rows))))
             <= 50))
  /\ (forall e,
         csvParse w tr buf 50 = Throw e ->
         parseCsv w buf tr = (Throw e, (tr ++ [EvCsvParse])%list)).
Proof.
  split.
  - intros rows Hparse. split.
    + unfold parseCsv. run_io. rewrite Hparse. now rewrite firstn_map.
    + intros Hne Hclean.
      assert (Hsplit : Js.split_lines (Js.join nl (map (Js.join ", ") (firstn 50 rows)))
                       = map (Js.join ", ") (firstn 50 rows)).
      { apply split_join_lines.
        - destruct rows; [contradiction | discriminate].
        - apply forallb_forall. intros x Hx. apply in_map_iff in Hx as (r & <- & Hr).
          apply join_no_newline; [reflexivity|].
          apply (proj1 (forallb_forall _ rows) Hclean).
          rewrite <- (firstn_skipn 50 rows). apply in_or_app. now left. }
      split; [exact Hsplit|].
      rewrite Hsplit, length_map. apply firstn_le_length.
  - intros e Hparse. unfold parseCsv. run_io. now rewrite Hparse.
Qed.

Lemma parseCsv_rows_witness :
  parseCsv (Sample.serving "id, name") [] []
  = (Ok "id, name", [EvCsvParse]).
Proof.
  exact (proj1 (proj1 (parseCsv_rows (Sample.serving "id, name") [] []) _ eq_refl)).
Defined.

End CsvRows.

(** ** The search call *)

Section SearchCallProperties.
Import Eff Eff2 Search WebSearch.

(** A Latin-1 text has no surrogate, so it can always be escaped. *)
Lemma latin1_escapes (text : string) :
  exists escaped, Uri.encodeURIComponent (Uri.of_string text) = Ok escaped.
Proof.
  induction text as [|a text [escaped IH]]; cbn [Uri.of_string Uri.encodeURIComponent].
  - now exists "".
  - pose proof (N_ascii_bounded a) as Hlt.
    assert (Hlow : Uri.is_low_surrogate (Js.code a) = false).
    { unfold Uri.is_low_surrogate, Js.between, Js.code.
      apply andb_false_iff. left. apply N.leb_gt. lia. }
    assert (Hhigh : Uri.is_high_surrogate (Js.code a) = false).
    { unfold Uri.is_high_surrogate, Js.between, Js.code.
      apply andb_false_iff. left. apply N.leb_gt. lia. }
    rewrite Hlow, Hhigh, IH. eauto.
Qed.

Lemma slice_to_length {A : Type} (count : Z) (xs : list A) :
  List.length (Uri.slice_to count xs) <= List.length xs
  /\ ((0 <= count)%Z ->
      List.length (Uri.slice_to count xs) = Nat.min (Z.to_nat count) (List.length xs))
  /\ ((count < 0)%Z ->
      List.length (Uri.slice_to count xs) = List.length xs - Z.to_nat (- count)).
Proof.
  unfold Uri.slice_to. destruct (Z.leb_spec 0 count) as [Hle | Hlt];
    rewrite length_firstn; repeat split; intros; lia.
Qed.

Lemma slice_to_nth {A : Type} (count : Z) (xs : list A) (i : nat) (x : A) :
  nth_error (Uri.slice_to count xs) i = Some x -> nth_error xs i = Some x.
Proof.
  unfold Uri.slice_to. destruct (0 <=? count)%Z; intros H.
  - rewrite <- (firstn_skipn (Z.to_nat count) xs).
    rewrite nth_error_app1; [exact H|]. apply nth_error_Some. congruence.
  - rewrite <- (firstn_skipn (List.length xs - Z.to_nat (- count)) xs).
    rewrite nth_error_app1; [exact H|]. apply nth_error_Some. congruence.
Qed.

(** X10.  [webSearch] throws in one case only: with a search key and a
    query that cannot be escaped (a surrogate without its partner), the
    [URIError] of [encodeURIComponent] reaches the caller before anything is
    called.  Otherwise it degrades to the empty list: without a search key it
    answers [[]] and calls nothing, whatever the query; with a query that can
    be escaped (every Latin-1 text can) it always answers, and when the
    request fails it logs the error and answers [[]]. *)
Theorem webSearch_degrades (scfg : ServiceConfig) (s : Services) (query : Uri.utf16)
        (count : Z) (t : trace2) :
  (Js.truthy (bingSearchApiKey scfg) = false ->
   webSearch scfg s query count t = (Ok [], t))
  /\ (forall key e,
         bingSearchApiKey scfg = Some key -> key <> "" ->
         Uri.encodeURIComponent query = Throw e ->
         webSearch scfg s query count t = (Throw e, t))
  /\ (forall escaped,
         Uri.encodeURIComponent query = Ok escaped ->
         exists results t', webSearch scfg s query count t = (Ok results, t'))
  /\ (forall key escaped e,
         bingSearchApiKey scfg = Some key -> key <> "" ->
         Uri.encodeURIComponent query = Ok escaped ->
         (Z.abs count < 1000000000000000000000)%Z ->
         bing_get s t (endpoint escaped count) key = Throw e ->
         webSearch scfg s query count t
         = (Ok [], (t ++ [Old (EvHttpGet (endpoint escaped count));
                          Old (EvConsole "webSearch error")])%list))
  /\ (forall text : string,
         exists escaped, Uri.encodeURIComponent (Uri.of_string text) = Ok escaped)
  /\ Uri.encodeURIComponent [104; 55357; 105]%N = Throw Uri.malformed.
Proof.
  unfold webSearch. split; [|split; [|split; [|split; [|split]]]].
  - destruct (bingSearchApiKey scfg) as [[|a k]|]; try reflexivity. discriminate.
  - intros key e -> Hne Henc. destruct key as [|a k]; [contradiction|].
    now rewrite Henc.
  - intros escaped Henc. rewrite Henc.
    destruct (bingSearchApiKey scfg) as [[|a k]|]; try (now eexists; eexists).
    unfold try_catch2, bind2, call2, console2, ret2.
    destruct (bing_get s t _ _); eauto.
  - intros key escaped e -> Hne Henc _ Hget. destruct key as [|a k]; [contradiction|].
    rewrite Henc. unfold try_catch2, bind2, call2, console2, ret2. rewrite Hget.
    now rewrite <- app_assoc.
  - apply latin1_escapes.
  - reflexivity.
Qed.

Lemma webSearch_degrades_witness :
  webSearch {| azureOpenAIKey := None; azureOpenAIEndpoint := None;
               azureOpenAIDeploymentName := None; bingSearchApiKey := Some "" |}
            Sample2.silent (Uri.of_string "typescript") 3 []
  = (Ok [], [])
  /\ webSearch Sample2.with_keys Sample2.silent [104; 55357; 105]%N 3 []
     = (Throw Uri.malformed, [])
  /\ webSearch Sample2.with_keys Sample2.silent (Uri.of_string "C# 12") 3 []
     = (Ok [],
        [Old (EvHttpGet "https://api.bing.microsoft.com/v7.0/search?q=C%23%2012&count=3");
         Old (EvConsole "webSearch error")]).
Proof.
  split; [|split].
  - apply (proj1 (webSearch_degrades _ Sample2.silent (Uri.of_string "typescript") 3 [])).
    reflexivity.
  - apply (proj1 (proj2 (webSearch_degrades Sample2.with_keys Sample2.silent
                           [104; 55357; 105]%N 3 []))
                 "bing-key" Uri.malformed eq_refl); [discriminate | reflexivity].
  - apply (proj1 (proj2 (proj2 (proj2 (webSearch_degrades Sample2.with_keys Sample2.silent
                                         (Uri.of_string "C# 12") 3 []))))
                 "bing-key" "C%23%2012" "ENETUNREACH" eq_refl);
      [discriminate | reflexivity | reflexivity | reflexivity].
Defined.

(** X11.  With a key, a query that can be escaped, an integer count below
    10^21 in absolute value and an answer from the service, [webSearch] makes
    one request and returns pages of the answer, in the order of the answer,
    as title, url and snippet: for a count that is not negative the first
    [count] pages, so never more than [count]; for a negative count all pages
    but the last [-count].  An answer without pages gives none. *)
Theorem webSearch_results (scfg : ServiceConfig) (s : Services) (query : Uri.utf16)
        (key escaped : string) (count : Z) (t : trace2) (value : option (list BingPage)) :
  bingSearchApiKey scfg = Some key -> key <> "" ->
  Uri.encodeURIComponent query = Ok escaped ->
  (Z.abs count < 1000000000000000000000)%Z ->
  bing_get s t (endpoint escaped count) key = Ok value ->
  exists results,
    webSearch scfg s query count t
    = (Ok results, (t ++ [Old (EvHttpGet (endpoint escaped count))])%list)
    /\ ((0 <= count)%Z -> List.length results <= Z.to_nat count)
    /\ (value = None -> results = [])
    /\ (forall pages, value = Some pages ->
          List.length results <= List.length pages
          /\ ((0 <= count)%Z ->
              List.length results = Nat.min (Z.to_nat count) (List.length pages))
          /\ ((count < 0)%Z ->
              List.length results = List.length pages - Z.to_nat (- count))
          /\ forall i r, nth_error results i = Some r ->
               exists p, nth_error pages i = Some p
                         /\ title r = bp_name p /\ url r = bp_url p
                         /\ snippet r = bp_snippet p).
Proof.
  intros Hkey Hne Henc _ Hget.
  exists (map to_result (Uri.slice_to count (match value with Some l => l | None => [] end))).
  split; [|split; [|split]].
  - unfold webSearch. rewrite Hkey. destruct key as [|a k]; [contradiction|].
    rewrite Henc. unfold try_catch2, bind2, call2, ret2. now rewrite Hget.
  - intros Hcount. rewrite length_map.
    destruct (slice_to_length count (match value with Some l => l | None => [] end))
      as (_ & Hmin & _).
    rewrite (Hmin Hcount). lia.
  - intros ->. unfold Uri.slice_to. destruct (0 <=? count)%Z; now rewrite firstn_nil.
  - intros pages ->. rewrite length_map.
    destruct (slice_to_length count pages) as (Hle & Hmin & Hneg).
    split; [exact Hle|]. split; [exact Hmin|]. split; [exact Hneg|].
    intros i r Hr. rewrite nth_error_map in Hr.
    destruct (nth_error (Uri.slice_to count pages) i) as [p|] eqn:Hp; [|discriminate].
    injection Hr as <-. exists p. split; [now apply (slice_to_nth count)|].
    now repeat split.
Qed.

Lemma webSearch_results_witness :
  (exists results,
     fst (webSearch Sample2.with_keys
            (Sample2.answering Sample2.four_pages "" Sample2.two_commits [])
            (Uri.of_string "rocq prover") 3 [])
     = Ok results
     /\ List.length results = 3)
  /\ (exists results,
        fst (webSearch Sample2.with_keys
               (Sample2.answering Sample2.four_pages "" Sample2.two_commits [])
               (Uri.of_string "rocq prover") (-1) [])
        = Ok results
        /\ List.length results = 3).
Proof.
  split.
  - destruct (webSearch_results Sample2.with_keys
                (Sample2.answering Sample2.four_pages "" Sample2.two_commits [])
                (Uri.of_string "rocq prover") "bing-key" "rocq%20prover" 3 []
                (Some Sample2.four_pages)
                eq_refl ltac:(discriminate) eq_refl eq_refl eq_refl)
      as (results & Hrun & _ & _ & Hpages).
    exists results. rewrite Hrun. split; [reflexivity|].
    destruct (Hpages _ eq_refl) as (_ & Hmin & _). now rewrite Hmin.
  - destruct (webSearch_results Sample2.with_keys
                (Sample2.answering Sample2.four_pages "" Sample2.two_commits [])
                (Uri.of_string "rocq prover") "bing-key" "rocq%20prover" (-1) []
                (Some Sample2.four_pages)
                eq_refl ltac:(discriminate) eq_refl eq_refl eq_refl)
      as (results & Hrun & _ & _ & Hpages).
    exists results. rewrite Hrun. split; [reflexivity|].
    destruct (Hpages _ eq_refl) as (_ & _ & Hneg & _). now rewrite Hneg.
Defined.

End SearchCallProperties.


(** ** The commit history *)

Section HistoryProperties.
Import Eff Eff2 History.

Lemma substring_0_is_prefix (n : nat) (s : string) :
  length (substring 0 n s) <= n /\ exists tail, s = substring 0 n s ++ tail.
Proof.
  split; [rewrite substring_0_length; apply Nat.le_min_l | apply substring_0_prefix].
Qed.

(** X12.  [getCommitHistory] never throws; when the client cannot be opened
    or the log fails it answers [[]].  Otherwise it answers one entry per
    commit of the log, in order, with message, author and date unchanged and
    the hash cut to its first 8 characters. *)
Theorem getCommitHistory_short_hashes (cfg : Config) (w : World) (s : Services)
        (count : nat) (t : trace2) :
  (exists entries t', getCommitHistory cfg w s count t = (Ok entries, t'))
  /\ (forall e,
         simpleGit w (base t) (projectRoot cfg) = Throw e
         \/ git_log s (t ++ [Old (EvSimpleGit (projectRoot cfg))])%list (Some count) = Throw e ->
         fst (getCommitHistory cfg w s count t) = Ok [])
  /\ (forall log,
         simpleGit w (base t) (projectRoot cfg) = Ok tt ->
         git_log s (t ++ [Old (EvSimpleGit (projectRoot cfg))])%list (Some count) = Ok log ->
         exists entries,
           fst (getCommitHistory cfg w s count t) = Ok entries
           /\ List.length entries = List.length (lr_all log)
           /\ forall i c, nth_error (lr_all log) i = Some c ->
                exists entry,
                  nth_error entries i = Some entry
                  /\ length (hash entry) <= 8
                  /\ (exists tail, lc_hash c = hash entry ++ tail)
                  /\ (length (lc_hash c) <= 8 -> hash entry = lc_hash c)
                  /\ message entry = lc_message c
                  /\ author entry = lc_author_name c
                  /\ date entry = lc_date c).
Proof.
  unfold getCommitHistory, open_git2, try_catch2, bind2, call2, console2, ret2.
  repeat split.
  - destruct (simpleGit w (base t) _); [|eauto]. destruct (git_log s _ _); eauto.
  - intros e H. destruct (simpleGit w (base t) _) as [[]|]; [|reflexivity].
    destruct H as [H | H]; [discriminate|]. now rewrite H.
  - intros log Hopen Hlog. rewrite Hopen, Hlog. cbn [fst].
    exists (map to_CommitInfo (lr_all log)). repeat split.
    + apply length_map.
    + intros i c Hc. exists (to_CommitInfo c). repeat split.
      * now rewrite nth_error_map, Hc.
      * apply substring_0_is_prefix.
      * apply substring_0_is_prefix.
      * intros H. now apply substring_0_all.
Qed.

Lemma getCommitHistory_short_hashes_witness :
  fst (getCommitHistory Sample.moderation_on (Sample.serving "")
         (Sample2.answering [] "" Sample2.two_commits []) 10 [])
  = Ok [ {| hash := "01234567"; message := "Add search"; author := "Ada";
            date := "2024-05-01" |};
         {| hash := "89abcdef"; message := "Initial commit"; author := "Ada";
            date := "2024-04-30" |} ].
Proof.
  destruct (proj2 (proj2 (getCommitHistory_short_hashes Sample.moderation_on (Sample.serving "")
                            (Sample2.answering [] "" Sample2.two_commits []) 10 []))
                  Sample2.two_commits eq_refl eq_refl) as (entries & Hrun & _).
  rewrite Hrun. vm_compute in Hrun. now injection Hrun as <-.
Defined.

End HistoryProperties.

(** ** The chat model behind review and generation *)

Section AssistantProperties.
Import Eff Eff2 CodeReview Assistant.

(** X13.  [reviewCode] never throws.  Without a model key it calls nothing
    and returns the fixed "unavailable" review; when the request fails it
    returns the fixed "failed" review; both carry score 5 and no suggestions
    or issues.  Otherwise it makes one request,
    whose prompt holds the code verbatim between the rubric and the closing
    fence, and returns the parsed reply. *)
Theorem reviewCode_degrades (scfg : ServiceConfig) (s : Services) (code language : string)
        (t : trace2) :
  (exists r t', reviewCode scfg s code language t = (Ok r, t'))
  /\ (Js.truthy (azureOpenAIKey scfg) = false ->
      reviewCode scfg s code language t = (Ok review_unavailable, t))
  /\ (forall key e,
         azureOpenAIKey scfg = Some key -> key <> "" ->
         chat_post s t (chat_url scfg) key
                   {| cr_prompt := review_prompt code language; cr_max_tokens := 1000;
                      cr_temperature := "0.3" |} = Throw e ->
         fst (reviewCode scfg s code language t) = Ok review_failed)
  /\ (forall key content,
         azureOpenAIKey scfg = Some key -> key <> "" ->
         chat_post s t (chat_url scfg) key
                   {| cr_prompt := review_prompt code language; cr_max_tokens := 1000;
                      cr_temperature := "0.3" |} = Ok content ->
         reviewCode scfg s code language t
         = (Ok (parseCodeReviewResponse content),
            (t ++ [Old (EvHttpPost (chat_url scfg) (review_prompt code language))])%list))
  /\ (exists before, review_prompt code language
                     = before ++ code ++ nl ++ "```")
  /\ score review_unavailable = Int 5 /\ score review_failed = Int 5.
Proof.
  unfold reviewCode. repeat split.
  - destruct (azureOpenAIKey scfg) as [[|a k]|]; try (now eexists; eexists).
    unfold try_catch2, bind2, call2, console2, ret2.
    destruct (chat_post s t _ _ _); eauto.
  - destruct (azureOpenAIKey scfg) as [[|a k]|]; try reflexivity. discriminate.
  - intros key e -> Hne Hpost. destruct key as [|a k]; [contradiction|].
    unfold try_catch2, bind2, call2, console2, ret2. now rewrite Hpost.
  - intros key content -> Hne Hpost. destruct key as [|a k]; [contradiction|].
    unfold try_catch2, bind2, call2, console2, ret2. now rewrite Hpost.
  - unfold review_prompt. eexists. rewrite <- !append_assoc. reflexivity.
Qed.

Lemma reviewCode_degrades_witness :
  reviewCode Sample2.with_keys
             (Sample2.answering [] ("Fine." ++ nl ++ "- bug in add" ++ nl ++ "Score: 7")
                                Sample2.two_commits [])
             "const add = (a, b) => a - b" "typescript" []
  = (Ok {| summary := "Fine."; suggestions := []; score := Int 7;
           issues := ["bug in add"] |},
     [Old (EvHttpPost (chat_url Sample2.with_keys)
                      (review_prompt "const add = (a, b) => a - b" "typescript"))]).
Proof.
  rewrite (proj1 (proj2 (proj2 (proj2 (reviewCode_degrades Sample2.with_keys
             (Sample2.answering [] ("Fine." ++ nl ++ "- bug in add" ++ nl ++ "Score: 7")
                                Sample2.two_commits [])
             "const add = (a, b) => a - b" "typescript" []))))
             "azure-key" ("Fine." ++ nl ++ "- bug in add" ++ nl ++ "Score: 7")
             eq_refl ltac:(discriminate) eq_refl).
  reflexivity.
Defined.

(** X14.  [generateCode] never throws and always answers with text: a
    comment line saying the key is missing, without any call, when there is no
    model key; a comment line saying generation failed when the request
    fails; and otherwise the reply of the model as it is. *)
Theorem generateCode_degrades (scfg : ServiceConfig) (s : Services)
        (requirements language : string) (t : trace2) :
  (exists r t', generateCode scfg s requirements language t = (Ok r, t'))
  /\ (Js.truthy (azureOpenAIKey scfg) = false ->
      generateCode scfg s requirements language t
      = (Ok "// Code generation unavailable - missing API key", t))
  /\ (forall key e,
         azureOpenAIKey scfg = Some key -> key <> "" ->
         chat_post s t (chat_url scfg) key
                   {| cr_prompt := generate_prompt requirements language;
                      cr_max_tokens := 2000; cr_temperature := "0.7" |} = Throw e ->
         fst (generateCode scfg s requirements language t) = Ok "// Code generation failed")
  /\ (forall key content,
         azureOpenAIKey scfg = Some key -> key <> "" ->
         chat_post s t (chat_url scfg) key
                   {| cr_prompt := generate_prompt requirements language;
                      cr_max_tokens := 2000; cr_temperature := "0.7" |} = Ok content ->
         fst (generateCode scfg s requirements language t) = Ok content).
Proof.
  unfold generateCode. repeat split.
  - destruct (azureOpenAIKey scfg) as [[|a k]|]; try (now eexists; eexists).
    unfold try_catch2, bind2, call2, console2, ret2.
    destruct (chat_post s t _ _ _); eauto.
  - destruct (azureOpenAIKey scfg) as [[|a k]|]; try reflexivity. discriminate.
  - intros key e -> Hne Hpost. destruct key as [|a k]; [contradiction|].
    unfold try_catch2, bind2, call2, console2, ret2. now rewrite Hpost.
  - intros key content -> Hne Hpost. destruct key as [|a k]; [contradiction|].
    unfold try_catch2, bind2, call2, console2, ret2. now rewrite Hpost.
Qed.

Lemma generateCode_degrades_witness :
  generateCode Sample2.no_keys Sample2.silent "a queue" "typescript" []
  = (Ok "// Code generation unavailable - missing API key", []).
Proof.
  apply (proj1 (proj2 (generateCode_degrades Sample2.no_keys Sample2.silent
                         "a queue" "typescript" []))).
  reflexivity.
Defined.

End AssistantProperties.


(** ** Git operations: the successful paths *)

Section GitSuccessProperties.
Import Eff ProjectManager GitCalls.

(** X15.  [commitChanges] answers [true] exactly when opening the client,
    staging and committing all succeed, and then it has staged the given
    files (everything, ["."], when none are given) and committed with the
    message, in that order.  When staging fails the commit is never
    attempted. *)
Theorem commitChanges_true_iff (cfg : Config) (w : World) (message : string)
        (files : option (list string)) (tr : trace) :
  (fst (commitChanges cfg w message files tr) = Ok true <->
   simpleGit w tr (projectRoot cfg) = Ok tt
   /\ git_add w (opened cfg tr) (added files) = Ok tt
   /\ git_commit w (opened cfg tr ++ [EvGitAdd (added files)])%list message = Ok tt)
  /\ (fst (commitChanges cfg w message files tr) = Ok true ->
      snd (commitChanges cfg w message files tr)
      = (opened cfg tr ++ [EvGitAdd (added files); EvGitCommit message])%list)
  /\ (forall e,
         simpleGit w tr (projectRoot cfg) = Ok tt ->
         git_add w (opened cfg tr) (added files) = Throw e ->
         snd (commitChanges cfg w message files tr)
         = (opened cfg tr ++ [EvGitAdd (added files); EvConsole "Git commit failed:"])%list).
Proof.
  assert (Hrun : commitChanges cfg w message files tr =
                 match simpleGit w tr (projectRoot cfg) with
                 | Ok _ =>
                     match git_add w (opened cfg tr) (added files) with
                     | Ok _ =>
                         match git_commit w (opened cfg tr ++ [EvGitAdd (added files)])%list
                                          message with
                         | Ok _ => (Ok true,
                                    (opened cfg tr
                                     ++ [EvGitAdd (added files); EvGitCommit message])%list)
                         | Throw _ =>
                             (Ok false,
                              (opened cfg tr
                               ++ [EvGitAdd (added files); EvGitCommit message;
                                   EvConsole "Git commit failed:"])%list)
                         end
                     | Throw _ =>
                         (Ok false,
                          (opened cfg tr
                           ++ [EvGitAdd (added files); EvConsole "Git commit failed:"])%list)
                     end
                 | Throw _ => (Ok false, (opened cfg tr ++ [EvConsole "Git commit failed:"])%list)
                 end).
  { unfold commitChanges, open_git, opened, added. run_io.
    destruct (simpleGit w tr _); [|reflexivity].
    destruct files as [[|f fs]|]; cbn;
      (destruct (git_add w _ _); [|now rewrite <- app_assoc]);
      (destruct (git_commit w _ _); now rewrite <- !app_assoc). }
  rewrite Hrun. repeat split.
  - destruct (simpleGit w tr _) as [[]|]; [reflexivity | discriminate].
  - destruct (simpleGit w tr _) as [[]|]; [|discriminate].
    destruct (git_add w _ _) as [[]|]; [reflexivity | discriminate].
  - destruct (simpleGit w tr _) as [[]|]; [|discriminate].
    destruct (git_add w _ _) as [[]|]; [|discriminate].
    destruct (git_commit w _ _) as [[]|]; [reflexivity | discriminate].
  - intros (-> & -> & ->). reflexivity.
  - destruct (simpleGit w tr _) as [[]|]; [|discriminate].
    destruct (git_add w _ _) as [[]|]; [|discriminate].
    destruct (git_commit w _ _) as [[]|]; [reflexivity | discriminate].
  - intros e -> ->. reflexivity.
Qed.

Lemma commitChanges_true_iff_witness :
  snd (commitChanges Sample.moderation_on (Sample.serving "") "wip" None [])
  = [EvSimpleGit "/repo"; EvGitAdd ["."]; EvConsole "Git commit failed:"].
Proof.
  exact (proj2 (proj2 (commitChanges_true_iff Sample.moderation_on (Sample.serving "")
                         "wip" None []))
               "fatal: not a git repository" eq_refl eq_refl).
Defined.

(** X16.  When the client opens and reports a status, [getGitStatus]
    returns the branch and the ahead and behind counts as reported and one
    entry per reported file, in order: the path as reported, the status the
    working-tree code followed by the index code, and staged exactly when the
    index code is neither a blank nor "?". *)
Theorem getGitStatus_reports (cfg : Config) (w : World) (tr : trace) (st : StatusResult) :
  simpleGit w tr (projectRoot cfg) = Ok tt ->
  git_status w (opened cfg tr) = Ok st ->
  exists g,
    getGitStatus cfg w tr = (Ok g, (opened cfg tr ++ [EvGitStatus])%list)
    /\ current g = sr_current st /\ ahead g = sr_ahead st /\ behind g = sr_behind st
    /\ List.length (files g) = List.length (sr_files st)
    /\ forall i f, nth_error (sr_files st) i = Some f ->
         exists gf,
           nth_error (files g) i = Some gf
           /\ path gf = fs_path f
           /\ status gf = fs_working_dir f ++ fs_index f
           /\ (staged gf = true <-> fs_index f <> " " /\ fs_index f <> "?").
Proof.
  intros Hopen Hst. eexists. split.
  - unfold getGitStatus, open_git, opened in *. run_io. rewrite Hopen, Hst. reflexivity.
  - cbn. repeat split.
    + apply length_map.
    + intros i f Hf. exists (to_GitFile f). repeat split.
      * now rewrite nth_error_map, Hf.
      * unfold to_GitFile in H. cbn in H. apply andb_true_iff in H as [H _].
        apply negb_true_iff, String.eqb_neq in H. exact H.
      * unfold to_GitFile in H. cbn in H. apply andb_true_iff in H as [_ H].
        apply negb_true_iff, String.eqb_neq in H. exact H.
      * intros [H1 H2]. unfold to_GitFile. cbn.
        apply andb_true_iff. split; apply negb_true_iff, String.eqb_neq; assumption.
Qed.

Lemma getGitStatus_reports_witness :
  exists g,
    getGitStatus Sample.moderation_on (Sample2.git_ok Sample2.two_files) []
    = (Ok g, [EvSimpleGit "/repo"; EvGitStatus])
    /\ map staged (files g) = [true; false]
    /\ map status (files g) = [" M"; "??"].
Proof.
  destruct (getGitStatus_reports Sample.moderation_on (Sample2.git_ok Sample2.two_files) []
              Sample2.two_files eq_refl eq_refl) as (g & Hrun & _).
  exists g. split; [exact Hrun|].
  vm_compute in Hrun. injection Hrun as <-. split; reflexivity.
Defined.

End GitSuccessProperties.

(** ** The environments *)

Section EnvironmentFacts.
Import Eff Eff2 Environments EnvText.

Lemma split_char_nonempty (c : ascii) (s : string) : split_char c s <> [].
Proof.
  induction s as [|a s IH]; cbn [split_char]; [discriminate|].
  destruct (Ascii.eqb a c); [discriminate|]. now destruct (split_char c s).
Qed.

Lemma split_char_single (s : string) :
  no_equals s = true -> split_char "=" s = [s].
Proof.
  unfold no_equals. induction s as [|a s IH]; [reflexivity|].
  cbn [Text.all_chars split_char]. intros H. apply andb_true_iff in H as [Ha Hs].
  apply negb_true_iff in Ha. now rewrite Ha, (IH Hs).
Qed.

Lemma split_char_piece (k rest : string) :
  no_equals k = true -> split_char "=" (k ++ "=" ++ rest) = k :: split_char "=" rest.
Proof.
  unfold no_equals. induction k as [|a k IH]; [reflexivity|].
  cbn [Text.all_chars]. intros H.
  apply andb_true_iff in H as [Ha Hk]. apply negb_true_iff in Ha.
  change (split_char "=" (String a (k ++ "=" ++ rest)) = String a k :: split_char "=" rest).
  cbn [split_char]. now rewrite Ha, (IH Hk).
Qed.

(** A text with "=" splits into a piece without "=", the "=", and a rest. *)
Lemma includes_equals (s : string) :
  Js.includes "=" s = true ->
  exists k rest, s = k ++ "=" ++ rest /\ no_equals k = true.
Proof.
  unfold no_equals. induction s as [|a s IH]; [discriminate|].
  cbn [Js.includes Js.startsWith]. destruct (Ascii.eqb_spec "="%char a) as [<-|Hne].
  - intros _. now exists "", s.
  - cbn [andb orb]. intros H. destruct (IH H) as (k & rest & -> & Hk).
    exists (String a k), rest. split; [reflexivity|].
    cbn [Text.all_chars]. rewrite Hk, andb_true_r. apply negb_true_iff.
    apply Ascii.eqb_neq. congruence.
Qed.

Lemma includes_equals_iff (k v : string) :
  Js.includes "=" (k ++ "=" ++ v) = true.
Proof. apply includes_spec. now exists k, v. Qed.

(** The first two pieces of a line [k=v...]. *)
Lemma first_two_pieces (k v rest : string) :
  no_equals k = true -> no_equals v = true ->
  rest = "" \/ Js.startsWith "=" rest = true ->
  exists more, split_char "=" (k ++ "=" ++ v ++ rest) = k :: v :: more.
Proof.
  intros Hk Hv Hrest.
  destruct Hrest as [-> | Hrest].
  - exists []. now rewrite (split_char_piece k _ Hk), append_nil_r, (split_char_single v Hv).
  - apply startsWith_spec in Hrest as [r ->]. exists (split_char "=" r).
    now rewrite (split_char_piece k _ Hk), (split_char_piece v r Hv).
Qed.

Lemma env_line_total (vars : list (string * string)) (line : string) :
  exists vars', env_line vars line = Ok vars'.
Proof.
  unfold env_line. destruct (Js.includes "=" line) eqn:E; cbn [andb]; [|eauto].
  destruct (negb (Js.startsWith "#" line)); [|eauto].
  destruct (includes_equals line E) as (k & rest & -> & Hk).
  rewrite (split_char_piece k rest Hk).
  pose proof (split_char_nonempty "=" rest) as Hne.
  destruct (split_char "=" rest) as [|v more]; [contradiction|]. cbn. eauto.
Qed.

Lemma env_lines_total (lines : list string) (vars : list (string * string)) :
  exists vars', env_lines vars lines = Ok vars'.
Proof.
  revert vars. induction lines as [|l lines IH]; intros vars; cbn [env_lines]; [eauto|].
  destruct (env_line_total vars l) as [vars' ->]. apply IH.
Qed.

Lemma lookup_obj_set (k v : string) (o : list (string * string)) :
  lookup k (obj_set k v o) = Some v
  /\ forall k', k' <> k -> lookup k' (obj_set k v o) = lookup k' o.
Proof.
  induction o as [|[k0 v0] o [IH1 IH2]]; cbn [obj_set lookup].
  - rewrite String.eqb_refl. split; [reflexivity|]. intros k' Hk'.
    now apply String.eqb_neq in Hk' as ->.
  - destruct (String.eqb_spec k k0) as [<-|Hne]; cbn [lookup].
    + rewrite String.eqb_refl. split; [reflexivity|]. intros k' Hk'.
      now apply String.eqb_neq in Hk' as ->.
    + apply String.eqb_neq in Hne as Hne'. rewrite Hne'. split; [exact IH1|].
      intros k' Hk'. destruct (String.eqb k' k0); [reflexivity | now apply IH2].
Qed.

End EnvironmentFacts.

Section EnvironmentProperties.
Import Eff Eff2 Environments EnvText.

(** X17.  How one line of an environment file is read.  A line without "="
    or one that starts with "#" changes nothing.  Of any other line the key is
    the text before the first "=" and the value the text between the first
    and the second "=" (or the end), both trimmed: what follows a second "="
    is dropped.  The pair then is what the key looks up, other keys keep
    their values, and no line makes the reading throw. *)
Theorem env_line_reads (vars : list (string * string)) (line : string) :
  (exists vars', env_line vars line = Ok vars')
  /\ (Js.includes "=" line = false \/ Js.startsWith "#" line = true ->
      env_line vars line = Ok vars)
  /\ (forall k v rest,
         line = k ++ "=" ++ v ++ rest ->
         no_equals k = true -> no_equals v = true ->
         rest = "" \/ Js.startsWith "=" rest = true ->
         Js.startsWith "#" line = false ->
         env_line vars line = Ok (assign (Js.trim k) (Js.trim v) vars)
         /\ (Js.trim k <> "__proto__" ->
             lookup (Js.trim k) (assign (Js.trim k) (Js.trim v) vars) = Some (Js.trim v)
             /\ forall k', k' <> Js.trim k ->
                  lookup k' (assign (Js.trim k) (Js.trim v) vars) = lookup k' vars)).
Proof.
  split; [apply env_line_total|]. split.
  - unfold env_line. intros [-> | ->]; [reflexivity|]. now rewrite andb_false_r.
  - intros k v rest -> Hk Hv Hrest Hhash. split.
    + unfold env_line. rewrite Hhash.
      replace (Js.includes "=" (k ++ "=" ++ v ++ rest)) with true
        by (symmetry; apply includes_equals_iff).
      destruct (first_two_pieces k v rest Hk Hv Hrest) as [more ->]. reflexivity.
    + intros Hproto. unfold assign. apply String.eqb_neq in Hproto as ->.
      apply lookup_obj_set.
Qed.

Lemma env_line_reads_witness :
  env_line [("API_URL", "http://old")] "API_URL = https://api.example/v1?mode=fast"
  = Ok [("API_URL", "https://api.example/v1?mode")].
Proof.
  exact (proj1 (proj2 (proj2 (env_line_reads [("API_URL", "http://old")]
                                "API_URL = https://api.example/v1?mode=fast"))
                      "API_URL " " https://api.example/v1?mode" "=fast"
                      eq_refl eq_refl eq_refl (or_intror eq_refl) eq_refl)).
Defined.

End EnvironmentProperties.

Section EnvironmentListing.
Import Eff Eff2 Environments.

Variable cfg : Config.
Variable w : World.
Variable s : Services.

Lemma remove_prefix (pat file : string) :
  Js.startsWith pat file = true ->
  remove_first_lit pat file = Text.drop (length pat) file
  /\ file = pat ++ Text.drop (length pat) file.
Proof.
  intros H. split.
  - destruct file; cbn [remove_first_lit]; now rewrite H.
  - apply startsWith_spec in H as [r ->]. now rewrite drop_append.
Qed.

Lemma read_environment_spec (file : string) (envs : list Environment) (t : trace2) :
  exists t',
    ((forall c, fs_readFileSync_utf8 w (base t) (path_join w (envDir cfg w) file) <> Ok c)
     /\ read_environment cfg w s file envs t = (Ok envs, t'))
    \/ exists vars,
        read_environment cfg w s file envs t
        = (Ok (envs ++ [{| name := remove_first_lit ".env." file; variables := vars;
                           active := is_active s (remove_first_lit ".env." file) |}])%list, t').
Proof.
  unfold read_environment, try_catch2, bind2, call2, console2, ret2.
  destruct (fs_readFileSync_utf8 w (base t) _) as [content|e] eqn:Hread.
  - destruct (env_lines_total (Js.split_lines content) []) as [vars ->].
    eexists. right. exists vars. reflexivity.
  - eexists. left. split; [discriminate | reflexivity].
Qed.

Lemma read_environments_spec (files : list string) :
  forall (envs : list Environment) (t : trace2),
  exists new t',
    read_environments cfg w s files envs t = (Ok (envs ++ new)%list, t')
    /\ List.length new <= List.length files
    /\ (forall env, In env new ->
          exists file, In file files
                       /\ name env = remove_first_lit ".env." file
                       /\ active env = is_active s (name env))
    /\ ((forall tr p, exists c, fs_readFileSync_utf8 w tr p = Ok c) ->
        map name new = map (remove_first_lit ".env.") files).
Proof.
  induction files as [|file rest IH]; intros envs t.
  - exists [], t. cbn. unfold ret2. rewrite app_nil_r. repeat split; auto.
    all: intros env [].
  - cbn [read_environments]. unfold bind2 at 1.
    destruct (read_environment_spec file envs t)
      as [t1 [(Hnone & ->) | (vars & ->)]].
    + destruct (IH envs t1) as (new & t' & -> & Hlen & Hin & Hall).
      exists new, t'. repeat split.
      * cbn. lia.
      * intros env He. destruct (Hin env He) as (f & Hf & Hn). exists f. split; [now right | exact Hn].
      * intros Hread. destruct (Hread (base t) (path_join w (envDir cfg w) file)) as [c Hc].
        now destruct (Hnone c).
    + destruct (IH (envs ++ [{| name := remove_first_lit ".env." file; variables := vars;
                                active := is_active s (remove_first_lit ".env." file) |}])%list t1)
        as (new & t' & -> & Hlen & Hin & Hall).
      eexists (_ :: new), t'. repeat split.
      * now rewrite <- app_assoc.
      * cbn. lia.
      * intros env [<- | He].
        -- exists file. repeat split. now left.
        -- destruct (Hin env He) as (f & Hf & Hn). exists f. split; [now right | exact Hn].
      * intros Hread. cbn. now rewrite (Hall Hread).
Qed.

End EnvironmentListing.

Section EnvironmentListingProperties.
Import Eff Eff2 Environments.

Lemma getEnvironments_run (cfg : Config) (w : World) (s : Services) (t : trace2) :
  getEnvironments cfg w s t =
  if fs_existsSync s t (envDir cfg w) then
    match fs_readdirSync s (t ++ [ExistsSync (envDir cfg w)])%list (envDir cfg w) with
    | Ok listing =>
        read_environments cfg w s (filter (Js.startsWith ".env.") listing) []
          (t ++ [ExistsSync (envDir cfg w); ReaddirSync (envDir cfg w)])%list
    | Throw _ =>
        (Ok [], (t ++ [ExistsSync (envDir cfg w); ReaddirSync (envDir cfg w);
                       Old (EvConsole "Environment analysis failed:")])%list)
    end
  else (Ok [], (t ++ [ExistsSync (envDir cfg w)])%list).
Proof.
  cbv beta iota delta [getEnvironments try_catch2 bind2 call2 console2 ret2].
  destruct (fs_existsSync s t (envDir cfg w)); [|reflexivity].
  destruct (fs_readdirSync s _ _) as [listing|e]; rewrite <- ?app_assoc; cbn [app].
  - destruct (read_environments_spec cfg w s (filter (Js.startsWith ".env.") listing) []
                (t ++ [ExistsSync (envDir cfg w); ReaddirSync (envDir cfg w)])%list)
      as (new & t' & H & _).
    now rewrite H.
  - reflexivity.
Qed.

(** X18.  [getEnvironments] never throws.  When there is no env directory
    it only asks whether the directory exists and answers [[]]; when listing
    the directory fails it answers [[]]. *)
Theorem getEnvironments_degrades (cfg : Config) (w : World) (s : Services) (t : trace2) :
  (exists envs t', getEnvironments cfg w s t = (Ok envs, t'))
  /\ (fs_existsSync s t (envDir cfg w) = false ->
      getEnvironments cfg w s t = (Ok [], (t ++ [ExistsSync (envDir cfg w)])%list))
  /\ (forall e,
         fs_existsSync s t (envDir cfg w) = true ->
         fs_readdirSync s (t ++ [ExistsSync (envDir cfg w)])%list (envDir cfg w) = Throw e ->
         fst (getEnvironments cfg w s t) = Ok []).
Proof.
  rewrite getEnvironments_run. repeat split.
  - destruct (fs_existsSync s t _); [|eauto].
    destruct (fs_readdirSync s _ _) as [listing|e]; [|eauto].
    destruct (read_environments_spec cfg w s (filter (Js.startsWith ".env.") listing) []
                (t ++ [ExistsSync (envDir cfg w); ReaddirSync (envDir cfg w)])%list)
      as (new & t' & H & _).
    rewrite H. eauto.
  - intros ->. reflexivity.
  - intros e -> ->. reflexivity.
Qed.

Lemma getEnvironments_degrades_witness :
  getEnvironments Sample.moderation_on Sample.offline Sample2.silent []
  = (Ok [], [ExistsSync "/repo/env"]).
Proof.
  apply (proj1 (proj2 (getEnvironments_degrades Sample.moderation_on Sample.offline
                         Sample2.silent []))).
  reflexivity.
Defined.

(** X19.  From a listing of the env directory, [getEnvironments] returns at
    most one environment per file whose name starts with ".env.", and none for
    any other file; each returned environment is named by what follows
    ".env." in its file name and is active exactly when that name is the value
    of TEAMSFX_ENV.  A file that cannot be read is skipped; when every file
    can be read the environments are those of all the ".env." files, in the
    order of the listing. *)
Theorem getEnvironments_lists (cfg : Config) (w : World) (s : Services) (t : trace2)
        (listing : list string) :
  fs_existsSync s t (envDir cfg w) = true ->
  fs_readdirSync s (t ++ [ExistsSync (envDir cfg w)])%list (envDir cfg w) = Ok listing ->
  exists envs,
    fst (getEnvironments cfg w s t) = Ok envs
    /\ List.length envs <= List.length (filter (Js.startsWith ".env.") listing)
    /\ (forall env, In env envs ->
          In (".env." ++ name env) listing
          /\ (active env = true <-> env_TEAMSFX_ENV s = Some (name env)))
    /\ ((forall tr p, exists c, fs_readFileSync_utf8 w tr p = Ok c) ->
        map name envs = map (Text.drop 5) (filter (Js.startsWith ".env.") listing)).
Proof.
  intros Hex Hlist.
  destruct (read_environments_spec cfg w s (filter (Js.startsWith ".env.") listing) []
              (t ++ [ExistsSync (envDir cfg w); ReaddirSync (envDir cfg w)])%list)
    as (envs & t' & Hrun & Hlen & Hin & Hall).
  cbn [app] in Hrun.
  exists envs. repeat split.
  - now rewrite getEnvironments_run, Hex, Hlist, Hrun.
  - exact Hlen.
  - destruct (Hin env H) as (file & Hfile & Hname & _).
    apply filter_In in Hfile as [Hfile Hpre].
    destruct (remove_prefix ".env." file Hpre) as [Hrm Heq].
    rewrite Hname, Hrm, <- Heq. exact Hfile.
  - destruct (Hin env H) as (file & _ & _ & Hact). rewrite Hact. unfold is_active.
    destruct (env_TEAMSFX_ENV s) as [m|]; [|discriminate].
    intros E. apply String.eqb_eq in E. now subst.
  - destruct (Hin env H) as (file & _ & _ & Hact). rewrite Hact. unfold is_active.
    intros ->. apply String.eqb_refl.
  - intros Hread. rewrite (Hall Hread). apply map_ext_in. intros file Hfile.
    apply filter_In in Hfile as [_ Hpre]. apply (remove_prefix ".env." file Hpre).
Qed.

Lemma getEnvironments_lists_witness :
  fst (getEnvironments Sample.moderation_on
         (Sample.serving ("A=1" ++ nl ++ "# note" ++ nl ++ "B = two"))
         (Sample2.env_dir [".env.dev"; "README.md"; ".env.local"] (Some "local")) [])
  = Ok [ {| name := "dev"; variables := [("A", "1"); ("B", "two")]; active := false |};
         {| name := "local"; variables := [("A", "1"); ("B", "two")]; active := true |} ].
Proof.
  destruct (getEnvironments_lists Sample.moderation_on
              (Sample.serving ("A=1" ++ nl ++ "# note" ++ nl ++ "B = two"))
              (Sample2.env_dir [".env.dev"; "README.md"; ".env.local"] (Some "local")) []
              [".env.dev"; "README.md"; ".env.local"] eq_refl eq_refl)
    as (envs & Hrun & _).
  rewrite Hrun. vm_compute in Hrun. now injection Hrun as <-.
Defined.

End EnvironmentListingProperties.

(** ** Global matching and the complexity score *)

Section GlobalMatchFacts.
Import Regex GlobalMatch Text.

Lemma star_loop_shrinks {A : Type} (p : ascii -> bool) (s : string) :
  forall prev caps (k : @cont A) x,
    star_loop p prev s caps k = Some x ->
    exists prev' s' caps', length s' <= length s /\ k prev' s' caps' = Some x.
Proof.
  induction s as [|a s IH]; intros prev caps k x; cbn [star_loop].
  - intros H. now exists prev, "", caps.
  - destruct (p a).
    + destruct (star_loop p (Some a) s caps k) as [y|] eqn:E.
      * intros H. injection H as <-.
        destruct (IH _ _ _ _ E) as (prev' & s' & caps' & Hlen & Hk).
        exists prev', s', caps'. split; [cbn; lia | exact Hk].
      * intros H. now exists prev, (String a s), caps.
    + intros H. now exists prev, (String a s), caps.
Qed.

(** A match never ends before the place it starts from: the continuation
    is reached with a text that is no longer. *)
Lemma rmatch_shrinks {A : Type} (ic : bool) (r : regex) :
  forall prev (s : string) caps (k : @cont A) x,
    rmatch ic r prev s caps k = Some x ->
    exists prev' s' caps', length s' <= length s /\ k prev' s' caps' = Some x.
Proof.
  induction r as [|c|p| | |r1 IH1 r2 IH2|r1 IH1 r2 IH2|p|r IH];
    intros prev s caps k x; cbn [rmatch].
  - intros H. now exists prev, s, caps.
  - destruct s as [|a s]; [discriminate|]. destruct (char_match ic c a); [|discriminate].
    intros H. exists (Some a), s, caps. split; [cbn; lia | exact H].
  - destruct s as [|a s]; [discriminate|]. destruct (p a); [|discriminate].
    intros H. exists (Some a), s, caps. split; [cbn; lia | exact H].
  - destruct prev; [discriminate|]. intros H. now exists None, s, caps.
  - destruct (xorb _ _); [|discriminate]. intros H. now exists prev, s, caps.
  - intros H. destruct (IH1 _ _ _ _ _ H) as (p1 & s1 & c1 & Hlen1 & H1).
    destruct (IH2 _ _ _ _ _ H1) as (p2 & s2 & c2 & Hlen2 & H2).
    exists p2, s2, c2. split; [lia | exact H2].
  - destruct (rmatch ic r1 prev s caps k) as [y|] eqn:E.
    + intros H. injection H as <-. now apply IH1 in E.
    + intros H. now apply IH2 in H.
  - apply star_loop_shrinks.
  - intros H. destruct (IH _ _ _ _ _ H) as (p1 & s1 & c1 & Hlen1 & H1).
    now exists p1, s1, (c1 ++ [substring 0 (length s - length s1) s])%list.
Qed.

Lemma exec_from_after_length (ic : bool) (r : regex) prev (s : string) (m : match_result) :
  exec_from ic r prev s = Some m -> m_index m + length (m_after m) <= length s.
Proof.
  intros H. destruct (exec_from_Some _ _ _ _ _ H) as (pre & post & -> & <- & Hm & _).
  unfold match_here in Hm. apply rmatch_shrinks in Hm as (p' & s' & c' & Hlen & Hk).
  injection Hk as <- _. rewrite length_append. lia.
Qed.

(** More searches than [length s + 1] change nothing. *)
Lemma count_from_enough (ic : bool) (r : regex) (fuel1 : nat) :
  forall fuel2 prev (s : string),
    length s < fuel1 -> length s < fuel2 ->
    count_from fuel1 ic r prev s = count_from fuel2 ic r prev s.
Proof.
  induction fuel1 as [|f1 IH]; intros fuel2 prev s H1 H2; [lia|].
  destruct fuel2 as [|f2]; [lia|]. cbn [count_from].
  destruct (exec_from ic r prev s) as [m|] eqn:E; [|reflexivity].
  pose proof (exec_from_after_length _ _ _ _ _ E) as Hlen.
  destruct (Nat.eqb_spec (length s - m_index m - length (m_after m)) 0) as [Hz|Hnz].
  - destruct (m_after m) as [|a rest]; [reflexivity|]. f_equal.
    cbn [length] in Hlen. apply IH; lia.
  - f_equal. apply IH; lia.
Qed.

(** A pattern whose first alternative is empty matches the empty text at
    every position: one match per position, the end included. *)
Lemma count_from_empty_first (ic : bool) (r2 : regex) (s : string) :
  forall fuel prev, length s < fuel ->
    count_from fuel ic (Alt Eps r2) prev s = S (length s).
Proof.
  induction s as [|a s IH]; intros fuel prev Hfuel; (destruct fuel as [|f]; [lia|]).
  - reflexivity.
  - cbn [count_from exec_from]. unfold match_here. cbn [rmatch m_index m_after].
    rewrite Nat.sub_0_r, Nat.sub_diag. cbn [Nat.eqb length].
    rewrite IH; [reflexivity|]. cbn [length] in Hfuel. lia.
Qed.

End GlobalMatchFacts.

Section ComplexityFacts.
Import Regex GlobalMatch Analysis.

Lemma empty_alternatives_count (code : string) :
  count_matches false (new_RegExp "||") code = length code + 1.
Proof.
  unfold count_matches. change (new_RegExp "||") with (Alt Eps (Alt Eps Eps)).
  rewrite count_from_empty_first by lia. lia.
Qed.

Lemma complexity_sum (code : string) :
  calculateComplexity code
  = 1 + count_matches false (lit "if") code + count_matches false (lit "else") code
    + count_matches false (lit "for") code + count_matches false (lit "while") code
    + count_matches false (lit "switch") code + count_matches false (lit "catch") code
    + count_matches false (lit "&&") code + (length code + 1).
Proof.
  unfold calculateComplexity, complexity_keywords. cbn [fold_left].
  now rewrite empty_alternatives_count.
Qed.

Lemma complexity_lower_bound (code : string) :
  length code + 2 <= calculateComplexity code.
Proof. rewrite complexity_sum. lia. Qed.

End ComplexityFacts.

Section ComplexityProperties.
Import Regex GlobalMatch Analysis.

(** X20.  The complexity score counts, on top of the base 1, the matches of
    each keyword as a pattern; the keyword "||" is a pattern of three empty
    alternatives, which matches once at every position of the code, the end
    included.  So the score is the base, the matches of the seven other
    keywords and the length of the code plus one: it is always at least the
    length of the code plus 2, and the empty code scores 2. *)
Theorem calculateComplexity_counts_positions (code : string) :
  count_matches false (new_RegExp "||") code = length code + 1
  /\ calculateComplexity code
     = 1 + count_matches false (lit "if") code + count_matches false (lit "else") code
       + count_matches false (lit "for") code + count_matches false (lit "while") code
       + count_matches false (lit "switch") code + count_matches false (lit "catch") code
       + count_matches false (lit "&&") code + (length code + 1)
  /\ length code + 2 <= calculateComplexity code
  /\ calculateComplexity "" = 2.
Proof.
  split; [apply empty_alternatives_count|]. split; [apply complexity_sum|].
  split; [apply complexity_lower_bound | reflexivity].
Qed.

End ComplexityProperties.

Section AnalyzeCodeProperties.
Import Eff Eff2 Regex GlobalMatch Analysis.

Lemma split_lines_length (s : string) : 1 <= List.length (Js.split_lines s).
Proof.
  destruct (split_lines_head s) as [rest ->]. cbn. lia.
Qed.

(** X21.  [analyzeCode] has no fallback: when the linter cannot be built,
    the lint fails, the file cannot be read, or the lint answers without a
    result, it throws.  When all of them answer, the result has one issue per
    lint message of the first result, in order, each with severity "error" (for
    lint severity 2) or "warning" (for any other), never "info"; the line
    count is at least 1 and the complexity is more than the length of the
    file. *)
Theorem analyzeCode_result (w : World) (s : Services) (filePath : string) (t : trace2) :
  let t1 := (t ++ [NewESLint])%list in
  let t2 := (t ++ [NewESLint; LintFiles filePath])%list in
  (forall e, new_ESLint s t = Throw e -> fst (analyzeCode w s filePath t) = Throw e)
  /\ (forall e, new_ESLint s t = Ok tt -> eslint_lintFiles s t1 filePath = Throw e ->
                fst (analyzeCode w s filePath t) = Throw e)
  /\ (forall e results,
         new_ESLint s t = Ok tt -> eslint_lintFiles s t1 filePath = Ok results ->
         fs_readFileSync_utf8 w (base t2) filePath = Throw e ->
         fst (analyzeCode w s filePath t) = Throw e)
  /\ (forall content,
         new_ESLint s t = Ok tt -> eslint_lintFiles s t1 filePath = Ok [] ->
         fs_readFileSync_utf8 w (base t2) filePath = Ok content ->
         exists e, fst (analyzeCode w s filePath t) = Throw e)
  /\ (forall result others content,
         new_ESLint s t = Ok tt ->
         eslint_lintFiles s t1 filePath = Ok (result :: others) ->
         fs_readFileSync_utf8 w (base t2) filePath = Ok content ->
         exists r,
           fst (analyzeCode w s filePath t) = Ok r
           /\ file r = filePath
           /\ List.length (issues r) = List.length result
           /\ (forall i msg, nth_error result i = Some msg ->
                 exists issue,
                   nth_error (issues r) i = Some issue
                   /\ message issue = lm_message msg
                   /\ (severity issue = "error" \/ severity issue = "warning")
                   /\ (severity issue = "error" <-> lm_severity msg = 2%N))
           /\ 1 <= lines (metrics r)
           /\ length content + 2 <= complexity (metrics r)).
Proof.
  cbv zeta. unfold analyzeCode, bind2, call2, ret2.
  rewrite <- ?app_assoc. cbn [app].
  repeat split.
  - intros e ->. reflexivity.
  - intros e -> Hlint. now rewrite Hlint.
  - intros e results -> Hlint Hread. rewrite Hlint.
    rewrite <- ?app_assoc. cbn [app]. now rewrite Hread.
  - intros content -> Hlint Hread. rewrite Hlint.
    rewrite <- ?app_assoc. cbn [app]. rewrite Hread. eexists. reflexivity.
  - intros result others content -> Hlint Hread. rewrite Hlint.
    rewrite <- ?app_assoc. cbn [app]. rewrite Hread.
    eexists. split; [reflexivity|]. cbn. repeat split.
    + apply length_map.
    + intros i msg Hmsg. exists (to_Issue msg).
      split; [now rewrite nth_error_map, Hmsg|]. split; [reflexivity|].
      unfold to_Issue. cbn [severity].
      destruct (N.eqb_spec (lm_severity msg) 2) as [E|E].
      * split; [now left | now split].
      * split; [now right|]. split; [discriminate | contradiction].
    + apply split_lines_length.
    + apply complexity_lower_bound.
Qed.

Lemma analyzeCode_result_witness :
  exists r,
    fst (analyzeCode (Sample.serving ("if (a || b) {" ++ nl ++ "}"))
           (Sample2.linting ["a.ts"] Sample2.two_messages) "a.ts" [])
    = Ok r
    /\ map severity (issues r) = ["error"; "warning"]
    /\ metrics r = {| lines := 2; functions := 0; complexity := 18 |}.
Proof.
  destruct (proj2 (proj2 (proj2 (proj2
              (analyzeCode_result (Sample.serving ("if (a || b) {" ++ nl ++ "}"))
                 (Sample2.linting ["a.ts"] Sample2.two_messages) "a.ts" []))))
              Sample2.two_messages [] ("if (a || b) {" ++ nl ++ "}") eq_refl eq_refl eq_refl)
    as (r & Hrun & _).
  exists r. split; [exact Hrun|].
  vm_compute in Hrun. injection Hrun as <-. split; reflexivity.
Defined.

End AnalyzeCodeProperties.

(** ** The cases of the switch *)

Section LiftFacts.
Import Eff Eff2 CaseCalls.

Lemma skipn_length_app {A : Type} (l e : list A) :
  skipn (List.length l) (l ++ e)%list = e.
Proof. induction l as [|x l IH]; simpl; [reflexivity | exact IH]. Qed.

Lemma base_app (t u : trace2) : base (t ++ u)%list = (base t ++ base u)%list.
Proof.
  induction t as [|c t IH]; simpl; [reflexivity|].
  destruct c; simpl; now rewrite IH.
Qed.

Lemma base_Old (evs : trace) : base (map Old evs) = evs.
Proof. induction evs as [|e evs IH]; simpl; [reflexivity | now rewrite IH]. Qed.

(** A lifted computation that extends the history by [evs] extends the
    larger history by the same calls. *)
Lemma lift_run {A : Type} (m : M A) (t : trace2) (r : Exn A) (evs : trace) :
  m (base t) = (r, (base t ++ evs)%list) ->
  lift m t = (r, (t ++ map Old evs)%list).
Proof. intros H. unfold lift. now rewrite H, skipn_length_app. Qed.

Lemma send_run (w : World) (text : string) (t : trace2) :
  Cases.send w text t = replied w t text.
Proof. unfold Cases.send, replied. now apply (lift_run _ t _ [EvSendActivity text]). Qed.

End LiftFacts.

Section ArgumentFacts.
Import Regex Text CommandText.
Local Open Scope regex_scope.

Lemma char_match_command_char (c a : ascii) :
  is_command_char c = true ->
  char_match true c a = Ascii.eqb c (Js.lower_char a).
Proof.
  destruct c as [[] [] [] [] [] [] [] []]; try discriminate; intros _;
    destruct a as [[] [] [] [] [] [] [] []]; reflexivity.
Qed.

Lemma lit_match_command (p s : string) :
  all_chars is_command_char p = true ->
  lit_match true p s = Js.startsWith p (Js.toLowerCase s).
Proof.
  revert s. induction p as [|c p IH]; intros [|a s] H;
    cbn [lit_match Js.startsWith Js.toLowerCase]; try reflexivity.
  cbn [all_chars] in H. apply andb_true_iff in H as [Hc Hp].
  now rewrite (char_match_command_char _ _ Hc), (IH _ Hp).
Qed.

(** A pattern that cannot match after a character matches at the start of
    the text or not at all. *)
Lemma exec_anchored (ic : bool) (r : regex) (s : string) :
  (forall a s', match_here ic r (Some a) s' = None) ->
  exec ic r s =
  match match_here ic r None s with
  | Some (s', caps) => Some {| m_index := 0; m_after := s'; m_groups := caps |}
  | None => None
  end.
Proof.
  intros Hr.
  assert (Hlater : forall a s', exec_from ic r (Some a) s' = None).
  { intros a s'. revert a. induction s' as [|b s' IH]; intros a; simpl; rewrite Hr.
    - reflexivity.
    - now rewrite IH. }
  unfold exec. destruct s as [|a s]; simpl.
  - now destruct (match_here ic r None "") as [[s' caps]|].
  - destruct (match_here ic r None (String a s)) as [[s' caps]|]; [reflexivity|].
    now rewrite Hlater.
Qed.

Lemma substring_0_0 (s : string) : substring 0 0 s = "".
Proof. now destruct s. Qed.

Lemma trimStart_drop_while (s : string) : Js.trimStart s = drop_while Js.is_space s.
Proof.
  induction s as [|a s IH]; simpl; [reflexivity|]. now destruct (Js.is_space a).
Qed.

Lemma drop_while_idem (p : ascii -> bool) (s : string) :
  drop_while p (drop_while p s) = drop_while p s.
Proof.
  induction s as [|a s IH]; simpl; [reflexivity|].
  destruct (p a) eqn:E; [exact IH | simpl; now rewrite E].
Qed.

Lemma trim_drop_while (s : string) : Js.trim (drop_while Js.is_space s) = Js.trim s.
Proof. unfold Js.trim. now rewrite !trimStart_drop_while, drop_while_idem. Qed.

(** [text.replace(/^word\s*/i, '').trim()]: the trimmed text after the word
    when the text starts with it in any letter case, the trimmed text
    otherwise. *)
Lemma argument_keyword (kw text : string) :
  all_chars is_command_char kw = true ->
  Cases.argument (Bol >> lit kw >> Star Js.is_space) text
  = if Js.startsWith kw (Js.toLowerCase text)
    then Js.trim (drop (length kw) text) else Js.trim text.
Proof.
  intros Hkw. unfold Cases.argument, remove_first.
  rewrite exec_anchored by reflexivity.
  unfold match_here. cbn [rmatch]. rewrite rmatch_lit, (lit_match_command _ _ Hkw).
  destruct (Js.startsWith kw (Js.toLowerCase text)); [|reflexivity].
  rewrite star_loop_total by discriminate. cbn [m_index m_after].
  rewrite substring_0_0. cbn [append]. now rewrite trim_drop_while.
Qed.

(** The same with two command words, the first tried first. *)
Lemma argument_two_keywords (k1 k2 text : string) :
  all_chars is_command_char k1 = true ->
  all_chars is_command_char k2 = true ->
  Cases.argument (Bol >> Group (lit k1 <|> lit k2) >> Star Js.is_space) text
  = if Js.startsWith k1 (Js.toLowerCase text) then Js.trim (drop (length k1) text)
    else if Js.startsWith k2 (Js.toLowerCase text) then Js.trim (drop (length k2) text)
    else Js.trim text.
Proof.
  intros H1 H2. unfold Cases.argument, remove_first.
  rewrite exec_anchored by reflexivity.
  unfold match_here. cbn [rmatch].
  rewrite !rmatch_lit, (lit_match_command _ _ H1), (lit_match_command _ _ H2).
  destruct (Js.startsWith k1 (Js.toLowerCase text)).
  - rewrite star_loop_total by discriminate. cbn [m_index m_after].
    rewrite substring_0_0. cbn [append]. now rewrite trim_drop_while.
  - destruct (Js.startsWith k2 (Js.toLowerCase text)); [|reflexivity].
    rewrite star_loop_total by discriminate. cbn [m_index m_after].
    rewrite substring_0_0. cbn [append]. now rewrite trim_drop_while.
Qed.

(** A rule of [detectIntent] anchored at the start holds only of a text that
    starts with its word. *)
Lemma test_anchored_lit (kw : string) (rest : regex) (t : string) :
  test false (Bol >> lit kw >> rest) t = true -> Js.startsWith kw t = true.
Proof.
  unfold test. rewrite exec_anchored by reflexivity.
  unfold match_here. cbn [rmatch]. rewrite rmatch_lit, lit_match_exact.
  now destruct (Js.startsWith kw t).
Qed.

Lemma test_anchored_word (kw : string) (t : string) :
  test false (Bol >> lit kw) t = true -> Js.startsWith kw t = true.
Proof.
  unfold test. rewrite exec_anchored by reflexivity.
  unfold match_here. cbn [rmatch]. rewrite rmatch_lit, lit_match_exact.
  now destruct (Js.startsWith kw t).
Qed.

End ArgumentFacts.

Section IntentWords.
Import Intent.

Ltac first_rule H :=
  unfold detectIntent in H;
  repeat match type of H with
         | (if ?b then _ else _) = _ => destruct b eqn:?; try discriminate H
         end.

Lemma intent_search (text : string) :
  detectIntent text = "search" -> Js.startsWith "search" (Js.toLowerCase text) = true.
Proof. intros H. first_rule H. now apply (test_anchored_lit "search" Regex.WordB). Qed.

Lemma intent_git_commit (text : string) :
  detectIntent text = "git_commit" -> Js.startsWith "commit" (Js.toLowerCase text) = true.
Proof. intros H. first_rule H. now apply test_anchored_word. Qed.

Lemma intent_git_branch (text : string) :
  detectIntent text = "git_branch" -> Js.startsWith "branch" (Js.toLowerCase text) = true.
Proof. intros H. first_rule H. now apply test_anchored_word. Qed.

End IntentWords.

Section GitCases.
Import Eff Eff2 CaseCalls Text.

Lemma createBranch_run (cfg : Config) (w : World) (name : string) (tr : trace) :
  exists success calls,
    ProjectManager.createBranch cfg w name tr = (Ok success, (tr ++ calls)%list)
    /\ (forall b, In (EvGitCheckoutLocalBranch b) calls -> b = name).
Proof.
  unfold ProjectManager.createBranch, ProjectManager.open_git. run_io.
  destruct (simpleGit w tr (projectRoot cfg)).
  - destruct (git_checkoutLocalBranch w _ name);
      eexists; eexists; (split; [rewrite <- ?app_assoc; reflexivity|]);
      intros b Hb; simpl in Hb; intuition congruence.
  - eexists; eexists; (split; [rewrite <- ?app_assoc; reflexivity|]).
    intros b Hb; simpl in Hb; intuition congruence.
Qed.

Lemma commitChanges_run (cfg : Config) (w : World) (message : string) (tr : trace) :
  exists success calls,
    ProjectManager.commitChanges cfg w message None tr = (Ok success, (tr ++ calls)%list)
    /\ (forall m, In (EvGitCommit m) calls -> m = message)
    /\ (forall fs, In (EvGitAdd fs) calls -> fs = ["."]).
Proof.
  unfold ProjectManager.commitChanges, ProjectManager.open_git. run_io.
  destruct (simpleGit w tr (projectRoot cfg)).
  - destruct (git_add w _ ["."]).
    + destruct (git_commit w _ message);
        eexists; eexists; (split; [rewrite <- ?app_assoc; reflexivity|]);
        split; intros x Hx; simpl in Hx; intuition congruence.
    + eexists; eexists; (split; [rewrite <- ?app_assoc; reflexivity|]);
        split; intros x Hx; simpl in Hx; intuition congruence.
  - eexists; eexists; (split; [rewrite <- ?app_assoc; reflexivity|]);
      split; intros x Hx; simpl in Hx; intuition congruence.
Qed.

(** X22.  The "branch" command.  When [detectIntent] gives "git_branch",
    the branch name is the text after its first six characters, trimmed.
    Without a name the only effect is the reply "Please specify branch name."
    and git is not touched.  With a name, [createBranch] runs with exactly
    that name (the only branch a checkout is asked for) and one reply
    follows, which reports the name on success and a failure otherwise. *)
Theorem case_git_branch_spec (sym : Symbols) (cfg : Config) (w : World)
        (text : string) (t : trace2) :
  Intent.detectIntent text = "git_branch" ->
  let name := Js.trim (drop 6 text) in
  (name = "" ->
     Cases.case_git_branch sym cfg w text t = replied w t "Please specify branch name.")
  /\ (name <> "" ->
      exists success calls,
        ProjectManager.createBranch cfg w name (base t)
        = (Ok success, (base t ++ calls)%list)
        /\ (forall b, In (EvGitCheckoutLocalBranch b) calls -> b = name)
        /\ Cases.case_git_branch sym cfg w text t
           = replied w (t ++ map Old calls)%list
               (if success
                then sym_check sym ++ " Created and switched to branch: " ++ name
                else sym_cross sym ++ " Branch creation failed")).
Proof.
  intros Hintent name. apply intent_git_branch in Hintent.
  assert (Harg : Cases.argument Cases.re_branch_arg text = name).
  { unfold Cases.re_branch_arg. rewrite argument_keyword by reflexivity.
    now rewrite Hintent. }
  unfold Cases.case_git_branch. rewrite Harg. split.
  - intros ->. apply send_run.
  - intros Hname. destruct name as [|a name'] eqn:E; [congruence|].
    destruct (createBranch_run cfg w (String a name') (base t))
      as (success & calls & Hrun & Hcalls).
    exists success, calls. split; [exact Hrun|]. split; [exact Hcalls|].
    unfold bind2. rewrite (lift_run _ _ _ _ Hrun). apply send_run.
Qed.

Lemma case_git_branch_spec_witness :
  Cases.case_git_branch Sample3.signs Sample.moderation_on (Sample.serving "") "Branch  " []
  = replied (Sample.serving "") [] "Please specify branch name."
  /\ exists success calls,
       ProjectManager.createBranch Sample.moderation_on (Sample2.git_ok Sample2.two_files)
                                   "feature/x" []
       = (Ok success, calls)
       /\ Cases.case_git_branch Sample3.signs Sample.moderation_on
                                (Sample2.git_ok Sample2.two_files) "BRANCH feature/x " []
          = replied (Sample2.git_ok Sample2.two_files) (map Old calls)
                    "[ok] Created and switched to branch: feature/x".
Proof.
  split.
  - apply (proj1 (case_git_branch_spec Sample3.signs Sample.moderation_on (Sample.serving "")
                    "Branch  " [] eq_refl)).
    reflexivity.
  - destruct (proj2 (case_git_branch_spec Sample3.signs Sample.moderation_on
                       (Sample2.git_ok Sample2.two_files) "BRANCH feature/x " [] eq_refl))
      as (success & calls & Hrun & _ & Hcase); [discriminate|].
    exists success, calls. split; [exact Hrun|].
    cbv in Hrun. injection Hrun as <- <-. exact Hcase.
Defined.

(** X23.  The "commit" command.  When [detectIntent] gives "git_commit",
    the commit message is the text after its first six characters, trimmed,
    or "Auto-commit via bot" when nothing is left; it is never empty.
    [commitChanges] runs with that message and no file list, so whatever is
    staged is "." and no other message is committed; exactly one reply
    follows, which quotes the message on success and reports a failure
    otherwise. *)
Theorem case_git_commit_spec (sym : Symbols) (cfg : Config) (w : World)
        (text : string) (t : trace2) :
  Intent.detectIntent text = "git_commit" ->
  let message := Cases.or_else (Js.trim (drop 6 text)) "Auto-commit via bot" in
  message <> ""
  /\ exists success calls,
       ProjectManager.commitChanges cfg w message None (base t)
       = (Ok success, (base t ++ calls)%list)
       /\ (forall m, In (EvGitCommit m) calls -> m = message)
       /\ (forall fs, In (EvGitAdd fs) calls -> fs = ["."])
       /\ Cases.case_git_commit sym cfg w text t
          = replied w (t ++ map Old calls)%list
              (if success
               then sym_check sym ++ " Committed with message: "
                    ++ Cases.dquote ++ message ++ Cases.dquote
               else sym_cross sym ++ " Commit failed").
Proof.
  intros Hintent message. apply intent_git_commit in Hintent.
  assert (Harg : Cases.argument Cases.re_commit_arg text = Js.trim (drop 6 text)).
  { unfold Cases.re_commit_arg. rewrite argument_keyword by reflexivity.
    now rewrite Hintent. }
  split.
  - unfold message. now destruct (Js.trim (drop 6 text)).
  - unfold Cases.case_git_commit. rewrite Harg. fold message.
    destruct (commitChanges_run cfg w message (base t))
      as (success & calls & Hrun & Hm & Hfs).
    exists success, calls. repeat (split; [assumption|]).
    unfold bind2. rewrite (lift_run _ _ _ _ Hrun). apply send_run.
Qed.

Lemma case_git_commit_spec_witness :
  exists success calls,
    ProjectManager.commitChanges Sample.moderation_on (Sample2.git_ok Sample2.two_files)
                                 "Auto-commit via bot" None []
    = (Ok success, calls)
    /\ Cases.case_git_commit Sample3.signs Sample.moderation_on
                             (Sample2.git_ok Sample2.two_files) "commit   " []
       = replied (Sample2.git_ok Sample2.two_files) (map Old calls)
                 ("[ok] Committed with message: " ++ Cases.dquote
                  ++ "Auto-commit via bot" ++ Cases.dquote).
Proof.
  destruct (proj2 (case_git_commit_spec Sample3.signs Sample.moderation_on
                     (Sample2.git_ok Sample2.two_files) "commit   " [] eq_refl))
    as (success & calls & Hrun & _ & _ & Hcase).
  exists success, calls. split; [exact Hrun|].
  cbv in Hrun. injection Hrun as <- <-. exact Hcase.
Defined.

End GitCases.

Section ServiceCases.
Import Eff Eff2 CaseCalls Text.

Lemma webSearch_run (scfg : ServiceConfig) (s : Services) (q : Uri.utf16) (escaped : string)
      (count : Z) (t : trace2) :
  Uri.encodeURIComponent q = Ok escaped ->
  exists results calls,
    WebSearch.webSearch scfg s q count t = (Ok results, (t ++ calls)%list)
    /\ ((0 <= count)%Z -> List.length results <= Z.to_nat count)
    /\ filter is_model calls = []
    /\ filter is_reply calls = []
    /\ (Js.truthy (bingSearchApiKey scfg) = false -> results = [] /\ calls = []).
Proof.
  intros Henc. unfold WebSearch.webSearch. rewrite Henc.
  destruct (bingSearchApiKey scfg) as [[|a k]|].
  - exists [], []. rewrite app_nil_r. repeat split; simpl; lia.
  - unfold try_catch2, bind2, call2, console2, ret2.
    destruct (bing_get s t _ _) as [value|e].
    + eexists; eexists. split; [reflexivity|].
      split; [intros Hc; rewrite length_map;
              destruct (slice_to_length count (match value with Some l => l | None => [] end))
                as (_ & Hmin & _); rewrite (Hmin Hc); lia|].
      repeat split; try reflexivity; discriminate.
    + eexists; eexists. split; [rewrite <- ?app_assoc; reflexivity|].
      split; [simpl; lia|]. repeat split; try reflexivity; discriminate.
  - exists [], []. rewrite app_nil_r. repeat split; simpl; lia.
Qed.

(** X24.  The "search" command.  From the query on: with a search key and
    a query that cannot be escaped (a surrogate without its partner) the case
    throws the [URIError] and nothing is called or replied.  On a Latin-1 text
    for which [detectIntent] gives "search", the query is the text after its
    first six characters, trimmed; it can be escaped, and at most three
    results are asked for.  Without results (in particular without a search
    key, when nothing at all is called) the only reply is "No web results or
    search API key missing." and the model is not asked.  With results the
    model is asked once for a summary; if that call fails the failure is
    thrown and nothing is replied; otherwise the one reply is the trimmed
    summary followed by the "Sources:" block of the results. *)
Theorem case_search_spec (scfg : ServiceConfig) (w : World) (s : Services)
        (text : string) (t : trace2) :
  (forall q key e,
      bingSearchApiKey scfg = Some key -> key <> "" ->
      Uri.encodeURIComponent q = Throw e ->
      Cases.search_reply scfg w s q t = (Throw e, t))
  /\ (Intent.detectIntent text = "search" ->
      let q := Uri.of_string (Js.trim (drop 6 text)) in
      Cases.case_search scfg w s text t = Cases.search_reply scfg w s q t
      /\ exists escaped results calls,
           Uri.encodeURIComponent q = Ok escaped
           /\ WebSearch.webSearch scfg s q 3 t = (Ok results, (t ++ calls)%list)
           /\ List.length results <= 3
           /\ filter is_model calls = []
           /\ (Js.truthy (bingSearchApiKey scfg) = false -> results = [] /\ calls = [])
           /\ (results = [] ->
               Cases.case_search scfg w s text t
               = replied w (t ++ calls)%list "No web results or search API key missing.")
           /\ (results <> [] ->
               let prompt := Cases.summary_prompt results in
               (forall e, completeChat s (t ++ calls)%list prompt = Throw e ->
                          Cases.case_search scfg w s text t
                          = (Throw e, (t ++ calls ++ [CompleteChat prompt])%list))
               /\ (forall output, completeChat s (t ++ calls)%list prompt = Ok output ->
                          Cases.case_search scfg w s text t
                          = replied w (t ++ calls ++ [CompleteChat prompt])%list
                              (Js.trim output ++ nl ++ nl ++ "Sources:" ++ nl
                               ++ Js.join nl (Search.map_index Search.citation 0 results))))).
Proof.
  split.
  - intros q key e Hkey Hne Henc.
    unfold Cases.search_reply, bind2, WebSearch.webSearch. rewrite Hkey.
    destruct key as [|a k]; [contradiction|]. now rewrite Henc.
  - intros Hintent q. apply intent_search in Hintent.
    assert (Harg : Cases.argument Cases.re_search_arg text = Js.trim (drop 6 text)).
    { unfold Cases.re_search_arg. rewrite argument_keyword by reflexivity.
      now rewrite Hintent. }
    assert (Hcase0 : Cases.case_search scfg w s text t = Cases.search_reply scfg w s q t).
    { unfold Cases.case_search. now rewrite Harg. }
    split; [exact Hcase0|].
    destruct (latin1_escapes (Js.trim (drop 6 text))) as [escaped Henc]. fold q in Henc.
    destruct (webSearch_run scfg s q escaped 3 t Henc)
      as (results & calls & Hrun & Hlen & Hmodel & _ & Hkey).
    exists escaped, results, calls. split; [exact Henc|]. split; [exact Hrun|].
    split; [apply Hlen; lia|]. split; [exact Hmodel|]. split; [exact Hkey|].
    assert (Hcase : Cases.case_search scfg w s text t
                    = match results with
                      | [] => Cases.send w "No web results or search API key missing."
                      | _ =>
                          output <~ call2 (CompleteChat (Cases.summary_prompt results))
                                          (fun t => completeChat s t
                                                      (Cases.summary_prompt results)) ;;
                          Cases.send w (Search.formatCitedResponse (Js.trim output) results)
                      end (t ++ calls)%list).
    { rewrite Hcase0. unfold Cases.search_reply. unfold bind2 at 1. now rewrite Hrun. }
    rewrite Hcase. split.
    + intros ->. apply send_run.
    + intros Hne. destruct results as [|r results]; [congruence|].
      unfold bind2, call2. split.
      * intros e He. rewrite He. now rewrite <- app_assoc.
      * intros output Hout. rewrite Hout, send_run. now rewrite <- app_assoc.
Qed.

Lemma case_search_spec_witness :
  Cases.search_reply Sample2.with_keys (Sample.serving "") Sample2.silent
                     [104; 55357; 105]%N []
  = (Throw Uri.malformed, [])
  /\ Cases.case_search Sample2.no_keys (Sample.serving "") Sample2.silent "Search  rocq " []
     = replied (Sample.serving "") [] "No web results or search API key missing.".
Proof.
  split.
  - apply (proj1 (case_search_spec Sample2.with_keys (Sample.serving "") Sample2.silent "" [])
                 [104; 55357; 105]%N "bing-key" Uri.malformed eq_refl);
      [discriminate | reflexivity].
  - destruct (proj2 (case_search_spec Sample2.no_keys (Sample.serving "") Sample2.silent
                       "Search  rocq " []) eq_refl)
      as (_ & escaped & results & calls & _ & _ & _ & _ & Hkey & Hnone & _).
    destruct (Hkey eq_refl) as [-> ->]. exact (Hnone eq_refl).
Defined.

Lemma reviewCode_run (scfg : ServiceConfig) (s : Services) (code language : string)
      (t : trace2) :
  exists review calls,
    Assistant.reviewCode scfg s code language t = (Ok review, (t ++ calls)%list)
    /\ filter is_reply calls = []
    /\ (Js.truthy (azureOpenAIKey scfg) = false ->
        review = Assistant.review_unavailable /\ calls = []).
Proof.
  unfold Assistant.reviewCode.
  destruct (azureOpenAIKey scfg) as [[|a k]|].
  - exists Assistant.review_unavailable, []. rewrite app_nil_r. now repeat split.
  - unfold try_catch2, bind2, call2, console2, ret2.
    destruct (chat_post s t _ _ _) as [content|e].
    + eexists; eexists. split; [reflexivity|]. split; [reflexivity | discriminate].
    + eexists; eexists. split; [rewrite <- ?app_assoc; reflexivity|].
      split; [reflexivity | discriminate].
  - exists Assistant.review_unavailable, []. rewrite app_nil_r. now repeat split.
Qed.

Lemma generateCode_run (scfg : ServiceConfig) (s : Services) (requirements language : string)
      (t : trace2) :
  exists code calls,
    Assistant.generateCode scfg s requirements language t = (Ok code, (t ++ calls)%list)
    /\ filter is_reply calls = []
    /\ (Js.truthy (azureOpenAIKey scfg) = false ->
        code = "// Code generation unavailable - missing API key" /\ calls = []).
Proof.
  unfold Assistant.generateCode.
  destruct (azureOpenAIKey scfg) as [[|a k]|].
  - eexists; exists []. rewrite app_nil_r. now repeat split.
  - unfold try_catch2, bind2, call2, console2, ret2.
    destruct (chat_post s t _ _ _) as [content|e].
    + eexists; eexists. split; [reflexivity|]. split; [reflexivity | discriminate].
    + eexists; eexists. split; [rewrite <- ?app_assoc; reflexivity|].
      split; [reflexivity | discriminate].
  - eexists; exists []. rewrite app_nil_r. now repeat split.
Qed.

(** X25.  The "review code" command.  The code to review is the trimmed
    text after the command when the text starts with "review code" or "code
    review" in any letter case, and the whole trimmed text otherwise (the
    intent also fires on "code review" further inside the text, and then the
    command words are reviewed with the rest).  Without code the only reply
    asks for it and the model is not called.  With code, [reviewCode] runs on
    it as TypeScript and one reply renders its result; without a model key
    that is the fixed "unavailable" review and nothing else is called. *)
Theorem case_code_review_spec (sym : Symbols) (scfg : ServiceConfig) (w : World)
        (s : Services) (text : string) (t : trace2) :
  let lower := Js.toLowerCase text in
  let code := if Js.startsWith "review code" lower || Js.startsWith "code review" lower
              then Js.trim (drop 11 text) else Js.trim text in
  (code = "" ->
     Cases.case_code_review sym scfg w s text t
     = replied w t "Please provide code to review after the command.")
  /\ (code <> "" ->
      exists review calls,
        Assistant.reviewCode scfg s code "typescript" t = (Ok review, (t ++ calls)%list)
        /\ filter is_reply calls = []
        /\ (Js.truthy (azureOpenAIKey scfg) = false ->
            review = Assistant.review_unavailable /\ calls = [])
        /\ Cases.case_code_review sym scfg w s text t
           = replied w (t ++ calls)%list (Cases.review_reply sym review)).
Proof.
  intros lower code.
  assert (Harg : Cases.argument Cases.re_review_arg text = code).
  { unfold Cases.re_review_arg. rewrite argument_two_keywords by reflexivity.
    unfold code, lower.
    destruct (Js.startsWith "review code" (Js.toLowerCase text));
      destruct (Js.startsWith "code review" (Js.toLowerCase text)); reflexivity. }
  unfold Cases.case_code_review. rewrite Harg. split.
  - intros ->. apply send_run.
  - intros Hne. destruct code as [|a code'] eqn:E; [congruence|].
    destruct (reviewCode_run scfg s (String a code') "typescript" t)
      as (review & calls & Hrun & Hreply & Hkey).
    exists review, calls. repeat (split; [assumption|]).
    unfold bind2. rewrite Hrun. apply send_run.
Qed.

Lemma case_code_review_spec_witness :
  Cases.case_code_review Sample3.signs Sample2.no_keys (Sample.serving "") Sample2.silent
                         "Review Code   " []
  = replied (Sample.serving "") [] "Please provide code to review after the command."
  /\ Cases.case_code_review Sample3.signs Sample2.no_keys (Sample.serving "") Sample2.silent
                            "a code review of: x = 1" []
     = replied (Sample.serving "") []
               (Cases.review_reply Sample3.signs Assistant.review_unavailable).
Proof.
  split.
  - apply (proj1 (case_code_review_spec Sample3.signs Sample2.no_keys (Sample.serving "")
                    Sample2.silent "Review Code   " [])).
    reflexivity.
  - destruct (proj2 (case_code_review_spec Sample3.signs Sample2.no_keys (Sample.serving "")
                       Sample2.silent "a code review of: x = 1" []))
      as (review & calls & _ & _ & Hkey & Hcase); [discriminate|].
    destruct (Hkey eq_refl) as [-> ->]. exact Hcase.
Defined.

(** X26.  The "generate code" command.  The requirements are the trimmed
    text after "generate code" or "create code" when the text starts with one
    of them in any letter case, and the whole trimmed text otherwise.
    Without requirements the only reply asks for them and the model is not
    called.  With requirements, [generateCode] runs on them as TypeScript and
    one reply carries its text inside a "typescript" code fence: the model's
    code, or without a model key the line that says so. *)
Theorem case_code_generate_spec (sym : Symbols) (scfg : ServiceConfig) (w : World)
        (s : Services) (text : string) (t : trace2) :
  let lower := Js.toLowerCase text in
  let requirements :=
    if Js.startsWith "generate code" lower then Js.trim (drop 13 text)
    else if Js.startsWith "create code" lower then Js.trim (drop 11 text)
    else Js.trim text in
  (requirements = "" ->
     Cases.case_code_generate sym scfg w s text t
     = replied w t "Please specify requirements for code generation.")
  /\ (requirements <> "" ->
      exists code calls,
        Assistant.generateCode scfg s requirements "typescript" t
        = (Ok code, (t ++ calls)%list)
        /\ filter is_reply calls = []
        /\ (Js.truthy (azureOpenAIKey scfg) = false ->
            code = "// Code generation unavailable - missing API key" /\ calls = [])
        /\ Cases.case_code_generate sym scfg w s text t
           = replied w (t ++ calls)%list
               (sym_tools sym ++ " **Generated Code:**" ++ nl ++ nl
                ++ "```typescript" ++ nl ++ code ++ nl ++ "```")).
Proof.
  intros lower requirements.
  assert (Harg : Cases.argument Cases.re_generate_arg text = requirements).
  { unfold Cases.re_generate_arg. now rewrite argument_two_keywords by reflexivity. }
  unfold Cases.case_code_generate. rewrite Harg. split.
  - intros ->. apply send_run.
  - intros Hne. destruct requirements as [|a req'] eqn:E; [congruence|].
    destruct (generateCode_run scfg s (String a req') "typescript" t)
      as (code & calls & Hrun & Hreply & Hkey).
    exists code, calls. repeat (split; [assumption|]).
    unfold bind2. rewrite Hrun. apply send_run.
Qed.

Lemma case_code_generate_spec_witness :
  Cases.case_code_generate Sample3.signs Sample2.no_keys (Sample.serving "") Sample2.silent
                           "Create code" []
  = replied (Sample.serving "") [] "Please specify requirements for code generation."
  /\ Cases.case_code_generate Sample3.signs Sample2.no_keys (Sample.serving "") Sample2.silent
                              "generate code: a queue" []
     = replied (Sample.serving "") []
               ("[code] **Generated Code:**" ++ nl ++ nl ++ "```typescript" ++ nl
                ++ "// Code generation unavailable - missing API key" ++ nl ++ "```").
Proof.
  split.
  - apply (proj1 (case_code_generate_spec Sample3.signs Sample2.no_keys (Sample.serving "")
                    Sample2.silent "Create code" [])).
    reflexivity.
  - destruct (proj2 (case_code_generate_spec Sample3.signs Sample2.no_keys
                       (Sample.serving "") Sample2.silent "generate code: a queue" []))
      as (code & calls & _ & _ & Hkey & Hcase); [discriminate|].
    destruct (Hkey eq_refl) as [-> ->]. exact Hcase.
Defined.

End ServiceCases.

Section AnalysisCase.
Import Eff Eff2 CaseCalls Text.

Lemma findProjectFiles_run (s : Services) (pattern rootDir : string) (t : trace2) :
  exists files calls,
    Assistant.findProjectFiles s pattern rootDir t = (Ok files, (t ++ calls)%list)
    /\ filter is_lint calls = [] /\ filter is_reply calls = [].
Proof.
  unfold Assistant.findProjectFiles, try_catch2, bind2, call2, console2, ret2.
  destruct (glob s t pattern rootDir) as [files|e].
  - eexists; eexists. split; [reflexivity|]. now split.
  - eexists; eexists. split; [rewrite <- ?app_assoc; reflexivity|]. now split.
Qed.

(** One analysis lints its file once at most and replies nothing. *)
Lemma analyzeCode_run (w : World) (s : Services) (f : string) (t : trace2) :
  exists r calls,
    Analysis.analyzeCode w s f t = (r, (t ++ calls)%list)
    /\ List.length (filter is_lint calls) <= 1
    /\ (forall g, In (LintFiles g) calls -> g = f)
    /\ filter is_reply calls = []
    /\ (forall a, r = Ok a -> List.length (filter is_lint calls) = 1).
Proof.
  unfold Analysis.analyzeCode, bind2, call2, ret2.
  destruct (new_ESLint s t) as [[]|e].
  - destruct (eslint_lintFiles s _ f) as [results|e].
    + destruct (fs_readFileSync_utf8 w _ f) as [content|e].
      * destruct results as [|result others];
          eexists; eexists; (split; [rewrite <- ?app_assoc; reflexivity|]);
          (split; [simpl; lia|]);
          (split; [intros g Hg; simpl in Hg; intuition congruence|]);
          (split; [reflexivity|]); intros a Ha; reflexivity.
      * eexists; eexists; (split; [rewrite <- ?app_assoc; reflexivity|]);
          (split; [simpl; lia|]);
          (split; [intros g Hg; simpl in Hg; intuition congruence|]);
          (split; [reflexivity|]); intros a Ha; discriminate.
    + eexists; eexists; (split; [rewrite <- ?app_assoc; reflexivity|]);
        (split; [simpl; lia|]);
        (split; [intros g Hg; simpl in Hg; intuition congruence|]);
        (split; [reflexivity|]); intros a Ha; discriminate.
  - exists (Throw e), [NewESLint]. split; [reflexivity|].
    split; [simpl; lia|].
    split; [intros g Hg; simpl in Hg; intuition congruence|].
    split; [reflexivity|]. intros a Ha; discriminate.
Qed.

Lemma filter_app_nil {A : Type} (p : A -> bool) (l1 l2 : list A) :
  filter p l1 = [] -> filter p l2 = [] -> filter p (l1 ++ l2)%list = [].
Proof. intros H1 H2. now rewrite filter_app, H1, H2. Qed.

(** The loop over the files: it stops at the first analysis that throws. *)
Lemma analyze_files_run (w : World) (s : Services) (files : list string) :
  forall (results : list string) (t : trace2),
  exists r calls,
    Cases.analyze_files w s files results t = (r, (t ++ calls)%list)
    /\ List.length (filter is_lint calls) <= List.length files
    /\ (forall g, In (LintFiles g) calls -> In g files)
    /\ filter is_reply calls = []
    /\ (forall out, r = Ok out ->
          List.length out = List.length results + List.length files
          /\ List.length (filter is_lint calls) = List.length files).
Proof.
  induction files as [|f files IH]; intros results t.
  - exists (Ok results), []. cbn. rewrite app_nil_r. split; [reflexivity|].
    split; [lia|]. split; [tauto|]. split; [reflexivity|].
    intros out Hout. injection Hout as <-. lia.
  - cbn [Cases.analyze_files]. unfold bind2.
    destruct (analyzeCode_run w s f t) as (r1 & c1 & Hrun1 & Hn1 & Hin1 & Hrep1 & Hok1).
    rewrite Hrun1. destruct r1 as [a|e].
    + destruct (IH (results ++ [Cases.analysis_entry f a])%list (t ++ c1)%list)
        as (r & c2 & Hrun & Hn & Hin & Hrep & Hok).
      exists r, (c1 ++ c2)%list. rewrite Hrun, app_assoc. split; [reflexivity|].
      rewrite filter_app, length_app. cbn [List.length].
      split; [lia|]. split.
      * intros g Hg. apply in_app_or in Hg as [Hg|Hg];
          [left; symmetry; now apply Hin1 | right; now apply Hin].
      * split; [now apply filter_app_nil|].
        intros out Hout. destruct (Hok out Hout) as [Hlen Hlint].
        rewrite length_app in Hlen. cbn in Hlen. specialize (Hok1 a eq_refl). lia.
    + exists (Throw e), c1. split; [reflexivity|]. cbn [List.length].
      split; [lia|]. split; [intros g Hg; left; symmetry; now apply Hin1|].
      split; [assumption|]. intros out Hout. discriminate.
Qed.

(** X27.  The "analyze" command.  The glob pattern is the trimmed text
    after "analyze" when the text starts with it in any letter case, the whole
    trimmed text otherwise, and "**/*.ts" when that is empty; it is never
    empty, and it is searched under the project root.  Without files (also
    when the search fails) the only reply is "No files found matching
    pattern." and nothing is linted.  Otherwise only the first three files
    are analysed: at most three lint calls, each on one of them, and no reply
    in between.  If an analysis throws, the command throws and nothing is
    replied; if all succeed there is one result per analysed file and one
    reply that joins them. *)
Theorem case_code_analysis_spec (sym : Symbols) (cfg : Config) (w : World) (s : Services)
        (text : string) (t : trace2) :
  let pattern :=
    Cases.or_else (if Js.startsWith "analyze" (Js.toLowerCase text)
                   then Js.trim (drop 7 text) else Js.trim text) "**/*.ts" in
  pattern <> ""
  /\ exists files calls,
       Assistant.findProjectFiles s pattern (projectRoot cfg) t
       = (Ok files, (t ++ calls)%list)
       /\ filter is_lint calls = []
       /\ (files = [] ->
           Cases.case_code_analysis sym cfg w s text t
           = replied w (t ++ calls)%list "No files found matching pattern.")
       /\ (files <> [] ->
           exists r calls2,
             Cases.analyze_files w s (firstn 3 files) [] (t ++ calls)%list
             = (r, (t ++ calls ++ calls2)%list)
             /\ List.length (filter is_lint calls2) <= 3
             /\ (forall g, In (LintFiles g) calls2 -> In g (firstn 3 files))
             /\ filter is_reply calls2 = []
             /\ match r with
                | Throw e =>
                    Cases.case_code_analysis sym cfg w s text t
                    = (Throw e, (t ++ calls ++ calls2)%list)
                | Ok results =>
                    List.length results = Nat.min 3 (List.length files)
                    /\ List.length (filter is_lint calls2) = Nat.min 3 (List.length files)
                    /\ Cases.case_code_analysis sym cfg w s text t
                       = replied w (t ++ calls ++ calls2)%list
                           (sym_chart sym ++ " **Code Analysis Results:**" ++ nl ++ nl
                            ++ Js.join (nl ++ nl) results)
                end).
Proof.
  intros pattern.
  assert (Harg : Cases.or_else (Cases.argument Cases.re_analyze_arg text) "**/*.ts"
                 = pattern).
  { unfold Cases.re_analyze_arg. now rewrite argument_keyword by reflexivity. }
  split.
  - unfold pattern. now destruct (if Js.startsWith "analyze" (Js.toLowerCase text)
                                  then Js.trim (drop 7 text) else Js.trim text).
  - destruct (findProjectFiles_run s pattern (projectRoot cfg) t)
      as (files & calls & Hrun & Hlint & _).
    exists files, calls. repeat (split; [assumption|]).
    assert (Hcase : Cases.case_code_analysis sym cfg w s text t
                    = match files with
                      | [] => Cases.send w "No files found matching pattern."
                      | _ =>
                          results <~ Cases.analyze_files w s (firstn 3 files) [] ;;
                          Cases.send w (sym_chart sym ++ " **Code Analysis Results:**"
                                        ++ nl ++ nl ++ Js.join (nl ++ nl) results)
                      end (t ++ calls)%list).
    { unfold Cases.case_code_analysis. rewrite Harg. unfold bind2 at 1. now rewrite Hrun. }
    rewrite Hcase. split.
    + intros ->. apply send_run.
    + intros Hne. destruct files as [|f files]; [congruence|].
      destruct (analyze_files_run w s (firstn 3 (f :: files)) [] (t ++ calls)%list)
        as (r & calls2 & Hrun2 & Hn & Hin & Hrep & Hok).
      rewrite length_firstn in Hn.
      exists r, calls2. rewrite <- app_assoc in Hrun2.
      split; [exact Hrun2|]. split; [lia|]. split; [exact Hin|]. split; [exact Hrep|].
      unfold bind2. rewrite Hrun2. destruct r as [results|e]; [|reflexivity].
      destruct (Hok results eq_refl) as [Hlen Hcount].
      rewrite length_firstn in Hlen, Hcount. cbn [List.length] in Hlen.
      split; [exact Hlen|]. split; [exact Hcount|]. apply send_run.
Qed.

Lemma case_code_analysis_spec_witness :
  Cases.case_code_analysis Sample3.signs Sample.moderation_on (Sample.serving "")
                           Sample2.silent "analyze" []
  = replied (Sample.serving "") [Glob "**/*.ts" "/repo"; Old (EvConsole "File search failed:")]
            "No files found matching pattern."
  /\ exists results calls2,
       Cases.case_code_analysis Sample3.signs Sample.moderation_on (Sample.serving "x")
         (Sample2.linting ["a.ts"; "b.ts"; "c.ts"; "d.ts"] []) "Analyze src/*.ts" []
       = replied (Sample.serving "x") (Glob "src/*.ts" "/repo" :: calls2)
                 ("[chart] **Code Analysis Results:**" ++ nl ++ nl
                  ++ Js.join (nl ++ nl) results)
       /\ List.length results = 3
       /\ filter is_lint calls2 = [LintFiles "a.ts"; LintFiles "b.ts"; LintFiles "c.ts"].
Proof.
  split.
  - destruct (case_code_analysis_spec Sample3.signs Sample.moderation_on (Sample.serving "")
                Sample2.silent "analyze" [])
      as (_ & files & calls & Hrun & _ & Hnone & _).
    cbv in Hrun. injection Hrun as <- <-. exact (Hnone eq_refl).
  - destruct (case_code_analysis_spec Sample3.signs Sample.moderation_on (Sample.serving "x")
                (Sample2.linting ["a.ts"; "b.ts"; "c.ts"; "d.ts"] []) "Analyze src/*.ts" [])
      as (_ & files & calls & Hrun & _ & _ & Hsome).
    cbv in Hrun. injection Hrun as <- <-.
    destruct (Hsome ltac:(discriminate)) as (r & calls2 & Hrun2 & _ & _ & _ & Hcase).
    vm_compute in Hrun2. injection Hrun2 as <- <-.
    destruct Hcase as (Hlen & _ & Hcase).
    eexists; eexists. split; [exact Hcase|]. split; reflexivity.
Defined.

End AnalysisCase.

(** ** The source files and the metrics of the project *)

Section SourceFileFacts.
Import SourceFiles Text ProjectText.

Lemma rev_string_rev (a b s : string) :
  Js.rev_string a (Js.rev_string b s) = Js.rev_string (s ++ a) b.
Proof.
  revert a b. induction s as [|c s IH]; intros a b; simpl; [reflexivity|].
  now rewrite IH.
Qed.

Lemma rev_string_involutive (s : string) : Js.rev_string "" (Js.rev_string "" s) = s.
Proof. rewrite rev_string_rev. simpl. apply append_nil_r. Qed.

Lemma all_chars_rev (p : ascii -> bool) (acc s : string) :
  all_chars p (Js.rev_string acc s) = all_chars p s && all_chars p acc.
Proof.
  revert acc. induction s as [|c s IH]; intros acc; simpl; [reflexivity|].
  rewrite IH. simpl. destruct (p c), (all_chars p s), (all_chars p acc); reflexivity.
Qed.

Lemma take_while_whole (p : ascii -> bool) (s : string) :
  all_chars p s = true -> take_while p s = s.
Proof.
  induction s as [|c s IH]; simpl; [reflexivity|].
  intros H. apply andb_true_iff in H as [Hc Hs]. now rewrite Hc, IH.
Qed.

Lemma drop_while_none (p : ascii -> bool) (s : string) :
  all_chars (fun a => negb (p a)) s = true -> drop_while p s = s.
Proof.
  destruct s as [|c s]; simpl; [reflexivity|].
  intros H. apply andb_true_iff in H as [Hc _]. now destruct (p c).
Qed.

Lemma last_part_no_slash (item : string) :
  no_slash item = true -> last_part item = item.
Proof.
  intros H. unfold last_part, no_slash in *.
  assert (Hr : all_chars (fun a => negb (is_slash a)) (Js.rev_string "" item) = true)
    by (rewrite all_chars_rev, H; reflexivity).
  rewrite (drop_while_none _ _ Hr), (take_while_whole _ _ Hr).
  apply rev_string_involutive.
Qed.

Lemma from_last_dot_suffix (s r : string) :
  from_last_dot s = Some r -> exists pre, s = pre ++ r.
Proof.
  revert r. induction s as [|a s IH]; intros r; simpl; [discriminate|].
  destruct (from_last_dot s) as [r'|].
  - intros H. injection H as <-. destruct (IH r' eq_refl) as [pre ->].
    now exists (String a pre).
  - destruct (Ascii.eqb a "."); [|discriminate].
    intros H. injection H as <-. now exists "".
Qed.

Lemma from_last_dot_append (u v r : string) :
  from_last_dot v = Some r -> from_last_dot (u ++ v) = Some r.
Proof.
  intros H. induction u as [|a u IH]; simpl; [exact H | now rewrite IH].
Qed.

Lemma array_includes_In (x : string) (xs : list string) :
  array_includes x xs = true <-> In x xs.
Proof.
  unfold array_includes. rewrite existsb_exists. split.
  - intros (y & Hy & E). apply String.eqb_eq in E. now subst.
  - intros H. exists x. split; [exact H | apply String.eqb_refl].
Qed.

Lemma extension_from_last_dot (ext : string) :
  In ext extensions -> from_last_dot ext = Some ext /\ 2 <= length ext.
Proof.
  unfold extensions. simpl.
  intros H. repeat (destruct H as [<- | H]; [split; [reflexivity | simpl; lia]|]).
  contradiction.
Qed.

Lemma eqb_dot_long (s : string) : 2 <= length s -> String.eqb s "." = false.
Proof.
  destruct s as [|a [|b s]]; simpl; try lia. intros _.
  now destruct (Ascii.eqb a ".").
Qed.

(** Which names count: a non-empty stem followed by one of the
    extensions, in exactly that spelling. *)
Lemma is_source_spec (item : string) :
  no_slash item = true ->
  (is_source item = true <->
   exists stem ext, stem <> "" /\ In ext extensions /\ item = stem ++ ext).
Proof.
  intros Hns. unfold is_source, extname. rewrite (last_part_no_slash _ Hns).
  rewrite array_includes_In. split.
  - destruct item as [|a rest]; [simpl; intuition discriminate|].
    destruct (from_last_dot rest) as [ext|] eqn:E; [|simpl; intuition discriminate].
    destruct (Ascii.eqb a "." && String.eqb rest "."); [simpl; intuition discriminate|].
    intros Hin. destruct (from_last_dot_suffix _ _ E) as [pre ->].
    exists (String a pre), ext. repeat split; [discriminate | exact Hin].
  - intros (stem & ext & Hstem & Hin & ->).
    destruct stem as [|a stem]; [congruence|]. cbn [append].
    destruct (extension_from_last_dot _ Hin) as [Hdot Hlen].
    rewrite (from_last_dot_append stem _ _ Hdot).
    rewrite eqb_dot_long by (rewrite length_append; lia).
    now rewrite andb_false_r.
Qed.

Lemma walkDir_skipped (join : string -> string -> string) (currentPath : string) (n : node) :
  skipped currentPath = true -> walkDir join currentPath n = [].
Proof. intros H. destruct n; cbn [walkDir]; now rewrite H. Qed.

(** An item [statSync] fails on hides everything listed after it in its
    directory. *)
Lemma walkDir_stops_at_NoStat (join : string -> string -> string) (currentPath item : string)
      (before after : list (string * node)) :
  walkDir join currentPath (Dir (Some (before ++ (item, NoStat) :: after)%list))
  = walkDir join currentPath (Dir (Some before)).
Proof.
  cbn [walkDir]. destruct (skipped currentPath); [reflexivity|].
  induction before as [|[x child] before IH]; [reflexivity|].
  cbn [app]. destruct child; [ | reflexivity | ]; now rewrite IH.
Qed.

(** Induction on the tree with the hypothesis for every listed item. *)
Lemma node_tree_ind (P : node -> Prop) :
  P File -> P NoStat -> P (Dir None) ->
  (forall items, Forall (fun p => P (snd p)) items -> P (Dir (Some items))) ->
  forall n, P n.
Proof.
  intros HF HN HD0 HD.
  fix IH 1. intros [| |[items|]]; [exact HF | exact HN | | exact HD0].
  apply HD. induction items as [|[x child] items IHitems]; constructor.
  - apply IH.
  - exact IHitems.
Qed.

(** Every file found is a listed name with a source extension, joined to
    a directory that is not skipped. *)
Lemma walkDir_found (join : string -> string -> string) (n : node) :
  forall currentPath file,
    In file (walkDir join currentPath n) ->
    exists parent item,
      file = join parent item /\ is_source item = true /\ skipped parent = false.
Proof.
  induction n as [| | |items IH] using node_tree_ind; intros currentPath file;
    cbn [walkDir]; destruct (skipped currentPath) eqn:Hskip; try contradiction.
  induction IH as [|[x child] items Hchild _ IHitems]; [contradiction|].
  destruct child as [| |listing].
  - destruct (array_includes (extname x) extensions) eqn:Hext.
    + intros [<- | Hin]; [now exists currentPath, x | now apply IHitems].
    + exact IHitems.
  - contradiction.
  - intros Hin. apply in_app_or in Hin as [Hin | Hin].
    + exact (Hchild _ _ Hin).
    + now apply IHitems.
Qed.

End SourceFileFacts.

Section SourceFileProperties.
Import SourceFiles Text ProjectText.

(** X28.  [findSourceFiles] and the walk behind it.  A start directory
    whose path contains "node_modules" or ".git" gives no file at all,
    whatever is below it, and so does one that cannot be listed.  Every file
    found is a listed name with a source extension joined to a directory whose
    path contains neither.  A listed name (no "/") has a source extension
    exactly when it is a non-empty stem followed by one of the nine
    extensions, so a file named just ".ts" does not count.  An item that
    [statSync] fails on ends the listing of its directory: what is listed
    after it is not found. *)
Theorem findSourceFiles_finds (join : string -> string -> string) (dir : string) (n : node) :
  (skipped dir = true -> findSourceFiles join dir n = [])
  /\ findSourceFiles join dir (Dir None) = []
  /\ (forall file, In file (findSourceFiles join dir n) ->
        exists parent item,
          file = join parent item /\ is_source item = true /\ skipped parent = false)
  /\ (forall item, no_slash item = true ->
        (is_source item = true <->
         exists stem ext, stem <> "" /\ In ext extensions /\ item = stem ++ ext))
  /\ (forall item before after,
        findSourceFiles join dir (Dir (Some (before ++ (item, NoStat) :: after)%list))
        = findSourceFiles join dir (Dir (Some before))).
Proof.
  unfold findSourceFiles. split; [apply walkDir_skipped|].
  split; [cbn [walkDir]; now destruct (skipped dir)|].
  split; [apply walkDir_found|].
  split; [apply is_source_spec|].
  intros item before after. apply walkDir_stops_at_NoStat.
Qed.

Lemma findSourceFiles_finds_witness :
  findSourceFiles Sample4.join "/repo/node_modules/pkg" Sample4.tree = []
  /\ is_source "app.d.ts" = true
  /\ is_source ".ts" = false
  /\ findSourceFiles Sample4.join "/repo" Sample4.tree
     = ["/repo/index.ts"; "/repo/src/app.d.ts"].
Proof.
  split; [|split; [|split]].
  - apply (proj1 (findSourceFiles_finds Sample4.join "/repo/node_modules/pkg" Sample4.tree)).
    reflexivity.
  - apply (proj1 (proj2 (proj2 (proj2 (findSourceFiles_finds Sample4.join "" File))))
                 "app.d.ts" eq_refl).
    exists "app.d", ".ts". split; [discriminate|]. split; [simpl; tauto | reflexivity].
  - reflexivity.
  - exact (eq_trans
             (proj2 (proj2 (proj2 (proj2 (findSourceFiles_finds Sample4.join "/repo" File))))
                    "dangling"
                    [ ("README.md", File); ("index.ts", File); (".ts", File);
                      (".github", Dir (Some [("ci.js", File)]));
                      ("node_modules", Dir (Some [("dep.js", File)]));
                      ("src", Dir (Some [("app.d.ts", File); ("App.TS", File);
                                         ("lib", Dir None)])) ]
                    [("late.py", File)])
             eq_refl).
Defined.

End SourceFileProperties.

Section ProjectFacts.
Import Eff Eff2 SourceFiles Project ProjectText.

Lemma distinct_spec (xs : list string) :
  forall seen,
    NoDup (distinct seen xs)
    /\ forall x, In x (distinct seen xs) <-> In x xs /\ ~ In x seen.
Proof.
  induction xs as [|y xs IH]; intros seen; cbn [distinct].
  - split; [constructor | simpl; tauto].
  - destruct (array_includes y seen) eqn:E.
    + apply array_includes_In in E. destruct (IH seen) as [Hnd Hin].
      split; [exact Hnd|]. intros x. rewrite Hin. simpl.
      split; [tauto|]. intros [[<- | H] Hs]; [contradiction | tauto].
    + assert (Hy : ~ In y seen).
      { intros H. apply array_includes_In in H. congruence. }
      destruct (IH (y :: seen)) as [Hnd Hin]. split.
      * constructor; [|exact Hnd]. rewrite Hin. simpl. tauto.
      * intros x. simpl. rewrite Hin. simpl.
        destruct (string_dec y x) as [<- | Hne]; tauto.
Qed.

Lemma count_language_total (ext : string) (languages : list (string * nat)) :
  total_count (count_language ext languages) = total_count languages + 1.
Proof.
  unfold total_count. induction languages as [|[k n] rest IH]; simpl; [reflexivity|].
  destruct (String.eqb k ext); simpl; lia.
Qed.

Lemma count_files_spec (disk : Disk) (files : list string) :
  forall totalLines languages,
    total_count (snd (count_files disk files totalLines languages))
    = total_count languages + List.length (readable disk files)
    /\ totalLines + List.length (readable disk files)
       <= fst (count_files disk files totalLines languages).
Proof.
  induction files as [|f files IH]; intros totalLines languages; cbn [count_files readable filter].
  - simpl. lia.
  - fold (readable disk files). destruct (read_utf8 disk f) as [content|e].
    + destruct (IH (totalLines + List.length (Js.split_lines content))
                   (count_language (extname f) languages)) as [Hc Hl].
      rewrite Hc, count_language_total. pose proof (split_lines_length content).
      cbn [List.length]. lia.
    + apply IH.
Qed.

Lemma readable_length (disk : Disk) (files : list string) :
  List.length (readable disk files) <= List.length files.
Proof. apply filter_length_le. Qed.

Lemma git_facts_run (s : Services) (t : trace2) :
  exists facts calls,
    git_facts s t = (Ok facts, (t ++ calls)%list)
    /\ NoDup (snd facts)
    /\ (forall e, git_log s t (Some 1) = Throw e -> facts = ("", []))
    /\ (forall log, git_log s t (Some 1) = Ok log -> fst facts = last_commit_line log).
Proof.
  unfold git_facts, try_catch2, bind2, call2, console2, ret2.
  destruct (git_log s t (Some 1)) as [log|e].
  - destruct (git_log s _ None) as [allLog|e].
    + eexists; eexists. split; [rewrite <- ?app_assoc; reflexivity|].
      split; [apply distinct_spec|]. split; [discriminate|].
      intros log' H. now injection H as <-.
    + eexists; eexists. split; [rewrite <- ?app_assoc; reflexivity|].
      split; [constructor|]. split; [discriminate|].
      intros log' H. now injection H as <-.
  - eexists; eexists. split; [rewrite <- ?app_assoc; reflexivity|].
    split; [constructor|]. split; [reflexivity | discriminate].
Qed.

(** X29.  [analyzeProject] never throws.  When package.json cannot be
    read or parsed, or parses to [null], or the git client cannot be opened,
    it gives the empty metrics, whatever else the project holds.  Otherwise
    the dependencies are those of package.json; [totalFiles] is the number of
    source files found, readable or not, while the languages count only the
    files that can be read, so their total is at most [totalFiles] and at most
    [totalLines]; the contributors have no duplicates; and a failing git log
    leaves the last commit and the contributors empty without touching the
    file counts. *)
Theorem analyzeProject_metrics (cfg : Config) (w : World) (s : Services) (disk : Disk)
        (t : trace2) :
  let opened := (t ++ [Old (EvSimpleGit (projectRoot cfg))])%list in
  let sourceFiles := findSourceFiles (path_join w) (projectRoot cfg) (root disk) in
  (exists m t', analyzeProject cfg w s disk t = (Ok m, t'))
  /\ (package_deps disk = None -> fst (analyzeProject cfg w s disk t) = Ok no_metrics)
  /\ (forall e, simpleGit w (base t) (projectRoot cfg) = Throw e ->
                fst (analyzeProject cfg w s disk t) = Ok no_metrics)
  /\ (forall deps,
        package_deps disk = Some deps ->
        simpleGit w (base t) (projectRoot cfg) = Ok tt ->
        exists m,
          fst (analyzeProject cfg w s disk t) = Ok m
          /\ dependencies m = fst deps /\ devDependencies m = snd deps
          /\ totalFiles m = List.length sourceFiles
          /\ total_count (languages m) = List.length (readable disk sourceFiles)
          /\ total_count (languages m) <= totalFiles m
          /\ total_count (languages m) <= totalLines m
          /\ NoDup (contributors m)
          /\ (forall e, git_log s opened (Some 1) = Throw e ->
                        lastCommit m = "" /\ contributors m = [])
          /\ (forall log, git_log s opened (Some 1) = Ok log ->
                          lastCommit m = last_commit_line log)).
Proof.
  intros opened sourceFiles.
  assert (Hmain : forall deps,
             package_deps disk = Some deps ->
             simpleGit w (base t) (projectRoot cfg) = Ok tt ->
             exists facts calls,
               git_facts s opened = (Ok facts, (opened ++ calls)%list)
               /\ analyzeProject cfg w s disk t
                  = (Ok {| totalFiles := List.length sourceFiles;
                           totalLines := fst (count_files disk sourceFiles 0 []);
                           languages := snd (count_files disk sourceFiles 0 []);
                           lastCommit := fst facts;
                           contributors := snd facts;
                           dependencies := fst deps;
                           devDependencies := snd deps |},
                     (opened ++ calls)%list)).
  { intros deps Hdeps Hgit.
    destruct (git_facts_run s opened) as (facts & calls & Hrun & _).
    exists facts, calls. split; [exact Hrun|].
    unfold analyzeProject, read_package, History.open_git2, try_catch2, bind2, call2, ret2.
    unfold package_deps in Hdeps.
    destruct (package_json disk) as [[[|d dd]|e]|]; try discriminate;
      injection Hdeps as <-; rewrite Hgit; fold opened; now rewrite Hrun. }
  split; [|split; [|split]].
  - destruct (package_deps disk) as [deps|] eqn:Hdeps.
    + destruct (simpleGit w (base t) (projectRoot cfg)) as [[]|e] eqn:Hgit.
      * destruct (Hmain deps eq_refl eq_refl) as (facts & calls & _ & Hrun).
        rewrite Hrun. eauto.
      * unfold analyzeProject, read_package, History.open_git2, try_catch2, bind2, call2,
          console2, ret2.
        unfold package_deps in Hdeps.
        destruct (package_json disk) as [[[|d dd]|e']|]; try discriminate;
          rewrite Hgit; eauto.
    + unfold analyzeProject, read_package, try_catch2, bind2, console2, ret2.
      unfold package_deps in Hdeps.
      destruct (package_json disk) as [[[|d dd]|e']|]; try discriminate; eauto.
  - intros Hdeps.
    unfold analyzeProject, read_package, try_catch2, bind2, console2, ret2.
    unfold package_deps in Hdeps.
    destruct (package_json disk) as [[[|d dd]|e']|]; try discriminate; reflexivity.
  - intros e Hgit.
    unfold analyzeProject, read_package, History.open_git2, try_catch2, bind2, call2,
      console2, ret2.
    destruct (package_json disk) as [[[|d dd]|e']|]; try reflexivity;
      now rewrite Hgit.
  - intros deps Hdeps Hgit.
    destruct (Hmain deps Hdeps Hgit) as (facts & calls & Hfacts & Hrun).
    destruct (git_facts_run s opened) as (facts' & calls' & Hrun' & Hnd & Hfail & Hlog).
    rewrite Hfacts in Hrun'. injection Hrun' as <- _.
    rewrite Hrun. eexists. split; [reflexivity|]. cbn [fst snd dependencies devDependencies
      totalFiles totalLines languages lastCommit contributors].
    destruct (count_files_spec disk sourceFiles 0 []) as [Hcount Hlines].
    pose proof (readable_length disk sourceFiles) as Hread.
    change (total_count []) with 0 in Hcount.
    split; [reflexivity|]. split; [reflexivity|]. split; [reflexivity|].
    split; [exact Hcount|]. split; [lia|]. split; [lia|]. split; [exact Hnd|].
    split; [intros e He; now rewrite (Hfail e He) | exact Hlog].
Qed.

Lemma analyzeProject_metrics_witness :
  fst (analyzeProject Sample.moderation_on (Sample2.git_ok Sample2.two_files)
         (Sample2.answering [] "" Sample2.two_commits []) Sample4.disk [])
  = Ok {| totalFiles := 2; totalLines := 2; languages := [(".ts", 1)];
          lastCommit := "01234567 - Add search"; contributors := ["Ada"];
          dependencies := [("axios", "^1.6.0")]; devDependencies := [] |}.
Proof.
  destruct (proj2 (proj2 (proj2
              (analyzeProject_metrics Sample.moderation_on (Sample2.git_ok Sample2.two_files)
                 (Sample2.answering [] "" Sample2.two_commits []) Sample4.disk [])))
              _ eq_refl eq_refl) as (m & Hm & _).
  rewrite Hm. vm_compute in Hm. now injection Hm as <-.
Defined.

End ProjectFacts.

(** ** The git status card *)

Section CardFacts.
Import ProjectManager Cards.

(** X30.  [buildGitStatusCard] shows the branch, the ahead and behind
    counts and a heading, then one line for each of the first five files, in
    order, and none for the others; a line starts with the check mark for a
    staged file and with the warning sign otherwise, and gives the path and
    the status.  Of the three commands the card offers, whatever the status,
    [detectIntent] takes the first as a commit (with the message
    "Auto-commit via bot") and the second as a new branch (named
    "feature/new-feature"), but has no rule for the third, "git log", which is
    left to the chat. *)
Theorem buildGitStatusCard_shape (sym : Symbols) (gitStatus : GitStatus) :
  let card := buildGitStatusCard sym gitStatus in
  List.length (body card) = 3 + Nat.min 5 (List.length (files gitStatus))
  /\ (forall i f, i < 5 -> nth_error (files gitStatus) i = Some f ->
        nth_error (body card) (3 + i)
        = Some {| text := (if staged f then sym_check sym else sym_warning sym)
                          ++ " " ++ path f ++ " (" ++ status f ++ ")";
                  weight := None; size := None; spacing := None; wrap := true |})
  /\ (forall i, 5 <= i -> nth_error (body card) (3 + i) = None)
  /\ map command (actions card)
     = ["commit Auto-commit via bot"; "branch feature/new-feature"; "git log"]
  /\ map (fun a => Intent.detectIntent (command a)) (actions card)
     = ["git_commit"; "git_branch"; "chat"]
  /\ Cases.argument Cases.re_commit_arg "commit Auto-commit via bot" = "Auto-commit via bot"
  /\ Cases.argument Cases.re_branch_arg "branch feature/new-feature" = "feature/new-feature".
Proof.
  intros card. split; [|split; [|split]].
  - unfold card, buildGitStatusCard. cbn [body]. rewrite length_app, length_map, length_firstn.
    reflexivity.
  - intros i f Hi Hf. unfold card, buildGitStatusCard. cbn [body app Nat.add nth_error].
    change (Some _) with (Some (file_block sym f)).
    apply map_nth_error. rewrite nth_error_firstn.
    apply Nat.ltb_lt in Hi. now rewrite Hi.
  - intros i Hi. apply nth_error_None.
    unfold card, buildGitStatusCard. cbn [body]. rewrite length_app, length_map, length_firstn.
    cbn [List.length]. lia.
  - repeat split.
Qed.

Lemma buildGitStatusCard_shape_witness :
  nth_error (body (buildGitStatusCard Sample3.signs
                     {| current := "main";
                        files := [ {| path := "a.ts"; status := " M"; staged := true |};
                                   {| path := "b.ts"; status := "??"; staged := false |} ];
                        ahead := 1; behind := 0 |})) 4
  = Some {| text := "[!] b.ts (??)";
            weight := None; size := None; spacing := None; wrap := true |}.
Proof.
  exact (proj1 (proj2 (buildGitStatusCard_shape Sample3.signs
                  {| current := "main";
                     files := [ {| path := "a.ts"; status := " M"; staged := true |};
                                {| path := "b.ts"; status := "??"; staged := false |} ];
                     ahead := 1; behind := 0 |}))
               1 {| path := "b.ts"; status := "??"; staged := false |}
               ltac:(lia) eq_refl).
Defined.

End CardFacts.
